(** * The translation dashboard: job table, upload handler and status polling

    A shallow embedding of the dashboard script (the job map, [renderJob],
    [renderStatusBadge], [renderDownloadLink], [startPolling], [pollAllJobs],
    [handleUpload], [seedExistingJobs]) and the properties its specification
    states about them.

    Modelling choices, fixed here once:

    - Strings are sequences of 8-bit characters; text outside ASCII and the
      three display constants that are not ASCII (the dash placeholder, the
      two ellipses) appear as their UTF-8 bytes.
    - A JavaScript value is [undefined], [null] or a string: the JSON fields
      the script reads ([job_id], [id], [filename], [status]) are strings in
      the service's interface, and may be absent or null.  Numbers, booleans
      and nested objects in those fields are outside the model.
    - The page is the part of the document the script touches.  The
      elements the script dereferences without a guard ([#upload-status],
      [#jobs-body]) exist on every page of the model; the ones it guards
      ([#upload-form], its submit button, [#polling-indicator]) may be
      missing.  Outside the content of the table's cells, the rows of
      [#jobs-body] are the only elements with a [data-job-id] attribute, the
      placeholder row is the only element of class [empty-row], and a row's
      cells are the only elements of the classes [job-name], [job-status]
      and [job-download].  A row may lack any of its cells: the script
      creates rows with all of them, the server need not.  The cells a row
      has are separate elements, none inside another.
    - What the browser computes is modelled exactly on a fragment, and is a
      parameter of the page, the [Browser], outside it.  [toLowerCase] and
      [trim] are computed on ASCII text.  [renderJob] is computed for a job
      that is [plain] on a table that is [tidy].  A job is plain when its
      identifier is free of CSS string syntax, its identifier and status
      are free of markup syntax, and its status names no class the script
      selects elements by.  A table is tidy when the markup in its cells is
      text, or a link or a span of the shapes the script writes, so that
      the selectors find nothing inside a cell.  There the attribute
      selector is a lookup by attribute value, the class selectors find
      the placeholder row and a row's own cells, and the markup written
      into a row leaves the row's cells in place.  In any other case the
      selector may be rejected or match something else, and the markup may
      add, hide or swallow cells: the table after the call and the
      exception it ends with, if any, are whatever the [Browser] says.
      Nothing is assumed about the [Browser], so what is proved without a
      hypothesis on it holds whatever it does; markup is parsed, never
      run.
    - An [async] function is cut at its [await]s into the pieces the event
      loop runs without interruption; the network's answer is an argument of
      the piece that resumes.  Two consecutive awaits with no access to
      shared state between them (the response, then its JSON body) resume
      as one piece. *)

From Stdlib Require Import String Ascii List Bool Arith PeanoNat Lia.
From Stdlib Require Import Permutation DecimalString.
Import ListNotations.
Open Scope string_scope.

Set Implicit Arguments.

(** ** Strings *)

Module Str.

Definition dquote : string := String "034"%char EmptyString.

Definition is_upper (c : ascii) : bool :=
  let n := nat_of_ascii c in ((65 <=? n) && (n <=? 90))%nat.

Definition is_lower (c : ascii) : bool :=
  let n := nat_of_ascii c in ((97 <=? n) && (n <=? 122))%nat.

Definition is_digit (c : ascii) : bool :=
  let n := nat_of_ascii c in ((48 <=? n) && (n <=? 57))%nat.

Definition lower_char (c : ascii) : ascii :=
  if is_upper c then ascii_of_nat (nat_of_ascii c + 32) else c.

(** [String.prototype.toLowerCase] on ASCII text: the letters A..Z are
    lowered, every other character is kept. *)
Fixpoint lower_ascii (s : string) : string :=
  match s with
  | EmptyString => EmptyString
  | String c r => String (lower_char c) (lower_ascii r)
  end.

Fixpoint all_chars (p : ascii -> bool) (s : string) : bool :=
  match s with
  | EmptyString => true
  | String c r => p c && all_chars p r
  end.

(** Text of ASCII characters only: every byte is below 128. *)
Definition is_ascii (s : string) : bool :=
  all_chars (fun c => (nat_of_ascii c <? 128)%nat) s.

(** The white space of [String.prototype.trim] in the ASCII range:
    tab, line feed, vertical tab, form feed, carriage return, space. *)
Definition is_space (c : ascii) : bool :=
  let n := nat_of_ascii c in (((9 <=? n) && (n <=? 13)) || (n =? 32))%nat.

Fixpoint trimStart (s : string) : string :=
  match s with
  | EmptyString => EmptyString
  | String c r => if is_space c then trimStart r else s
  end.

Fixpoint rev_string (acc s : string) : string :=
  match s with
  | EmptyString => acc
  | String c r => rev_string (String c acc) r
  end.

(** [String.prototype.trim] on ASCII text. *)
Definition trim_ascii (s : string) : string :=
  rev_string EmptyString (trimStart (rev_string EmptyString (trimStart s))).

Definition hex_digit (n : nat) : ascii :=
  if (n <? 10)%nat then ascii_of_nat (48 + n) else ascii_of_nat (55 + n).

(** The characters [encodeURIComponent] leaves as they are:
    letters, digits and  - _ . ! ~ * ' ( ) *)
Definition uri_unreserved (c : ascii) : bool :=
  is_upper c || is_lower c || is_digit c ||
  existsb (Ascii.eqb c)
    ["-"; "_"; "."; "!"; "~"; "*"; "'"; "("; ")"]%char.

Definition percent_encode (c : ascii) : string :=
  let n := nat_of_ascii c in
  String "%" (String (hex_digit (n / 16)) (String (hex_digit (n mod 16)) EmptyString)).

(** [encodeURIComponent], byte by byte. *)
Fixpoint encodeURIComponent (s : string) : string :=
  match s with
  | EmptyString => EmptyString
  | String c r =>
      (if uri_unreserved c then String c EmptyString else percent_encode c)
      ++ encodeURIComponent r
  end.

(** A number in a template literal: its decimal digits. *)
Definition of_nat (n : nat) : string :=
  NilZero.string_of_uint (Nat.to_uint n).

End Str.

(** ** Values *)

Inductive value : Type :=
| VUndefined
| VNull
| VStr (s : string).

Definition value_eq_dec (a b : value) : {a = b} + {a <> b}.
Proof. decide equality. apply string_dec. Defined.

(** SameValueZero on the values of the model, the equality of [Map] keys. *)
Definition value_eqb (a b : value) : bool :=
  if value_eq_dec a b then true else false.

(** ToBoolean: [undefined], [null] and the empty string are falsy. *)
Definition truthy (v : value) : bool :=
  match v with
  | VStr s => negb (s =? EmptyString)
  | VUndefined | VNull => false
  end.

(** [a || b] *)
Definition js_or (a b : value) : value := if truthy a then a else b.

Declare Scope js_scope.
Delimit Scope js_scope with js.
Infix "|||" := js_or (at level 50, left associativity) : js_scope.
Open Scope js_scope.

(** ToString, as a template literal applies it. *)
Definition ToString (v : value) : string :=
  match v with
  | VUndefined => "undefined"
  | VNull => "null"
  | VStr s => s
  end.

(** Exceptions: the constructor is the error's class, the argument its
    [message]. *)
Inductive exn : Type :=
| Error (message : string)
| TypeError (message : string)
| SyntaxError (message : string).

Definition message (e : exn) : string :=
  match e with Error m | TypeError m | SyntaxError m => m end.

(** The TypeErrors of a property read and of a property write on [null],
    worded as V8 words them. *)
Definition null_read (name : string) : exn :=
  TypeError ("Cannot read properties of null (reading '" ++ name ++ "')").

Definition null_write (name : string) : exn :=
  TypeError ("Cannot set properties of null (setting '" ++ name ++ "')").

Inductive Result (A : Type) : Type :=
| Ok (a : A)
| Throw (e : exn).
Arguments Ok {A} a.
Arguments Throw {A} e.

(** ** Jobs *)

Module Job.
Record t : Type := mk { id : value; filename : value; status : value }.
End Job.

(** ** The job map

    [const jobs = new Map()]: an association list in insertion order, which
    is the order [jobs.values()] iterates in.  [set] on a key that is there
    replaces the value in place; on a new key it appends. *)

Module JSMap.
Section Defs.
Variable V : Type.

Definition t : Type := list (value * V).

Definition empty : t := [].

Fixpoint get (k : value) (m : t) : option V :=
  match m with
  | [] => None
  | (k', v) :: r => if value_eqb k' k then Some v else get k r
  end.

Fixpoint set (k : value) (v : V) (m : t) : t :=
  match m with
  | [] => [(k, v)]
  | (k', v') :: r =>
      if value_eqb k' k then (k, v) :: r else (k', v') :: set k v r
  end.

Definition size (m : t) : nat := length m.

Definition keys (m : t) : list value := map fst m.

Definition values (m : t) : list V := map snd m.

End Defs.
End JSMap.

Arguments JSMap.empty {V}.

(** ** The page and the script's globals *)

(** The content of a cell: text, which is what an assignment to
    [textContent] leaves and what a server-rendered cell is taken as, or
    markup assigned to [innerHTML]. *)
Inductive Content : Type :=
| Text (s : string)
| Html (markup : string).

(** A row of the job table: its [data-job-id] attribute and the content of
    its cells ([job-id], [job-name], [job-status], [job-download]), [None]
    for a cell the row does not have. *)
Record Row : Type := mkRow {
  data_job_id : string;
  job_id_cell : option Content;
  job_name : option Content;
  job_status : option Content;
  job_download : option Content }.

(** The children of [#jobs-body]: the placeholder row or a job's row. *)
Inductive Tr : Type :=
| EmptyRow
| JobRow (r : Row).

(** [#upload-form]: the [disabled] flag of its submit button, when it has
    one, and the name of the file in its [file] field, when it has one (a
    file input with nothing chosen submits a file whose name is empty). *)
Record Form : Type := mkForm {
  submit_disabled : option bool;
  file : option string }.

Inductive callback : Type := CallPollAllJobs.

(** An interval timer of the window. *)
Record Timer : Type := mkTimer {
  handle : nat;
  handler : callback;
  interval : nat }.

(** How a call the model does not compute ends: normally, or with a
    SyntaxError or a TypeError of the browser. *)
Inductive Fault : Type :=
| NoFault
| SyntaxFault (message : string)
| TypeFault (message : string).

(** What the browser computes outside the fragment the model computes:
    [toLowerCase] and [trim] of text that is not ASCII, the text of markup,
    and, for a table that is not [tidy], the rows the selectors of
    [seedExistingJobs] find, each with the cells they find in it; and
    [renderJob] for a job that is not [plain] or on a table that is not
    [tidy], as the table after the call and the way the call ends. *)
Record Browser : Type := mkBrowser {
  lower : string -> string;
  strip : string -> string;
  text : string -> string;
  scan : list Tr -> list Row;
  quirk : Job.t -> list Tr -> Fault * list Tr }.

Record World : Type := mkWorld {
  browser : Browser;
  jobs : JSMap.t Job.t;
  pollerId : option nat;
  timers : list Timer;
  console : list (option string * exn);
  uploadForm : option Form;
  uploadStatusEl : string;
  jobsBody : list Tr;
  pollingIndicator : option string }.

Definition with_jobs (f : JSMap.t Job.t -> JSMap.t Job.t) (w : World) : World :=
  mkWorld (browser w) (f (jobs w)) (pollerId w) (timers w) (console w) (uploadForm w)
    (uploadStatusEl w) (jobsBody w) (pollingIndicator w).

Definition with_pollerId (p : option nat) (w : World) : World :=
  mkWorld (browser w) (jobs w) p (timers w) (console w) (uploadForm w)
    (uploadStatusEl w) (jobsBody w) (pollingIndicator w).

Definition with_timers (f : list Timer -> list Timer) (w : World) : World :=
  mkWorld (browser w) (jobs w) (pollerId w) (f (timers w)) (console w) (uploadForm w)
    (uploadStatusEl w) (jobsBody w) (pollingIndicator w).

Definition with_console (f : list (option string * exn) -> list (option string * exn))
  (w : World) : World :=
  mkWorld (browser w) (jobs w) (pollerId w) (timers w) (f (console w)) (uploadForm w)
    (uploadStatusEl w) (jobsBody w) (pollingIndicator w).

Definition with_uploadForm (f : option Form -> option Form) (w : World) : World :=
  mkWorld (browser w) (jobs w) (pollerId w) (timers w) (console w) (f (uploadForm w))
    (uploadStatusEl w) (jobsBody w) (pollingIndicator w).

Definition with_uploadStatusEl (s : string) (w : World) : World :=
  mkWorld (browser w) (jobs w) (pollerId w) (timers w) (console w) (uploadForm w)
    s (jobsBody w) (pollingIndicator w).

Definition with_jobsBody (f : list Tr -> list Tr) (w : World) : World :=
  mkWorld (browser w) (jobs w) (pollerId w) (timers w) (console w) (uploadForm w)
    (uploadStatusEl w) (f (jobsBody w)) (pollingIndicator w).

Definition with_pollingIndicator (f : option string -> option string) (w : World) : World :=
  mkWorld (browser w) (jobs w) (pollerId w) (timers w) (console w) (uploadForm w)
    (uploadStatusEl w) (jobsBody w) (f (pollingIndicator w)).

(** ** Computations: state that survives a throw *)

Definition M (A : Type) : Type := World -> Result A * World.

Definition ret {A} (a : A) : M A := fun w => (Ok a, w).

Definition bind {A B} (c : M A) (k : A -> M B) : M B :=
  fun w =>
    match c w with
    | (Ok a, w') => k a w'
    | (Throw e, w') => (Throw e, w')
    end.

Definition throw {A} (e : exn) : M A := fun w => (Throw e, w).

Definition lift {A} (r : Result A) : M A := fun w => (r, w).

Definition read {A} (f : World -> A) : M A := fun w => (Ok (f w), w).

Definition modify (f : World -> World) : M unit := fun w => (Ok tt, f w).

(** [try { body } catch (error) { handler error }] *)
Definition try_catch {A} (body : M A) (handler : exn -> M A) : M A :=
  fun w =>
    match body w with
    | (Ok a, w') => (Ok a, w')
    | (Throw e, w') => handler e w'
    end.

(** [try { body } finally { fin }]: [fin] runs on both paths; the outcome
    is [body]'s unless [fin] itself throws. *)
Definition try_finally {A} (body : M A) (fin : M unit) : M A :=
  fun w =>
    match body w with
    | (r, w') =>
        match fin w' with
        | (Ok _, w'') => (r, w'')
        | (Throw e, w'') => (Throw e, w'')
        end
    end.

Definition when (b : bool) (c : M unit) : M unit := if b then c else ret tt.

Fixpoint forM {A} (l : list A) (f : A -> M unit) : M unit :=
  match l with
  | [] => ret tt
  | x :: r => bind (f x) (fun _ => forM r f)
  end.

Definition exec {A} (c : M A) (w : World) : World := snd (c w).
Definition outcome {A} (c : M A) (w : World) : Result A := fst (c w).

Notation "x <- c ;; k" := (bind c (fun x => k))
  (at level 61, c at next level, right associativity) : js_scope.
Notation "c ;; k" := (bind c (fun _ => k))
  (at level 61, right associativity) : js_scope.

(** ** Built-ins *)

(** [String.prototype.toLowerCase] *)
Definition toLowerCase (e : Browser) (s : string) : string :=
  if Str.is_ascii s then Str.lower_ascii s else lower e s.

(** [String.prototype.trim] *)
Definition trim (e : Browser) (s : string) : string :=
  if Str.is_ascii s then Str.trim_ascii s else strip e s.

(** [cell.textContent], read. *)
Definition textContent (e : Browser) (c : Content) : string :=
  match c with
  | Text s => s
  | Html markup => text e markup
  end.

(** The characters with a meaning of their own inside a double-quoted CSS
    string: the quote that ends it, the backslash that starts an escape, the
    line breaks that make it a bad string (line feed, form feed, carriage
    return), and the null character, which the tokenizer replaces. *)
Definition css_special (c : ascii) : bool :=
  existsb (Ascii.eqb c) ["000"; "010"; "012"; "013"; "034"; "092"]%char.

(** The characters a browser does not take as they are when it parses
    markup, inside a double-quoted attribute or in text: the double quote,
    [<], [&], the carriage return and the null character. *)
Definition markup_special (c : ascii) : bool :=
  existsb (Ascii.eqb c) ["000"; "013"; "034"; "&"; "<"]%char.

Definition css_plain (s : string) : bool :=
  Str.all_chars (fun c => negb (css_special c)) s.

Definition markup_plain (s : string) : bool :=
  Str.all_chars (fun c => negb (markup_special c)) s.

(** The white space that separates the tokens of a [class] attribute: tab,
    line feed, form feed, carriage return, space. *)
Definition class_space (c : ascii) : bool :=
  existsb (Ascii.eqb c) ["009"; "010"; "012"; "013"; " "]%char.

(** The tokens of a [class] attribute; [cur] is the token being read, its
    last character first. *)
Fixpoint class_tokens (cur : string) (s : string) : list string :=
  match s with
  | EmptyString =>
      match cur with
      | EmptyString => []
      | _ => [Str.rev_string EmptyString cur]
      end
  | String c r =>
      if class_space c then
        match cur with
        | EmptyString => class_tokens EmptyString r
        | _ => Str.rev_string EmptyString cur :: class_tokens EmptyString r
        end
      else class_tokens (String c cur) r
  end.

(** The classes the script selects elements by. *)
Definition selected_classes : list string :=
  ["empty-row"; "job-name"; "job-status"; "job-download"].

(** No token of the attribute is a class the script selects by.  Letter
    case is not told apart: a page in quirks mode matches class names
    without regard to it. *)
Definition class_free (s : string) : bool :=
  forallb (fun t => negb (existsb (String.eqb (Str.lower_ascii t)) selected_classes))
    (class_tokens EmptyString s).

(** A status whose badge leaves the cells of the row what they are: the
    status and its lower-case form are free of markup syntax, and the
    lower-case form, which becomes part of the badge's [class] attribute,
    gives the badge no class the script selects by. *)
Definition plain_status (e : Browser) (status : value) : bool :=
  match status with
  | VStr s =>
      markup_plain s && markup_plain (toLowerCase e s) && class_free (toLowerCase e s)
  | VUndefined | VNull => true
  end.

(** A job whose selector and markup are computed: its identifier, as
    text, is free of CSS string syntax and of markup syntax, and its status
    is a [plain_status]. *)
Definition plain (e : Browser) (job : Job.t) : bool :=
  css_plain (ToString (Job.id job)) && markup_plain (ToString (Job.id job))
  && plain_status e (Job.status job).

(** ** Rendering of the two computed cells *)

(** [function renderStatusBadge(status = 'pending')]: the default applies
    to [undefined] only; [null.toLowerCase()] is a TypeError. *)
Definition renderStatusBadge (e : Browser) (status : value) : Result string :=
  let status := match status with VUndefined => VStr "pending" | v => v end in
  match status with
  | VStr s =>
      let normalized := toLowerCase e s in
      Ok ("<span class=" ++ Str.dquote ++ "badge " ++ normalized ++ Str.dquote
            ++ ">" ++ s ++ "</span>")
  | _ => Throw (null_read "toLowerCase")
  end.

Definition download_link (id : value) : string :=
  "<a href=" ++ Str.dquote ++ "/api/download/"
    ++ Str.encodeURIComponent (ToString id) ++ Str.dquote ++ " download>Download</a>".

Definition link_disabled : string :=
  "<span class=" ++ Str.dquote ++ "link-disabled" ++ Str.dquote ++ ">Not ready</span>".

(** [job.status && job.status.toLowerCase() === 'done'] *)
Definition is_done (e : Browser) (status : value) : bool :=
  match status with
  | VStr s => truthy status && (toLowerCase e s =? "done")
  | _ => false
  end.

Definition renderDownloadLink (e : Browser) (job : Job.t) : string :=
  if is_done e (Job.status job) then download_link (Job.id job) else link_disabled.

(** ** The network, as the script sees it *)

Module Payload.
(** The fields the script reads of a JSON object; [VUndefined] is a field
    that is not there.  A body that is a JSON number, string, boolean or
    array has none of them. *)
Record t : Type := mk {
  job_id : value;
  id : value;
  filename : value;
  status : value }.
End Payload.

(** What [response.json()] settles to: a rejection (the body is not JSON),
    [null], or a value whose properties can be read. *)
Inductive Body : Type :=
| BodyInvalid (e : exn)
| BodyNull
| BodyObject (p : Payload.t).

Record Response : Type := mkResponse {
  http_status : nat;
  body : Body }.

(** [response.ok] *)
Definition ok (r : Response) : bool :=
  ((200 <=? http_status r) && (http_status r <=? 299))%nat.

(** What [fetch] settles to. *)
Inductive FetchOutcome : Type :=
| Rejected (e : exn)
| Responded (r : Response).

Inductive Json : Type :=
| JNull
| JObject (p : Payload.t).

Definition await_fetch (o : FetchOutcome) : M Response :=
  match o with
  | Rejected e => throw e
  | Responded r => ret r
  end.

Definition await_json (r : Response) : M Json :=
  match body r with
  | BodyInvalid e => throw e
  | BodyNull => ret JNull
  | BodyObject p => ret (JObject p)
  end.

(** [payload.name] *)
Definition prop (payload : Json) (name : string) (field : Payload.t -> value) : M value :=
  match payload with
  | JNull => throw (null_read name)
  | JObject p => ret (field p)
  end.

(** ** Markup, read *)

(** The two parts of a badge a browser makes of the markup: its [class]
    attribute and its text. *)
Record Badge : Type := mkBadge { badge_class : string; badge_text : string }.

(** The part of a string before the first [stop], and the part after it. *)
Fixpoint until (stop : ascii) (s : string) : option (string * string) :=
  match s with
  | EmptyString => None
  | String c r =>
      if Ascii.eqb c stop then Some (EmptyString, r)
      else match until stop r with
           | Some (a, b) => Some (String c a, b)
           | None => None
           end
  end.

(** [s] without its prefix [p]. *)
Fixpoint after_prefix (p s : string) : option string :=
  match p, s with
  | EmptyString, _ => Some s
  | String a p', String b s' => if Ascii.eqb a b then after_prefix p' s' else None
  | String _ _, EmptyString => None
  end.

(** Text the tokenizer takes character for character, inside an attribute
    value and outside a tag: no [&] (a character reference), no carriage
    return (it becomes a line feed), no null character. *)
Definition verbatim (s : string) : bool :=
  Str.all_chars (fun c => negb (existsb (Ascii.eqb c) ["000"; "013"; "&"]%char)) s.

(** How a browser reads markup of the shape
    [<span class="...">...</span>]: the attribute value ends at the first
    double quote, the start tag must end right after it, and the text ends at
    the first [<], which must start the end tag.  [None] for markup of
    another shape, which the model does not read. *)
Definition read_badge (markup : string) : option Badge :=
  match after_prefix ("<span class=" ++ Str.dquote) markup with
  | None => None
  | Some r1 =>
      match until "034" r1 with
      | None => None
      | Some (cls, r2) =>
          match after_prefix ">" r2 with
          | None => None
          | Some r3 =>
              match until "<" r3 with
              | None => None
              | Some (txt, r4) =>
                  if (r4 =? "/span>") && verbatim cls && verbatim txt
                  then Some (mkBadge cls txt) else None
              end
          end
      end
  end.

(** Markup of the shape [<a href="..." download>Download</a>]: the
    attribute value ends at the first double quote. *)
Definition is_link (markup : string) : bool :=
  match after_prefix ("<a href=" ++ Str.dquote) markup with
  | None => false
  | Some r1 =>
      match until "034" r1 with
      | None => false
      | Some (_, r2) => r2 =? " download>Download</a>"
      end
  end.

(** Markup of the shape [<span class="...">...</span>] whose classes are
    none the script selects by. *)
Definition is_span (markup : string) : bool :=
  match read_badge markup with
  | Some b => class_free (badge_class b)
  | None => false
  end.

(** Markup with no tag in it: parsed, it is text. *)
Definition tagless (markup : string) : bool :=
  Str.all_chars (fun c => negb (Ascii.eqb c "<")) markup.

(** Markup that, parsed, has no element the script's selectors match: none
    with a [data-job-id] attribute, none with a class the script selects by.
    The model recognises text, a link and a span of the shapes above, which
    are the shapes [renderJob] writes; any other markup is not taken to be
    inert. *)
Definition inert_markup (markup : string) : bool :=
  tagless markup || is_link markup || is_span markup.

Definition inert (cell : option Content) : bool :=
  match cell with
  | Some (Html markup) => inert_markup markup
  | Some (Text _) | None => true
  end.

Definition tidy_row (x : Row) : bool :=
  inert (job_id_cell x) && inert (job_name x) && inert (job_status x)
  && inert (job_download x).

(** The job rows of the table in document order: what
    [jobsBody.querySelectorAll('tr[data-job-id]')] returns. *)
Fixpoint job_rows (trs : list Tr) : list Row :=
  match trs with
  | [] => []
  | EmptyRow :: r => job_rows r
  | JobRow x :: r => x :: job_rows r
  end.

(** A table in which the script's selectors find the rows and the cells,
    and nothing inside a cell. *)
Definition tidy (trs : list Tr) : bool := forallb tidy_row (job_rows trs).

(** ** renderJob *)

Fixpoint querySelector_row (attr : string) (trs : list Tr) : option Row :=
  match trs with
  | [] => None
  | EmptyRow :: r => querySelector_row attr r
  | JobRow x :: r =>
      if data_job_id x =? attr then Some x else querySelector_row attr r
  end.

(** [emptyRow.remove()] on the first placeholder, if there is one. *)
Fixpoint remove_empty_row (trs : list Tr) : list Tr :=
  match trs with
  | [] => []
  | EmptyRow :: r => r
  | JobRow x :: r => JobRow x :: remove_empty_row r
  end.

(** A write to the row the selector finds. *)
Fixpoint update_row (attr : string) (f : Row -> Row) (trs : list Tr) : list Tr :=
  match trs with
  | [] => []
  | EmptyRow :: r => EmptyRow :: update_row attr f r
  | JobRow x :: r =>
      if data_job_id x =? attr then JobRow (f x) :: r
      else JobRow x :: update_row attr f r
  end.

(** The row [renderJob] creates: the attribute, the identifier as the
    markup of the first cell, and three empty cells. *)
Definition new_row (job : Job.t) : Row :=
  mkRow (ToString (Job.id job)) (Some (Html (ToString (Job.id job))))
    (Some (Html EmptyString)) (Some (Html EmptyString)) (Some (Html EmptyString)).

Definition set_job_name (c : Content) (r : Row) : Row :=
  mkRow (data_job_id r) (job_id_cell r) (Some c) (job_status r) (job_download r).
Definition set_job_status (c : Content) (r : Row) : Row :=
  mkRow (data_job_id r) (job_id_cell r) (job_name r) (Some c) (job_download r).
Definition set_job_download (c : Content) (r : Row) : Row :=
  mkRow (data_job_id r) (job_id_cell r) (job_name r) (job_status r) (Some c).

Definition dash : string := "—".

(** [row.querySelector(cell).property = ...], where [row] is the row under
    [attr]: a TypeError when the row has no such cell. *)
Definition write_cell (attr : string) (cell : Row -> option Content)
  (put : Row -> Row) (property : string) : M unit :=
  row <- read (fun w => querySelector_row attr (jobsBody w)) ;;
  match row with
  | Some x =>
      match cell x with
      | Some _ => modify (with_jobsBody (update_row attr put))
      | None => throw (null_write property)
      end
  | None => throw (null_write property)
  end.

Definition fault (f : Fault) : Result unit :=
  match f with
  | NoFault => Ok tt
  | SyntaxFault m => Throw (SyntaxError m)
  | TypeFault m => Throw (TypeError m)
  end.

(** Lines 18 to 36, for a [plain] job on a [tidy] table: the lookup of
    the job's row, the removal of the placeholder row, and the new row in
    front of the table when the lookup found none. *)
Definition upsert_row (job : Job.t) : M unit :=
  let attr := ToString (Job.id job) in
  row <- read (fun w => querySelector_row attr (jobsBody w)) ;;
  modify (with_jobsBody remove_empty_row) ;;
  when (match row with None => true | Some _ => false end)
    (modify (with_jobsBody (cons (JobRow (new_row job))))).

(** Lines 38 to 40: the three writes into the job's row.  In the
    assignment of the badge the right-hand side is evaluated before the
    write is attempted, so a [null] status is reported before a missing
    cell. *)
Definition write_cells (e : Browser) (job : Job.t) : M unit :=
  let attr := ToString (Job.id job) in
  write_cell attr job_name
    (set_job_name (Text (ToString (Job.filename job ||| VStr dash)))) "textContent" ;;
  badge <- lift (renderStatusBadge e (Job.status job)) ;;
  write_cell attr job_status (set_job_status (Html badge)) "innerHTML" ;;
  write_cell attr job_download
    (set_job_download (Html (renderDownloadLink e job))) "innerHTML".

(** [renderJob]: the lines above for a [plain] job on a [tidy] table, and
    what the browser makes of the call otherwise. *)
Definition renderJob (job : Job.t) : M unit :=
  e <- read browser ;;
  table <- read jobsBody ;;
  if plain e job && tidy table then
    upsert_row job ;;
    write_cells e job
  else
    let q := quirk e job table in
    modify (with_jobsBody (fun _ => snd q)) ;;
    lift (fault (fst q)).

(** ** startPolling *)

Definition POLL_INTERVAL_MS : nat := 5000.

(** A handle no timer of the window has: timer handles are positive. *)
Definition fresh_handle (ts : list Timer) : nat :=
  S (list_max (map handle ts)).

(** [window.setInterval(f, ms)] *)
Definition setInterval (f : callback) (ms : nat) : M nat :=
  fun w =>
    let h := fresh_handle (timers w) in
    (Ok h, with_timers (fun ts => (ts ++ [mkTimer h f ms])%list) w).

Definition is_null (p : option nat) : bool :=
  match p with None => true | Some _ => false end.

Definition startPolling : M unit :=
  p <- read pollerId ;;
  n <- read (fun w => JSMap.size (jobs w)) ;;
  if negb (is_null p) || (n =? 0)%nat then ret tt
  else
    h <- setInterval CallPollAllJobs POLL_INTERVAL_MS ;;
    modify (with_pollerId (Some h)).

(** ** pollAllJobs *)

Definition set_indicator (s : string) : M unit :=
  modify (with_pollingIndicator (option_map (fun _ => s))).

Definition console_error (label : option string) (e : exn) : M unit :=
  modify (with_console (fun l => (l ++ [(label, e)])%list)).

(** The synchronous start of a tick: nothing on an empty map; otherwise
    the indicator text and one request per job of the map, each holding the
    record it was started for.  The result is that list of records. *)
Definition pollAllJobs_begin : M (list Job.t) :=
  n <- read (fun w => JSMap.size (jobs w)) ;;
  if (n =? 0)%nat then ret []
  else
    set_indicator "Refreshing…" ;;
    read (fun w => JSMap.values (jobs w)).

(** The callback of one job, from the moment its request settles. *)
Definition pollJob (job : Job.t) (o : FetchOutcome) : M unit :=
  try_catch
    (res <- await_fetch o ;;
     when (negb (ok res))
       (throw (Error ("Status request failed (" ++ Str.of_nat (http_status res) ++ ")"))) ;;
     payload <- await_json res ;;
     f <- prop payload "filename" Payload.filename ;;
     s <- prop payload "status" Payload.status ;;
     let updated := Job.mk (Job.id job) (f ||| Job.filename job) (s ||| Job.status job) in
     modify (with_jobs (JSMap.set (Job.id job) updated)) ;;
     renderJob updated)
    (fun error => console_error (Some "Failed to poll job status") error).

(** After [Promise.all]. *)
Definition pollAllJobs_end : M unit :=
  set_indicator "Auto-refreshing…".

(** The callbacks of a tick, resumed in the order their requests settle:
    each element is the record a request was started for and the answer
    to it. *)
Definition settle (arrivals : list (Job.t * FetchOutcome)) : M unit :=
  forM arrivals (fun a => pollJob (fst a) (snd a)).

(** A whole tick with nothing else running in between. *)
Definition pollAllJobs (arrivals : list (Job.t * FetchOutcome)) : M unit :=
  snapshot <- pollAllJobs_begin ;;
  match snapshot with
  | [] => ret tt
  | _ :: _ =>
      settle arrivals ;;
      pollAllJobs_end
  end.

(** The answers a tick can get: one per record of the map, in any order. *)
Definition answers (w : World) (arrivals : list (Job.t * FetchOutcome)) : Prop :=
  Permutation (map fst arrivals) (JSMap.values (jobs w)).

(** ** handleUpload *)

(** [new FormData(uploadForm)], as far as the script reads it. *)
Record FormData : Type := mkFormData { fd_file : option string }.

(** [formData.get('file')?.name] *)
Definition file_name (fd : FormData) : value :=
  match fd_file fd with
  | Some n => VStr n
  | None => VUndefined
  end.

Definition set_submit_disabled (b : bool) : M unit :=
  modify (with_uploadForm
    (option_map (fun f => mkForm (option_map (fun _ => b) (submit_disabled f)) (file f)))).

(** [uploadForm.reset()]: a file field goes back to no file chosen. *)
Definition form_reset : M unit :=
  modify (with_uploadForm
    (option_map (fun f => mkForm (submit_disabled f) (option_map (fun _ => EmptyString) (file f))))).

(** Up to [await fetch(...)]: [None] when there is no form and the handler
    returns at once, else the form data the request was built from.
    [event.preventDefault()] acts on the event only and has no part here. *)
Definition handleUpload_begin : M (option FormData) :=
  form <- read uploadForm ;;
  match form with
  | None => ret None
  | Some f =>
      set_submit_disabled true ;;
      modify (with_uploadStatusEl "Uploading…") ;;
      ret (Some (mkFormData (file f)))
  end.

(** The body of the [try], from the moment the request settles. *)
Definition upload_try (formData : FormData) (o : FetchOutcome) : M unit :=
  response <- await_fetch o ;;
  when (negb (ok response))
    (throw (Error ("Upload failed (" ++ Str.of_nat (http_status response) ++ ")"))) ;;
  payload <- await_json response ;;
  job_id <- prop payload "job_id" Payload.job_id ;;
  id <- prop payload "id" Payload.id ;;
  f <- prop payload "filename" Payload.filename ;;
  s <- prop payload "status" Payload.status ;;
  let job := Job.mk (job_id ||| id) (f ||| file_name formData ||| VStr "PDF")
               (s ||| VStr "pending") in
  when (negb (truthy (Job.id job))) (throw (Error "Missing job id in response")) ;;
  modify (with_jobs (JSMap.set (Job.id job) job)) ;;
  renderJob job ;;
  startPolling ;;
  modify (with_uploadStatusEl "Upload successful! Job created.") ;;
  form_reset.

Definition upload_catch (error : exn) : M unit :=
  console_error None error ;;
  modify (with_uploadStatusEl ("Error: " ++ message error)).

Definition upload_finally : M unit := set_submit_disabled false.

(** The rest of the handler, resumed when the request settles. *)
Definition handleUpload_resume (formData : FormData) (o : FetchOutcome) : M unit :=
  try_finally (try_catch (upload_try formData o) upload_catch) upload_finally.

(** The handler with nothing else running in between. *)
Definition handleUpload (o : FetchOutcome) : M unit :=
  fd <- handleUpload_begin ;;
  match fd with
  | None => ret tt
  | Some formData => handleUpload_resume formData o
  end.


(** ** seedExistingJobs *)

(** [cell?.textContent?.trim()] *)
Definition trimmed (e : Browser) (cell : option Content) : value :=
  match cell with
  | Some c => VStr (trim e (textContent e c))
  | None => VUndefined
  end.

Definition seedRow (row : Row) : M unit :=
  e <- read browser ;;
  let id := VStr (data_job_id row) in
  let filename := trimmed e (job_name row) in
  let status := trimmed e (job_status row) in
  when (truthy id) (modify (with_jobs (JSMap.set id (Job.mk id filename status)))).

(** [jobsBody.querySelectorAll('tr[data-job-id]')], each row with the
    cells [row.querySelector] finds in it: the job rows of a [tidy] table,
    and what the browser finds in any other. *)
Definition existing_rows (e : Browser) (trs : list Tr) : list Row :=
  if tidy trs then job_rows trs else scan e trs.

Definition seedExistingJobs : M unit :=
  existingRows <- read (fun w => existing_rows (browser w) (jobsBody w)) ;;
  forM existingRows seedRow ;;
  n <- read (fun w => JSMap.size (jobs w)) ;;
  when (0 <? n)%nat startPolling.

(** ** The event loop

    The script's pieces as the page runs them: a submit event starts an
    upload, a timer that exists fires a tick, and a request in flight
    settles with any answer, at any later time, in any order.  [ticks]
    holds, for each tick in flight, the records of its requests that have
    not settled; [uploads] holds the form data of the uploads in flight. *)

Record System : Type := mkSystem {
  world : World;
  ticks : list (list Job.t);
  uploads : list FormData }.

(** The page as the server rendered it, before the script runs: an empty
    map, no timer. *)
Definition initial (e : Browser) (form : option Form) (statusText : string)
  (body : list Tr) (indicator : option string) : World :=
  mkWorld e JSMap.empty None [] [] form statusText body indicator.

(** The script has run to its end: the rows of the page are seeded. *)
Definition boot (e : Browser) (form : option Form) (statusText : string)
  (body : list Tr) (indicator : option string) : System :=
  mkSystem (exec seedExistingJobs (initial e form statusText body indicator)) [] [].

Definition submit (s : System) : System :=
  match handleUpload_begin (world s) with
  | (Ok (Some fd), w) => mkSystem w (ticks s) (fd :: uploads s)
  | (_, w) => mkSystem w (ticks s) (uploads s)
  end.

Definition tick (s : System) : System :=
  match pollAllJobs_begin (world s) with
  | (Ok (j :: l), w) => mkSystem w (ticks s ++ [j :: l])%list (uploads s)
  | (_, w) => mkSystem w (ticks s) (uploads s)
  end.

Inductive step : System -> System -> Prop :=
| step_submit s :
    uploadForm (world s) <> None ->
    step s (submit s)
| step_upload_settles s us1 fd us2 o :
    uploads s = (us1 ++ fd :: us2)%list ->
    step s (mkSystem (exec (handleUpload_resume fd o) (world s)) (ticks s) (us1 ++ us2)%list)
| step_tick s t :
    In t (timers (world s)) ->
    step s (tick s)
| step_poll_settles s ts1 l1 job l2 ts2 o :
    ticks s = (ts1 ++ (l1 ++ job :: l2) :: ts2)%list ->
    step s (mkSystem (exec (pollJob job o) (world s))
              (ts1 ++ (l1 ++ l2) :: ts2)%list (uploads s))
| step_tick_end s ts1 ts2 :
    ticks s = (ts1 ++ [] :: ts2)%list ->
    step s (mkSystem (exec pollAllJobs_end (world s)) (ts1 ++ ts2)%list (uploads s)).

Inductive reachable : System -> Prop :=
| reach_boot e form statusText body indicator :
    reachable (boot e form statusText body indicator)
| reach_step s s' :
    reachable s -> step s s' -> reachable s'.

(** ** Well-formed states *)

(** A record the script can have built: a non-empty string as identifier,
    and a status that is a string or [undefined]. *)
Definition job_ok (j : Job.t) : Prop :=
  truthy (Job.id j) = true /\ Job.status j <> VNull.

(** The map as the script keeps it: one entry per key, each record under
    its own identifier. *)
Record store_ok (m : JSMap.t Job.t) : Prop := mk_store_ok {
  store_nodup : NoDup (JSMap.keys m);
  store_keyed : Forall (fun kv => Job.id (snd kv) = fst kv /\ job_ok (snd kv)) m }.

(** The script never clears its timer: there is none while [pollerId] is
    null, and afterwards exactly the one it names. *)
Definition timer_ok (w : World) : Prop :=
  match pollerId w with
  | None => timers w = []
  | Some h => timers w = [mkTimer h CallPollAllJobs POLL_INTERVAL_MS]
  end.

Record invariant (s : System) : Prop := mk_invariant {
  inv_timer : timer_ok (world s);
  inv_store : store_ok (jobs (world s));
  inv_ticks :
    Forall (Forall (fun j => In (Job.id j) (JSMap.keys (jobs (world s))) /\ job_ok j))
      (ticks s) }.

(** ** What a poll callback writes *)

(** [{ id: job.id, filename: payload.filename || job.filename,
       status: payload.status || job.status }] *)
Definition merged (p : Payload.t) (job : Job.t) : Job.t :=
  Job.mk (Job.id job) (Payload.filename p ||| Job.filename job)
    (Payload.status p ||| Job.status job).

(** The record a callback writes, when its request was answered with a
    success status and a body whose properties can be read. *)
Definition poll_update (job : Job.t) (o : FetchOutcome) : option Job.t :=
  match o with
  | Responded r =>
      if ok r then
        match body r with
        | BodyObject p => Some (merged p job)
        | _ => None
        end
      else None
  | Rejected _ => None
  end.

(** A failed status check: the request was rejected (a network error) or
    answered with a status outside 200..299. *)
Definition failed (o : FetchOutcome) : bool :=
  match o with
  | Rejected _ => true
  | Responded r => negb (ok r)
  end.

(** The job an upload creates:
    [{ id: payload.job_id || payload.id,
       filename: payload.filename || formData.get('file')?.name || 'PDF',
       status: payload.status || 'pending' }] *)
Definition uploaded (p : Payload.t) (fd : FormData) : Job.t :=
  Job.mk (Payload.job_id p ||| Payload.id p)
    (Payload.filename p ||| file_name fd ||| VStr "PDF")
    (Payload.status p ||| VStr "pending").

(** ** The job table, read

    What a reader of the table sees: its job rows in document order, their
    [data-job-id] attributes, how many placeholder rows it has, and the row
    a lookup by identifier finds. *)

Definition attrs (trs : list Tr) : list string := map data_job_id (job_rows trs).

Fixpoint placeholders (trs : list Tr) : nat :=
  match trs with
  | [] => 0
  | EmptyRow :: r => S (placeholders r)
  | JobRow _ :: r => placeholders r
  end.

Definition row_of (k : string) (w : World) : option Row :=
  querySelector_row k (jobsBody w).

Definition is_some {A} (c : option A) : bool :=
  match c with
  | Some _ => true
  | None => false
  end.

(** The row has the three cells [renderJob] writes. *)
Definition has_cells (x : Row) : bool :=
  is_some (job_name x) && is_some (job_status x) && is_some (job_download x).

(** Nothing stands in the way of the three writes of [renderJob]: the
    table has no row under the identifier, so one is created, or the row it
    has has its cells. *)
Definition row_ready (attr : string) (trs : list Tr) : bool :=
  match querySelector_row attr trs with
  | Some x => has_cells x
  | None => true
  end.

(** Every job row of the table has its cells. *)
Definition complete (trs : list Tr) : bool := forallb has_cells (job_rows trs).

Definition keeps_attr (f : Row -> Row) : Prop :=
  forall x, data_job_id (f x) = data_job_id x.

(** ** renderJob, as a function of the table *)

(** The row the three writes go to: the one the table has under the job's
    identifier, or the new one. *)
Definition row_before (job : Job.t) (trs : list Tr) : Row :=
  match querySelector_row (ToString (Job.id job)) trs with
  | Some x => x
  | None => new_row job
  end.

(** The table before the three writes: a placeholder row removed, and the
    new row in front when the table had none under the identifier. *)
Definition upserted (job : Job.t) (trs : list Tr) : list Tr :=
  match querySelector_row (ToString (Job.id job)) trs with
  | Some _ => remove_empty_row trs
  | None => JobRow (new_row job) :: remove_empty_row trs
  end.

(** The three writes on the job's row: how they end, and the row after
    them.  A write that throws ends them. *)
Definition written (e : Browser) (job : Job.t) (x : Row) : Result unit * Row :=
  match job_name x with
  | None => (Throw (null_write "textContent"), x)
  | Some _ =>
      let x1 := set_job_name (Text (ToString (Job.filename job ||| VStr dash))) x in
      match renderStatusBadge e (Job.status job) with
      | Throw err => (Throw err, x1)
      | Ok badge =>
          match job_status x with
          | None => (Throw (null_write "innerHTML"), x1)
          | Some _ =>
              let x2 := set_job_status (Html badge) x1 in
              match job_download x with
              | None => (Throw (null_write "innerHTML"), x2)
              | Some _ =>
                  (Ok tt, set_job_download (Html (renderDownloadLink e job)) x2)
              end
          end
      end
  end.

(** How [renderJob job] ends and the table after it, as a function of the
    table before. *)
Definition render (e : Browser) (job : Job.t) (trs : list Tr) : Result unit * list Tr :=
  if plain e job && tidy trs then
    (fst (written e job (row_before job trs)),
     update_row (ToString (Job.id job)) (fun x => snd (written e job x)) (upserted job trs))
  else (fault (fst (quirk e job trs)), snd (quirk e job trs)).

Definition rendered (e : Browser) (job : Job.t) (trs : list Tr) : list Tr :=
  snd (render e job trs).

Definition render_outcome (e : Browser) (job : Job.t) (trs : list Tr) : Result unit :=
  fst (render e job trs).

(** ** Derived definitions used in the statements *)

(** The world after [startPolling] has set its timer. *)
Definition polling_started (w : World) : World :=
  let h := fresh_handle (timers w) in
  with_pollerId (Some h)
    (with_timers (fun ts => (ts ++ [mkTimer h CallPollAllJobs POLL_INTERVAL_MS])%list) w).

(** The exception a callback catches when it writes nothing. *)
Definition poll_error (o : FetchOutcome) : exn :=
  match o with
  | Rejected e => e
  | Responded r =>
      if ok r then
        match body r with
        | BodyInvalid e => e
        | _ => null_read "filename"
        end
      else Error ("Status request failed (" ++ Str.of_nat (http_status r) ++ ")")
  end.

Definition poll_label : option string := Some "Failed to poll job status".

(** The world once the upload handler has stored and rendered the job. *)
Definition upload_stored (job : Job.t) (w : World) : World :=
  with_jobsBody (rendered (browser w) job) (with_jobs (JSMap.set (Job.id job) job) w).

(** The upload handler on a response it accepts, when [renderJob] ends
    normally. *)
Definition upload_done (job : Job.t) (w : World) : World :=
  exec upload_finally
    (exec form_reset
       (with_uploadStatusEl "Upload successful! Job created."
          (exec startPolling (upload_stored job w)))).

(** The upload handler on a failure: the error is logged and shown. *)
Definition upload_failed (e : exn) (w : World) : World :=
  exec upload_finally
    (with_uploadStatusEl ("Error: " ++ message e)
       (with_console (fun l => (l ++ [(None, e)])%list) w)).

(** The upload handler on a response it accepts. *)
Definition upload_settled (job : Job.t) (w : World) : World :=
  match render_outcome (browser w) job (jobsBody w) with
  | Ok _ => upload_done job w
  | Throw e => upload_failed e (upload_stored job w)
  end.

(** The exception the [try] of the upload handler ends with before it
    stores a job, if any. *)
Definition upload_error (fd : FormData) (o : FetchOutcome) : option exn :=
  match o with
  | Rejected e => Some e
  | Responded r =>
      if ok r then
        match body r with
        | BodyInvalid e => Some e
        | BodyNull => Some (null_read "job_id")
        | BodyObject p =>
            if truthy (Job.id (uploaded p fd)) then None
            else Some (Error "Missing job id in response")
        end
      else Some (Error ("Upload failed (" ++ Str.of_nat (http_status r) ++ ")"))
  end.

Definition attr_of (a : Job.t * FetchOutcome) : string := ToString (Job.id (fst a)).
Definition id_of (a : Job.t * FetchOutcome) : value := Job.id (fst a).

(** Every record the callbacks of a tick write is [plain]. *)
Definition tick_plain (e : Browser) (arrivals : list (Job.t * FetchOutcome)) : bool :=
  forallb (fun a => match poll_update (fst a) (snd a) with
                    | Some u => plain e u
                    | None => true
                    end) arrivals.

(** A poll response as the specification words it, in the running page:
    whenever a status request in flight for a record of [job]'s identifier
    is answered with a success status and a JSON object, the record the map
    holds under that identifier afterwards keeps the status, and the
    filename, the map held before if the response has none. *)
Definition poll_claim_as_stated : Prop :=
  forall (s : System) ts1 l1 (job : Job.t) l2 ts2 (r : Response) (p : Payload.t)
         (existing : Job.t),
    reachable s -> ticks s = (ts1 ++ (l1 ++ job :: l2) :: ts2)%list ->
    ok r = true -> body r = BodyObject p ->
    JSMap.get (Job.id job) (jobs (world s)) = Some existing ->
    exists updated,
      JSMap.get (Job.id job) (jobs (exec (pollJob job (Responded r)) (world s)))
      = Some updated
      /\ (Payload.status p = VUndefined -> Job.status updated = Job.status existing)
      /\ (Payload.filename p = VUndefined ->
          Job.filename updated = Job.filename existing).

(** The browser of the concrete cases.  Its selector engine rejects the
    selector [renderJob] builds for a job that is not [plain], as browsers do
    when the identifier has a double quote in it, and the table stays as it
    is.  What it does with text outside ASCII and on a table that is not
    [tidy] plays no part: no case below has either. *)
Definition strict : Browser :=
  mkBrowser (fun s => s) (fun s => s) (fun s => s) job_rows
    (fun job trs =>
       (SyntaxFault
          ("Failed to execute 'querySelector' on 'Document': '[data-job-id="
             ++ Str.dquote ++ ToString (Job.id job) ++ Str.dquote
             ++ "]' is not a valid selector."),
        trs)).

(** The service's answer to an upload: 200 with [{job_id: ...}]. *)
Definition created (job_id : string) : Response :=
  mkResponse 200 (BodyObject (Payload.mk (VStr job_id) VUndefined VUndefined VUndefined)).

(** Two ticks that overlap.  [report.pdf] is uploaded and becomes job 42,
    [pending]; the timer fires, and fires again before the first request
    has settled, so two requests for job 42 are in flight, each holding the
    [pending] record; the second is answered [{status: "done"}]. *)
Definition job42 : Job.t := Job.mk (VStr "42") (VStr "report.pdf") (VStr "pending").

Definition says_done : Response :=
  mkResponse 200 (BodyObject (Payload.mk VUndefined VUndefined VUndefined (VStr "done"))).

Definition says_nothing : Response :=
  mkResponse 200 (BodyObject (Payload.mk VUndefined VUndefined VUndefined VUndefined)).

Definition page_loaded : System :=
  boot strict (Some (mkForm (Some false) (Some "report.pdf"))) EmptyString [EmptyRow]
    (Some EmptyString).

Definition job_created : System :=
  mkSystem
    (exec (handleUpload_resume (mkFormData (Some "report.pdf")) (Responded (created "42")))
       (world (submit page_loaded)))
    [] [].

Definition two_ticks : System := tick (tick job_created).

Definition overlap_before : System :=
  mkSystem (exec (pollJob job42 (Responded says_done)) (world two_ticks))
    [[job42]; []] [].

Definition overlap_after : System :=
  mkSystem (exec (pollJob job42 (Responded says_nothing)) (world overlap_before))
    [[]; []] [].

(** A page the server rendered with one job row that has no status cell:
    job 7, [a.pdf].  The script seeds it, the timer fires, and the request is
    answered [{status: "done"}]. *)
Definition row7 : Row :=
  mkRow "7" (Some (Text "7")) (Some (Text "a.pdf")) None (Some (Text "Not ready")).

Definition job7 : Job.t := Job.mk (VStr "7") (VStr "a.pdf") VUndefined.

Definition served : System :=
  boot strict None EmptyString [JobRow row7] None.

Definition served_polled : System :=
  mkSystem (exec (pollJob job7 (Responded says_done)) (world (tick served))) [[]] [].

(** The world while the upload request is in flight. *)
Definition uploading (w : World) : World :=
  with_uploadStatusEl "Uploading…" (exec (set_submit_disabled true) w).

(** The job the specification describes for an upload: each field of the
    response that is there, else the submitted file's name and
    [pending]. *)
Definition present (v : value) : bool :=
  match v with
  | VUndefined => false
  | _ => true
  end.

Definition claimed_upload (p : Payload.t) (submitted : string) : Job.t :=
  Job.mk (Payload.job_id p)
    (if present (Payload.filename p) then Payload.filename p else VStr submitted)
    (if present (Payload.status p) then Payload.status p else VStr "pending").

(** C5 as the specification words it. *)
Definition upload_claim_as_stated : Prop :=
  forall (w : World) (form : Form) (submitted : string) (r : Response) (p : Payload.t),
    store_ok (jobs w) -> uploadForm w = Some form -> file form = Some submitted ->
    ok r = true -> body r = BodyObject p -> present (Payload.job_id p) = true ->
    JSMap.get (Payload.job_id p) (jobs (exec (handleUpload (Responded r)) w))
    = Some (claimed_upload p submitted).


(** A page with the placeholder row, whose form has a submit button and a
    file field where nothing is chosen. *)
Definition no_file_page : World :=
  initial strict (Some (mkForm (Some false) (Some EmptyString))) EmptyString [EmptyRow]
    (Some EmptyString).

(** The same page with [report.pdf] chosen. *)
Definition report_page : World :=
  initial strict (Some (mkForm (Some false) (Some "report.pdf"))) EmptyString [EmptyRow]
    (Some EmptyString).

(** Answers and rows of the concrete cases below. *)
Definition no_id : Response :=
  mkResponse 200 (BodyObject (Payload.mk VUndefined VUndefined VUndefined (VStr "pending"))).

Definition id_only : Response :=
  mkResponse 200 (BodyObject (Payload.mk VUndefined (VStr "7") VUndefined VUndefined)).

Definition row42 (status_cell download_cell : string) : Row :=
  mkRow "42" (Some (Html "42")) (Some (Text "report.pdf"))
    (Some (Html status_cell)) (Some (Html download_cell)).

(** An identifier with a double quote in it, and a status with markup
    syntax in it. *)
Definition quoted : string := "a" ++ Str.dquote ++ "b".


(** The sixteen spellings of [done] in upper and lower case. *)
Definition done_casings : list string :=
  ["done"; "donE"; "doNe"; "doNE"; "dOne"; "dOnE"; "dONe"; "dONE";
   "Done"; "DonE"; "DoNe"; "DoNE"; "DOne"; "DOnE"; "DONe"; "DONE"].

(** ** Reading a download link back *)

(** The characters an encoded URI component is made of: the unreserved
    ones and the percent sign. *)
Definition url_safe (c : ascii) : bool :=
  Str.uri_unreserved c || Ascii.eqb c "%".

Definition unhex (c : ascii) : nat :=
  let n := nat_of_ascii c in
  if Str.is_digit c then n - 48 else n - 55.

(** The inverse of [Str.encodeURIComponent] on its image: a percent sign
    and two hexadecimal digits are one character, any other character is
    itself. *)
Fixpoint percent_decode (s : string) : string :=
  match s with
  | EmptyString => EmptyString
  | String c r =>
      if Ascii.eqb c "%" then
        match r with
        | String h (String l r') =>
            String (ascii_of_nat (16 * unhex h + unhex l)) (percent_decode r')
        | _ => EmptyString
        end
      else String c (percent_decode r)
  end.

(** The part of a string before its first double quote. *)
Fixpoint before_quote (s : string) : string :=
  match s with
  | EmptyString => EmptyString
  | String c r => if Ascii.eqb c "034" then EmptyString else String c (before_quote r)
  end.

(** ** Seeding, read *)

(** The record [seedExistingJobs] builds from a row:
    [{ id, filename, status }]. *)
Definition seeded (e : Browser) (r : Row) : Job.t :=
  Job.mk (VStr (data_job_id r)) (trimmed e (job_name r)) (trimmed e (job_status r)).

(** The row is one [seedExistingJobs] stores under the key [k]. *)
Definition seeds (k : value) (r : Row) : bool :=
  truthy (VStr (data_job_id r)) && value_eqb (VStr (data_job_id r)) k.

(** ** Uploads, read *)

(** The job of an upload that passes the three checks ([response.ok], a
    body whose properties can be read, [payload.job_id || payload.id]
    truthy), [None] for any other upload. *)
Definition upload_job (fd : FormData) (o : FetchOutcome) : option Job.t :=
  match o with
  | Rejected _ => None
  | Responded r =>
      if ok r then
        match body r with
        | BodyObject p =>
            if truthy (Job.id (uploaded p fd)) then Some (uploaded p fd) else None
        | _ => None
        end
      else None
  end.

(** The form after the handler: the button enabled, and the file field
    emptied when [reset] is set. *)
Definition form_after (reset : bool) (f : Form) : Form :=
  mkForm (option_map (fun _ => false) (submit_disabled f))
    (if reset then option_map (fun _ => EmptyString) (file f) else file f).

Definition upload_ok_text : string := "Upload successful! Job created.".

(** ** Ticks, read *)

(** The requests whose callback throws before it writes: those rejected,
    answered with a status outside 200..299, with a body that is not JSON,
    or with the body [null]. *)
Definition logged (o : FetchOutcome) : bool :=
  match o with
  | Rejected _ => true
  | Responded r =>
      negb (ok r) ||
      match body r with
      | BodyObject _ => false
      | _ => true
      end
  end.

(** The console entries of those requests, in the order the requests
    settle. *)
Definition tick_log (arrivals : list (Job.t * FetchOutcome)) : list (option string * exn) :=
  map (fun a => (poll_label, poll_error (snd a)))
    (filter (fun a => logged (snd a)) arrivals).

(** A page that tracks two jobs, and a tick over it in which the first
    request is answered [{status: "done"}] and the second fails with 500. *)
Definition job43 : Job.t := Job.mk (VStr "43") (VStr "notes.pdf") (VStr "queued").

Definition two_jobs : World :=
  with_jobs (fun _ => [(VStr "42", job42); (VStr "43", job43)]) report_page.

Definition mixed_answers : list (Job.t * FetchOutcome) :=
  [(job42, Responded says_done); (job43, Responded (mkResponse 500 BodyNull))].

(** * Properties *)

(** ** Strings *)

Lemma string_eqb_refl_true (s : string) : (s =? s) = true.
Proof. apply String.eqb_refl. Qed.

Lemma all_chars_app (p : ascii -> bool) (a b : string) :
  Str.all_chars p (a ++ b) = Str.all_chars p a && Str.all_chars p b.
Proof.
  induction a as [|c r IH]; simpl; [reflexivity|].
  now rewrite IH, andb_assoc.
Qed.

Lemma all_chars_impl (p q : ascii -> bool) (s : string) :
  (forall c, p c = true -> q c = true) ->
  Str.all_chars p s = true -> Str.all_chars q s = true.
Proof.
  intros H. induction s as [|c r IH]; simpl; [reflexivity|].
  intros Hs. apply andb_true_iff in Hs as [Hc Hr].
  now rewrite (H _ Hc), IH.
Qed.

Lemma toLowerCase_ascii (e : Browser) (s : string) :
  Str.is_ascii s = true -> toLowerCase e s = Str.lower_ascii s.
Proof. unfold toLowerCase. now intros ->. Qed.

Lemma trim_ascii_text (e : Browser) (s : string) :
  Str.is_ascii s = true -> trim e s = Str.trim_ascii s.
Proof. unfold trim. now intros ->. Qed.

Lemma lower_char_markup (c : ascii) :
  markup_special (Str.lower_char c) = markup_special c.
Proof. destruct c as [[] [] [] [] [] [] [] []]; reflexivity. Qed.

Lemma lower_ascii_markup_plain (s : string) :
  markup_plain (Str.lower_ascii s) = markup_plain s.
Proof.
  unfold markup_plain. induction s as [|c r IH]; simpl; [reflexivity|].
  now rewrite lower_char_markup, IH.
Qed.

(** For ASCII text, the lower-case form of a status free of markup syntax
    is free of it too. *)
Lemma toLowerCase_markup_plain (e : Browser) (s : string) :
  Str.is_ascii s = true -> markup_plain (toLowerCase e s) = markup_plain s.
Proof.
  intros H. rewrite (toLowerCase_ascii e _ H). apply lower_ascii_markup_plain.
Qed.

Ltac by_cases_on_char c :=
  destruct c as [[] [] [] [] [] [] [] []]; cbv; intros H;
  solve [ now left | now right | discriminate H ].

Lemma lower_char_d (c : ascii) :
  Str.lower_char c = "d"%char -> c = "d"%char \/ c = "D"%char.
Proof. by_cases_on_char c. Qed.

Lemma lower_char_o (c : ascii) :
  Str.lower_char c = "o"%char -> c = "o"%char \/ c = "O"%char.
Proof. by_cases_on_char c. Qed.

Lemma lower_char_n (c : ascii) :
  Str.lower_char c = "n"%char -> c = "n"%char \/ c = "N"%char.
Proof. by_cases_on_char c. Qed.

Lemma lower_char_e (c : ascii) :
  Str.lower_char c = "e"%char -> c = "e"%char \/ c = "E"%char.
Proof. by_cases_on_char c. Qed.

(** ** Values *)

Lemma value_eqb_eq (a b : value) : value_eqb a b = true <-> a = b.
Proof.
  unfold value_eqb. destruct (value_eq_dec a b); split; congruence.
Qed.

Lemma value_eqb_neq (a b : value) : value_eqb a b = false <-> a <> b.
Proof.
  unfold value_eqb. destruct (value_eq_dec a b); split; congruence.
Qed.

Lemma value_eqb_refl (a : value) : value_eqb a a = true.
Proof. now apply value_eqb_eq. Qed.

Lemma truthy_VStr (v : value) :
  truthy v = true -> exists s, v = VStr s /\ s <> EmptyString.
Proof.
  destruct v as [| |s]; simpl; try discriminate.
  intros H. exists s. split; [reflexivity|].
  intros ->. discriminate.
Qed.

Lemma js_or_truthy (a b : value) : truthy a = true -> a ||| b = a.
Proof. unfold js_or. now intros ->. Qed.

Lemma js_or_falsy (a b : value) : truthy a = false -> a ||| b = b.
Proof. unfold js_or. now intros ->. Qed.

Lemma js_or_undefined (b : value) : VUndefined ||| b = b.
Proof. reflexivity. Qed.

Lemma js_or_not_null (a b : value) : b <> VNull -> a ||| b <> VNull.
Proof.
  unfold js_or. destruct a as [| |s]; simpl; auto.
  destruct (negb (s =? EmptyString)); auto; discriminate.
Qed.

Lemma ToString_inj_truthy (a b : value) :
  truthy a = true -> truthy b = true -> ToString a = ToString b -> a = b.
Proof.
  intros Ha Hb. apply truthy_VStr in Ha as (s & -> & _).
  apply truthy_VStr in Hb as (t & -> & _). simpl. congruence.
Qed.

(** ** The job map *)

Section JSMapFacts.
Variable V : Type.
Implicit Types (m : JSMap.t V) (k : value) (v : V).

Lemma get_set_same m k v : JSMap.get k (JSMap.set k v m) = Some v.
Proof.
  induction m as [|[k' v'] r IH]; simpl.
  - now rewrite value_eqb_refl.
  - destruct (value_eqb k' k) eqn:E; simpl.
    + now rewrite value_eqb_refl.
    + now rewrite E.
Qed.

Lemma get_set_other m k k' v :
  k' <> k -> JSMap.get k' (JSMap.set k v m) = JSMap.get k' m.
Proof.
  intros Hne. induction m as [|[k0 v0] r IH]; simpl.
  - destruct (value_eqb k k') eqn:E; [|reflexivity].
    apply value_eqb_eq in E. congruence.
  - destruct (value_eqb k0 k) eqn:E; simpl.
    + apply value_eqb_eq in E. subst k0.
      destruct (value_eqb k k') eqn:E'; [|reflexivity].
      apply value_eqb_eq in E'. congruence.
    + now rewrite IH.
Qed.

Lemma keys_set_in m k v :
  In k (JSMap.keys m) -> JSMap.keys (JSMap.set k v m) = JSMap.keys m.
Proof.
  induction m as [|[k' v'] r IH]; simpl; [tauto|].
  intros H. destruct (value_eqb k' k) eqn:E; simpl.
  - apply value_eqb_eq in E. now subst.
  - f_equal. apply IH. destruct H as [H|H]; [|exact H].
    apply value_eqb_neq in E. congruence.
Qed.

Lemma keys_set_notin m k v :
  ~ In k (JSMap.keys m) ->
  JSMap.keys (JSMap.set k v m) = (JSMap.keys m ++ [k])%list.
Proof.
  induction m as [|[k' v'] r IH]; simpl; [reflexivity|].
  intros H. destruct (value_eqb k' k) eqn:E; simpl.
  - apply value_eqb_eq in E. tauto.
  - f_equal. apply IH. tauto.
Qed.

Lemma in_keys_set m k k' v :
  In k' (JSMap.keys (JSMap.set k v m)) <-> k' = k \/ In k' (JSMap.keys m).
Proof.
  destruct (in_dec value_eq_dec k (JSMap.keys m)) as [Hin|Hnin].
  - rewrite keys_set_in by exact Hin. split; [tauto|].
    intros [->|H]; assumption.
  - rewrite keys_set_notin by exact Hnin. rewrite in_app_iff. simpl.
    split; intros H; intuition congruence.
Qed.

Lemma nodup_keys_set m k v :
  NoDup (JSMap.keys m) -> NoDup (JSMap.keys (JSMap.set k v m)).
Proof.
  intros Hnd.
  destruct (in_dec value_eq_dec k (JSMap.keys m)) as [Hin|Hnin].
  - now rewrite keys_set_in.
  - rewrite keys_set_notin by exact Hnin.
    apply NoDup_app; [exact Hnd | repeat constructor; simpl; tauto |].
    intros x Hx [<-|[]]. contradiction.
Qed.

Lemma in_set m k v kv :
  In kv (JSMap.set k v m) -> kv = (k, v) \/ In kv m.
Proof.
  induction m as [|[k' v'] r IH]; simpl.
  - intros [<-|[]]. now left.
  - destruct (value_eqb k' k); simpl; intros [<-|H]; auto.
    destruct (IH H); auto.
Qed.

Lemma get_in_keys m k v : JSMap.get k m = Some v -> In k (JSMap.keys m).
Proof.
  induction m as [|[k' v'] r IH]; simpl; [discriminate|].
  destruct (value_eqb k' k) eqn:E.
  - apply value_eqb_eq in E. now left.
  - intros H. right. now apply IH.
Qed.

Lemma get_of_in m k v :
  NoDup (JSMap.keys m) -> In (k, v) m -> JSMap.get k m = Some v.
Proof.
  induction m as [|[k' v'] r IH]; simpl; [tauto|].
  intros Hnd [H|H].
  - inversion H; subst. now rewrite value_eqb_refl.
  - inversion Hnd as [|? ? Hnin Hnd']; subst.
    destruct (value_eqb k' k) eqn:E.
    + apply value_eqb_eq in E. subst k'.
      exfalso. apply Hnin. apply (in_map fst) in H. exact H.
    + now apply IH.
Qed.

Lemma in_of_get m k v : JSMap.get k m = Some v -> In (k, v) m.
Proof.
  induction m as [|[k' v'] r IH]; simpl; [discriminate|].
  destruct (value_eqb k' k) eqn:E.
  - apply value_eqb_eq in E. intros [= ->]. left. now subst.
  - intros H. right. now apply IH.
Qed.

Lemma size_set_in m k v :
  In k (JSMap.keys m) -> JSMap.size (JSMap.set k v m) = JSMap.size m.
Proof.
  intros H. unfold JSMap.size.
  rewrite <- !(length_map fst). fold (JSMap.keys (JSMap.set k v m)).
  fold (JSMap.keys m). now rewrite keys_set_in.
Qed.

Lemma set_not_empty m k v : JSMap.set k v m <> [].
Proof.
  destruct m as [|[k' v'] r]; simpl; [discriminate|].
  destruct (value_eqb k' k); discriminate.
Qed.

End JSMapFacts.

(** ** The job table *)

Lemma set_job_name_keeps c : keeps_attr (set_job_name c).
Proof. intros x. reflexivity. Qed.
Lemma set_job_status_keeps c : keeps_attr (set_job_status c).
Proof. intros x. reflexivity. Qed.
Lemma set_job_download_keeps c : keeps_attr (set_job_download c).
Proof. intros x. reflexivity. Qed.

Lemma written_keeps (e : Browser) (job : Job.t) :
  keeps_attr (fun x => snd (written e job x)).
Proof.
  intros x. unfold written.
  destruct (job_name x); [|reflexivity].
  destruct (renderStatusBadge e (Job.status job)); [|reflexivity].
  destruct (job_status x); [|reflexivity].
  destruct (job_download x); reflexivity.
Qed.

Create HintDb rows.
#[local] Hint Resolve set_job_name_keeps set_job_status_keeps
  set_job_download_keeps written_keeps : rows.

Lemma query_attr (a : string) (trs : list Tr) (x : Row) :
  querySelector_row a trs = Some x -> data_job_id x = a.
Proof.
  induction trs as [|[|y] r IH]; simpl; try discriminate; auto.
  destruct (data_job_id y =? a) eqn:E; auto.
  apply String.eqb_eq in E. now intros [= <-].
Qed.

Lemma query_remove_empty (a : string) (trs : list Tr) :
  querySelector_row a (remove_empty_row trs) = querySelector_row a trs.
Proof.
  induction trs as [|[|x] r IH]; simpl; try reflexivity.
  now rewrite IH.
Qed.

Lemma query_update_same (a : string) (f : Row -> Row) (trs : list Tr) :
  keeps_attr f ->
  querySelector_row a (update_row a f trs) = option_map f (querySelector_row a trs).
Proof.
  intros Hf. induction trs as [|[|x] r IH]; simpl; try assumption; try reflexivity.
  destruct (data_job_id x =? a) eqn:E; simpl.
  - now rewrite Hf, E.
  - now rewrite E.
Qed.

Lemma query_update_other (a b : string) (f : Row -> Row) (trs : list Tr) :
  keeps_attr f -> a <> b ->
  querySelector_row a (update_row b f trs) = querySelector_row a trs.
Proof.
  intros Hf Hne. induction trs as [|[|x] r IH]; simpl; try assumption; try reflexivity.
  destruct (data_job_id x =? b) eqn:E; simpl.
  - rewrite Hf. apply String.eqb_eq in E. rewrite E.
    destruct (b =? a) eqn:E'; [|reflexivity].
    apply String.eqb_eq in E'. congruence.
  - now rewrite IH.
Qed.

Lemma update_row_compose (a : string) (f g : Row -> Row) (trs : list Tr) :
  keeps_attr g ->
  update_row a f (update_row a g trs) = update_row a (fun x => f (g x)) trs.
Proof.
  intros Hg. induction trs as [|[|x] r IH]; simpl; try reflexivity.
  - now rewrite IH.
  - destruct (data_job_id x =? a) eqn:E; simpl.
    + now rewrite Hg, E.
    + now rewrite E, IH.
Qed.

Lemma update_row_ext (a : string) (f g : Row -> Row) (trs : list Tr) :
  (forall x, f x = g x) -> update_row a f trs = update_row a g trs.
Proof.
  intros H. induction trs as [|[|x] r IH]; simpl; try reflexivity.
  - now rewrite IH.
  - destruct (data_job_id x =? a); [now rewrite H | now rewrite IH].
Qed.

(** A write to the row under [a] is a write to the row a lookup finds. *)
Lemma update_row_at (a : string) (f g : Row -> Row) (trs : list Tr) :
  (forall x, querySelector_row a trs = Some x -> f x = g x) ->
  update_row a f trs = update_row a g trs.
Proof.
  induction trs as [|[|x] r IH]; simpl; intros H; try reflexivity.
  - now rewrite IH.
  - destruct (data_job_id x =? a); [now rewrite H | now rewrite IH].
Qed.

Lemma update_row_same (a : string) (f : Row -> Row) (trs : list Tr) :
  (forall x, querySelector_row a trs = Some x -> f x = x) ->
  update_row a f trs = trs.
Proof.
  induction trs as [|[|x] r IH]; simpl; intros H; try reflexivity.
  - now rewrite IH.
  - destruct (data_job_id x =? a); [now rewrite H | now rewrite IH].
Qed.

Lemma update_row_none (a : string) (f : Row -> Row) (trs : list Tr) :
  querySelector_row a trs = None -> update_row a f trs = trs.
Proof.
  intros H. apply update_row_same. intros x Hx. congruence.
Qed.

Lemma remove_update_comm (a : string) (f : Row -> Row) (trs : list Tr) :
  remove_empty_row (update_row a f trs) = update_row a f (remove_empty_row trs).
Proof.
  induction trs as [|[|x] r IH]; simpl; try reflexivity.
  destruct (data_job_id x =? a) eqn:E; simpl; [reflexivity|].
  now rewrite IH.
Qed.

Lemma query_upserted (job : Job.t) (trs : list Tr) :
  querySelector_row (ToString (Job.id job)) (upserted job trs)
  = Some (row_before job trs).
Proof.
  unfold upserted, row_before.
  destruct (querySelector_row (ToString (Job.id job)) trs) as [x|] eqn:Hq.
  - now rewrite query_remove_empty.
  - simpl. now rewrite String.eqb_refl.
Qed.

Lemma query_upserted_other (job : Job.t) (a : string) (trs : list Tr) :
  a <> ToString (Job.id job) ->
  querySelector_row a (upserted job trs) = querySelector_row a trs.
Proof.
  intros Hne. unfold upserted.
  destruct (querySelector_row (ToString (Job.id job)) trs);
    [apply query_remove_empty|].
  simpl. destruct (ToString (Job.id job) =? a) eqn:E.
  - apply String.eqb_eq in E. congruence.
  - apply query_remove_empty.
Qed.

Ltac run :=
  unfold handleUpload, handleUpload_resume, handleUpload_begin, upload_try,
    upload_catch, upload_finally, pollAllJobs, pollAllJobs_begin, pollAllJobs_end,
    pollJob, startPolling, setInterval, set_indicator, console_error,
    set_submit_disabled, form_reset, await_fetch, await_json, prop,
    exec, outcome, try_finally, try_catch, when, bind, ret, read, modify, throw, lift;
  cbn.

Lemma with_jobsBody_ext (f g : list Tr -> list Tr) (w : World) :
  f (jobsBody w) = g (jobsBody w) -> with_jobsBody f w = with_jobsBody g w.
Proof. unfold with_jobsBody. now intros ->. Qed.

Lemma with_jobsBody_same (f : list Tr -> list Tr) (w : World) :
  f (jobsBody w) = jobsBody w -> with_jobsBody f w = w.
Proof. unfold with_jobsBody. intros ->. now destruct w. Qed.

(** A write of one cell, on a table whose row under [a] is [y]. *)
Lemma write_cell_run (a : string) (cell : Row -> option Content) (put : Row -> Row)
  (property : string) (y : Row) (w : World) :
  querySelector_row a (jobsBody w) = Some y ->
  write_cell a cell put property w
  = if is_some (cell y)
    then (Ok tt, with_jobsBody (update_row a (fun _ => put y)) w)
    else (Throw (null_write property), w).
Proof.
  intros Hq. unfold write_cell, bind, read. rewrite Hq.
  destruct (cell y); [|reflexivity].
  unfold modify. simpl. f_equal.
  apply with_jobsBody_ext, update_row_at. intros x Hx. congruence.
Qed.

Lemma query_put (a : string) (y z : Row) (trs : list Tr) :
  querySelector_row a trs = Some y -> data_job_id z = a ->
  querySelector_row a (update_row a (fun _ => z) trs) = Some z.
Proof.
  intros Hq Hz. induction trs as [|[|x] r IH]; simpl in *; try discriminate; auto.
  destruct (data_job_id x =? a) eqn:E; simpl.
  - rewrite Hz, String.eqb_refl. reflexivity.
  - rewrite E. auto.
Qed.

Lemma put_put (a : string) (y : Row) (f : Row -> Row) (trs : list Tr) :
  data_job_id y = a ->
  update_row a f (update_row a (fun _ => y) trs) = update_row a (fun _ => f y) trs.
Proof.
  intros Hy. induction trs as [|[|x] r IH]; simpl; try reflexivity.
  - now rewrite IH.
  - destruct (data_job_id x =? a) eqn:E; simpl.
    + now rewrite Hy, String.eqb_refl.
    + now rewrite E, IH.
Qed.

Lemma upsert_row_run (job : Job.t) (w : World) :
  upsert_row job w = (Ok tt, with_jobsBody (upserted job) w).
Proof.
  unfold upsert_row, upserted, bind, read, modify, when, ret.
  destruct w as [e js p ts cs uf us trs ind]. unfold with_jobsBody. simpl.
  destruct (querySelector_row (ToString (Job.id job)) trs); reflexivity.
Qed.

Lemma write_cells_run (e : Browser) (job : Job.t) (y : Row) (w : World) :
  querySelector_row (ToString (Job.id job)) (jobsBody w) = Some y ->
  write_cells e job w
  = (fst (written e job y),
     with_jobsBody (update_row (ToString (Job.id job)) (fun _ => snd (written e job y))) w).
Proof.
  intros Hq. set (a := ToString (Job.id job)) in *.
  pose proof (query_attr _ _ Hq) as Ha.
  assert (Hsame : with_jobsBody (update_row a (fun _ => y)) w = w).
  { apply with_jobsBody_same, update_row_same. intros x Hx. congruence. }
  unfold write_cells, written. fold a. unfold bind at 1.
  rewrite (@write_cell_run a job_name _ "textContent" y w Hq).
  destruct (job_name y) as [n|]; cbn [is_some fst snd]; [|now rewrite Hsame].
  set (y1 := set_job_name _ y).
  assert (Ha1 : data_job_id y1 = a) by exact Ha.
  assert (Hq1 : querySelector_row a
                  (jobsBody (with_jobsBody (update_row a (fun _ => y1)) w)) = Some y1).
  { cbn [jobsBody with_jobsBody]. exact (@query_put a y y1 _ Hq Ha1). }
  unfold bind at 1, lift at 1.
  destruct (renderStatusBadge e (Job.status job)) as [badge|err]; cbn [fst snd];
    [|reflexivity].
  unfold bind at 1.
  rewrite (@write_cell_run a job_status _ "innerHTML" y1 _ Hq1).
  change (job_status y1) with (job_status y).
  destruct (job_status y) as [st|]; cbn [is_some fst snd]; [|reflexivity].
  set (y2 := set_job_status _ y1).
  assert (Ha2 : data_job_id y2 = a) by exact Ha.
  assert (Hw2 : with_jobsBody (update_row a (fun _ => y2))
                  (with_jobsBody (update_row a (fun _ => y1)) w)
                = with_jobsBody (update_row a (fun _ => y2)) w).
  { unfold with_jobsBody. cbn. f_equal.
    exact (@put_put a y1 (fun _ => y2) _ Ha1). }
  rewrite Hw2.
  assert (Hq2 : querySelector_row a
                  (jobsBody (with_jobsBody (update_row a (fun _ => y2)) w)) = Some y2).
  { cbn [jobsBody with_jobsBody]. exact (@query_put a y y2 _ Hq Ha2). }
  rewrite (@write_cell_run a job_download _ "innerHTML" y2 _ Hq2).
  change (job_download y2) with (job_download y).
  destruct (job_download y) as [dl|]; cbn [is_some fst snd]; [|reflexivity].
  f_equal. unfold with_jobsBody. cbn. f_equal.
  exact (@put_put a y2 (fun _ => set_job_download _ y2) _ Ha2).
Qed.

Lemma renderJob_run (job : Job.t) (w : World) :
  renderJob job w
  = (render_outcome (browser w) job (jobsBody w),
     with_jobsBody (rendered (browser w) job) w).
Proof.
  unfold renderJob, render_outcome, rendered, render.
  unfold bind at 1, read at 1. unfold bind at 1, read at 1.
  cbn [browser jobsBody].
  destruct (plain (browser w) job && tidy (jobsBody w)) eqn:Hplain.
  - unfold bind. rewrite upsert_row_run.
    pose proof (query_upserted job (jobsBody w)) as Hq.
    rewrite (@write_cells_run (browser w) job (row_before job (jobsBody w))
               (with_jobsBody (upserted job) w) Hq).
    cbn [fst snd]. f_equal. unfold with_jobsBody. cbn. f_equal.
    rewrite Hplain. cbn [snd].
    apply update_row_at. intros x Hx. congruence.
  - unfold bind, read, modify, lift. cbn [fst snd]. f_equal.
    unfold with_jobsBody. cbn. now rewrite Hplain.
Qed.

(** ** renderJob on a plain job *)

Lemma renderStatusBadge_ok (e : Browser) (status : value) :
  status <> VNull -> exists badge, renderStatusBadge e status = Ok badge.
Proof.
  destruct status as [| |s]; [ | congruence | ]; intros _; eexists; reflexivity.
Qed.

Lemma rendered_plain (e : Browser) (job : Job.t) (trs : list Tr) :
  plain e job = true -> tidy trs = true ->
  rendered e job trs
  = update_row (ToString (Job.id job)) (fun x => snd (written e job x)) (upserted job trs)
  /\ render_outcome e job trs = fst (written e job (row_before job trs)).
Proof. unfold rendered, render_outcome, render. now intros -> ->. Qed.

(** ** Markup that stays out of the selectors' way *)

Lemma after_prefix_app (p r : string) : after_prefix p (p ++ r) = Some r.
Proof.
  induction p as [|c p IH]; simpl; [reflexivity|].
  now rewrite Ascii.eqb_refl.
Qed.

Lemma until_app (stop : ascii) (a b : string) :
  Str.all_chars (fun c => negb (Ascii.eqb c stop)) a = true ->
  until stop (a ++ String stop b) = Some (a, b).
Proof.
  induction a as [|c a IH]; simpl.
  - now rewrite Ascii.eqb_refl.
  - intros H. apply andb_true_iff in H as [Hc Ha].
    apply negb_true_iff in Hc. now rewrite Hc, (IH Ha).
Qed.

Lemma markup_plain_facts (s : string) :
  markup_plain s = true ->
  Str.all_chars (fun c => negb (Ascii.eqb c "034")) s = true
  /\ Str.all_chars (fun c => negb (Ascii.eqb c "<")) s = true
  /\ verbatim s = true.
Proof.
  unfold markup_plain, verbatim. intros H.
  split; [|split]; revert H; apply all_chars_impl; intros c;
    destruct c as [[] [] [] [] [] [] [] []]; cbv; congruence.
Qed.

Lemma read_badge_template (cls txt : string) :
  markup_plain cls = true -> markup_plain txt = true ->
  read_badge ("<span class=" ++ Str.dquote ++ cls ++ Str.dquote ++ ">" ++ txt ++ "</span>")
  = Some (mkBadge cls txt).
Proof.
  intros Hc Ht.
  destruct (markup_plain_facts _ Hc) as (Hc1 & _ & Hc3).
  destruct (markup_plain_facts _ Ht) as (_ & Ht2 & Ht3).
  unfold read_badge.
  change ("<span class=" ++ Str.dquote ++ cls ++ Str.dquote ++ ">" ++ txt ++ "</span>")
    with (("<span class=" ++ Str.dquote)
            ++ (cls ++ String "034" (">" ++ (txt ++ String "<" "/span>")))).
  rewrite after_prefix_app, (@until_app "034" cls _ Hc1).
  rewrite (after_prefix_app ">"), (@until_app "<" txt _ Ht2).
  now rewrite Hc3, Ht3.
Qed.

Lemma encode_char_safe (c : ascii) :
  Str.all_chars url_safe
    (if Str.uri_unreserved c then String c EmptyString else Str.percent_encode c)
  = true.
Proof. destruct c as [[] [] [] [] [] [] [] []]; reflexivity. Qed.

Lemma encodeURIComponent_safe (s : string) :
  Str.all_chars url_safe (Str.encodeURIComponent s) = true.
Proof.
  induction s as [|c r IH]; simpl; [reflexivity|].
  now rewrite all_chars_app, encode_char_safe, IH.
Qed.

Lemma url_safe_not_quote (c : ascii) : url_safe c = true -> Ascii.eqb c "034" = false.
Proof. destruct c as [[] [] [] [] [] [] [] []]; cbv; congruence. Qed.

Lemma class_free_badge (s : string) : class_free ("badge " ++ s) = class_free s.
Proof. reflexivity. Qed.

(** The badge of a plain status is inert. *)
Lemma inert_badge (e : Browser) (status : value) (badge : string) :
  plain_status e status = true -> renderStatusBadge e status = Ok badge ->
  inert_markup badge = true.
Proof.
  intros Hp Hb. unfold inert_markup, is_span.
  destruct status as [| |s]; [ | discriminate Hb | ].
  - injection Hb as <-. reflexivity.
  - assert (Hm : badge = "<span class=" ++ Str.dquote ++ ("badge " ++ toLowerCase e s)
                           ++ Str.dquote ++ ">" ++ s ++ "</span>")
      by (injection Hb as <-; reflexivity).
    cbn [plain_status] in Hp.
    apply andb_true_iff in Hp as [Hp Hc]. apply andb_true_iff in Hp as [Hs Hl].
    assert (Hl' : markup_plain ("badge " ++ toLowerCase e s) = true) by exact Hl.
    rewrite Hm, (@read_badge_template _ _ Hl' Hs). cbn [badge_class].
    rewrite class_free_badge, Hc. now rewrite !orb_true_r.
Qed.

(** So is the download cell, whatever the job. *)
Lemma inert_link (e : Browser) (job : Job.t) :
  inert_markup (renderDownloadLink e job) = true.
Proof.
  unfold renderDownloadLink.
  destruct (is_done e (Job.status job)); [|reflexivity].
  unfold inert_markup, is_link, download_link.
  change ("<a href=" ++ Str.dquote ++ "/api/download/"
            ++ Str.encodeURIComponent (ToString (Job.id job)) ++ Str.dquote
            ++ " download>Download</a>")
    with (("<a href=" ++ Str.dquote)
            ++ (("/api/download/" ++ Str.encodeURIComponent (ToString (Job.id job)))
                  ++ String "034" " download>Download</a>")).
  rewrite after_prefix_app, until_app.
  - rewrite String.eqb_refl, orb_true_r. reflexivity.
  - change (Str.all_chars (fun c => negb (Ascii.eqb c "034"))
              (Str.encodeURIComponent (ToString (Job.id job))) = true).
    generalize (encodeURIComponent_safe (ToString (Job.id job))).
    apply all_chars_impl. intros c Hc. now rewrite (url_safe_not_quote _ Hc).
Qed.

Lemma markup_plain_tagless (s : string) : markup_plain s = true -> tagless s = true.
Proof. intros H. exact (proj1 (proj2 (markup_plain_facts _ H))). Qed.

Lemma tidy_row_written (e : Browser) (job : Job.t) (x : Row) :
  plain e job = true -> tidy_row x = true -> tidy_row (snd (written e job x)) = true.
Proof.
  intros Hp Hx. unfold plain in Hp. apply andb_true_iff in Hp as [_ Hst].
  unfold tidy_row in Hx.
  apply andb_true_iff in Hx as [Hx Hd]. apply andb_true_iff in Hx as [Hx Hs].
  apply andb_true_iff in Hx as [Hi Hn].
  unfold written.
  destruct (job_name x) as [n|] eqn:En; cbn [snd];
    [|unfold tidy_row; now rewrite Hi, En, Hs, Hd].
  destruct (renderStatusBadge e (Job.status job)) as [badge|err] eqn:Eb; cbn [snd];
    [|unfold tidy_row; cbn; now rewrite Hi, Hs, Hd].
  pose proof (@inert_badge e _ _ Hst Eb) as Hb.
  destruct (job_status x) as [st|] eqn:Es; cbn [snd];
    [|unfold tidy_row; cbn; now rewrite Hi, Es, Hd].
  destruct (job_download x) as [dl|] eqn:Ed; cbn [snd];
    unfold tidy_row; cbn [job_id_cell job_name job_status job_download set_job_name
                          set_job_status set_job_download inert].
  - now rewrite Hi, Hb, inert_link.
  - now rewrite Hi, Hb, Ed.
Qed.

Lemma tidy_update_row (a : string) (f : Row -> Row) (trs : list Tr) :
  (forall x, tidy_row x = true -> tidy_row (f x) = true) ->
  tidy trs = true -> tidy (update_row a f trs) = true.
Proof.
  intros Hf. unfold tidy.
  induction trs as [|[|x] r IH]; simpl; try assumption; try reflexivity.
  intros H. apply andb_true_iff in H as [Hx Hr].
  destruct (data_job_id x =? a); simpl.
  - now rewrite (Hf _ Hx), Hr.
  - now rewrite Hx, (IH Hr).
Qed.

Lemma tidy_remove_empty (trs : list Tr) : tidy (remove_empty_row trs) = tidy trs.
Proof.
  unfold tidy. induction trs as [|[|x] r IH]; simpl; try reflexivity. now rewrite IH.
Qed.

Lemma tidy_new_row (e : Browser) (job : Job.t) :
  plain e job = true -> tidy_row (new_row job) = true.
Proof.
  unfold plain. intros Hp. apply andb_true_iff in Hp as [Hp _].
  apply andb_true_iff in Hp as [_ Hm].
  unfold tidy_row, new_row.
  cbn [job_id_cell job_name job_status job_download inert].
  unfold inert_markup at 1. now rewrite (markup_plain_tagless _ Hm).
Qed.

(** A render of a plain job keeps a tidy table tidy, however it ends. *)
Lemma tidy_rendered (e : Browser) (job : Job.t) (trs : list Tr) :
  plain e job = true -> tidy trs = true -> tidy (rendered e job trs) = true.
Proof.
  intros Hp Htd. rewrite (proj1 (@rendered_plain e job trs Hp Htd)).
  apply tidy_update_row; [intros x; now apply tidy_row_written|].
  unfold upserted.
  destruct (querySelector_row (ToString (Job.id job)) trs).
  - now rewrite tidy_remove_empty.
  - unfold tidy. cbn [job_rows forallb].
    rewrite (@tidy_new_row e job Hp).
    fold (tidy (remove_empty_row trs)). now rewrite tidy_remove_empty.
Qed.

Lemma rendered_row_exact (e : Browser) (job : Job.t) (trs : list Tr) :
  plain e job = true -> tidy trs = true ->
  querySelector_row (ToString (Job.id job)) (rendered e job trs)
  = Some (snd (written e job (row_before job trs))).
Proof.
  intros Hp Htd. rewrite (proj1 (@rendered_plain e job trs Hp Htd)).
  rewrite query_update_same by apply written_keeps.
  now rewrite query_upserted.
Qed.

Lemma rendered_other_row (e : Browser) (job : Job.t) (a : string) (trs : list Tr) :
  plain e job = true -> tidy trs = true -> a <> ToString (Job.id job) ->
  querySelector_row a (rendered e job trs) = querySelector_row a trs.
Proof.
  intros Hp Htd Hne. rewrite (proj1 (@rendered_plain e job trs Hp Htd)).
  rewrite query_update_other by (auto; apply written_keeps).
  now apply query_upserted_other.
Qed.

(** The three writes succeed on a row that has its cells, for a status that
    is not [null]. *)
Lemma written_ok (e : Browser) (job : Job.t) (badge : string) (x : Row) :
  has_cells x = true -> renderStatusBadge e (Job.status job) = Ok badge ->
  written e job x
  = (Ok tt,
     mkRow (data_job_id x) (job_id_cell x)
       (Some (Text (ToString (Job.filename job ||| VStr dash))))
       (Some (Html badge)) (Some (Html (renderDownloadLink e job)))).
Proof.
  unfold has_cells, written. intros Hc ->.
  destruct (job_name x); [|discriminate Hc].
  destruct (job_status x); [|discriminate Hc].
  destruct (job_download x); [|discriminate Hc].
  reflexivity.
Qed.

Lemma new_row_has_cells (job : Job.t) : has_cells (new_row job) = true.
Proof. reflexivity. Qed.

Lemma row_before_has_cells (job : Job.t) (trs : list Tr) :
  row_ready (ToString (Job.id job)) trs = true -> has_cells (row_before job trs) = true.
Proof.
  unfold row_ready, row_before.
  now destruct (querySelector_row (ToString (Job.id job)) trs).
Qed.

Lemma rendered_row (e : Browser) (job : Job.t) (badge : string) (trs : list Tr) :
  plain e job = true -> tidy trs = true -> row_ready (ToString (Job.id job)) trs = true ->
  renderStatusBadge e (Job.status job) = Ok badge ->
  render_outcome e job trs = Ok tt
  /\ exists row,
       querySelector_row (ToString (Job.id job)) (rendered e job trs) = Some row
       /\ data_job_id row = ToString (Job.id job)
       /\ job_name row = Some (Text (ToString (Job.filename job ||| VStr dash)))
       /\ job_status row = Some (Html badge)
       /\ job_download row = Some (Html (renderDownloadLink e job)).
Proof.
  intros Hp Htd Hr Hb.
  pose proof (@row_before_has_cells job trs Hr) as Hc.
  pose proof (@written_ok e job badge _ Hc Hb) as Hw.
  split.
  - rewrite (proj2 (@rendered_plain e job trs Hp Htd)). now rewrite Hw.
  - rewrite (@rendered_row_exact e job trs Hp Htd), Hw. cbn [snd].
    eexists. split; [reflexivity|]. cbn.
    split; [|repeat split].
    exact (query_attr _ _ (query_upserted job trs)).
Qed.

Lemma attrs_remove_empty (trs : list Tr) : attrs (remove_empty_row trs) = attrs trs.
Proof.
  unfold attrs. induction trs as [|[|x] r IH]; simpl; try reflexivity.
  simpl in IH. now rewrite IH.
Qed.

Lemma attrs_update_row (a : string) (f : Row -> Row) (trs : list Tr) :
  keeps_attr f -> attrs (update_row a f trs) = attrs trs.
Proof.
  intros Hf. unfold attrs.
  induction trs as [|[|x] r IH]; simpl; try assumption; try reflexivity.
  destruct (data_job_id x =? a); simpl; [now rewrite Hf | now rewrite IH].
Qed.

Lemma placeholders_update_row (a : string) (f : Row -> Row) (trs : list Tr) :
  placeholders (update_row a f trs) = placeholders trs.
Proof.
  induction trs as [|[|x] r IH]; simpl; try reflexivity.
  - now rewrite IH.
  - destruct (data_job_id x =? a); simpl; [reflexivity | exact IH].
Qed.

Lemma placeholders_remove_empty (trs : list Tr) :
  placeholders (remove_empty_row trs) = pred (placeholders trs).
Proof. induction trs as [|[|x] r IH]; simpl; auto. Qed.

Lemma query_none_iff (a : string) (trs : list Tr) :
  querySelector_row a trs = None <-> ~ In a (attrs trs).
Proof.
  unfold attrs. induction trs as [|[|x] r IH]; simpl.
  - tauto.
  - exact IH.
  - destruct (data_job_id x =? a) eqn:E.
    + apply String.eqb_eq in E. split; [discriminate | tauto].
    + apply String.eqb_neq in E. rewrite IH. tauto.
Qed.

Lemma attrs_rendered (e : Browser) (job : Job.t) (trs : list Tr) :
  plain e job = true -> tidy trs = true ->
  attrs (rendered e job trs)
  = match querySelector_row (ToString (Job.id job)) trs with
    | Some _ => attrs trs
    | None => ToString (Job.id job) :: attrs trs
    end.
Proof.
  intros Hp Htd. rewrite (proj1 (@rendered_plain e job trs Hp Htd)).
  rewrite attrs_update_row by apply written_keeps. unfold upserted.
  destruct (querySelector_row (ToString (Job.id job)) trs);
    [apply attrs_remove_empty|].
  change (attrs (JobRow (new_row job) :: remove_empty_row trs))
    with (ToString (Job.id job) :: attrs (remove_empty_row trs)).
  now rewrite attrs_remove_empty.
Qed.

Lemma placeholders_rendered (e : Browser) (job : Job.t) (trs : list Tr) :
  plain e job = true -> tidy trs = true ->
  placeholders (rendered e job trs) = pred (placeholders trs).
Proof.
  intros Hp Htd. rewrite (proj1 (@rendered_plain e job trs Hp Htd)).
  rewrite placeholders_update_row. unfold upserted.
  destruct (querySelector_row (ToString (Job.id job)) trs); simpl;
    apply placeholders_remove_empty.
Qed.

Lemma remove_empty_none (trs : list Tr) :
  placeholders trs = 0 -> remove_empty_row trs = trs.
Proof.
  induction trs as [|[|x] r IH]; simpl; try reflexivity; try discriminate.
  intros H. now rewrite IH.
Qed.

(** A second run of the three writes ends as the first and changes
    nothing more. *)
Lemma written_twice (e : Browser) (job : Job.t) (x : Row) :
  written e job (snd (written e job x)) = written e job x.
Proof.
  unfold written.
  destruct (job_name x) as [n|] eqn:Hn; cbn [snd]; [|now rewrite Hn].
  destruct (renderStatusBadge e (Job.status job)) as [badge|err]; cbn [snd];
    [|reflexivity].
  destruct (job_status x) as [st|] eqn:Hs; cbn [snd job_name job_status set_job_name];
    [|now rewrite Hs].
  destruct (job_download x) as [dl|] eqn:Hd;
    cbn [snd job_name job_status job_download set_job_name set_job_status
         set_job_download]; [reflexivity|].
  now rewrite Hd.
Qed.

Lemma rendered_twice (e : Browser) (job : Job.t) (trs : list Tr) :
  plain e job = true -> tidy trs = true ->
  rendered e job (rendered e job trs) = remove_empty_row (rendered e job trs)
  /\ render_outcome e job (rendered e job trs) = render_outcome e job trs.
Proof.
  intros Hp Htd. set (a := ToString (Job.id job)).
  pose proof (@rendered_row_exact e job trs Hp Htd) as Hq. fold a in Hq.
  set (t1 := rendered e job trs) in *.
  destruct (@rendered_plain e job t1 Hp (@tidy_rendered e job trs Hp Htd)) as [Ht Ho].
  rewrite Ht, Ho. fold a.
  unfold upserted, row_before. fold a. rewrite Hq.
  split.
  - apply update_row_same. intros x Hx. rewrite query_remove_empty in Hx.
    rewrite Hq in Hx. injection Hx as <-. now rewrite written_twice.
  - rewrite written_twice. now rewrite (proj2 (@rendered_plain e job trs Hp Htd)).
Qed.

Lemma has_cells_written (e : Browser) (job : Job.t) (x : Row) :
  has_cells (snd (written e job x)) = has_cells x.
Proof.
  unfold written, has_cells.
  destruct (job_name x) as [n|] eqn:Hn; cbn [snd]; [|now rewrite Hn].
  destruct (renderStatusBadge e (Job.status job)) as [badge|err]; cbn [snd];
    [|cbn; now destruct (job_status x), (job_download x)].
  destruct (job_status x) as [st|] eqn:Hs; cbn [snd];
    [|cbn; rewrite Hs; now destruct (job_download x)].
  destruct (job_download x) as [dl|] eqn:Hd; cbn [snd]; cbn; [reflexivity|].
  now rewrite Hd.
Qed.

Lemma job_rows_remove_empty (trs : list Tr) :
  job_rows (remove_empty_row trs) = job_rows trs.
Proof.
  induction trs as [|[|x] r IH]; simpl; try reflexivity. now rewrite IH.
Qed.

Lemma complete_update_row (a : string) (f : Row -> Row) (trs : list Tr) :
  (forall x, has_cells (f x) = has_cells x) ->
  complete (update_row a f trs) = complete trs.
Proof.
  intros Hf. unfold complete.
  induction trs as [|[|x] r IH]; simpl; try assumption; try reflexivity.
  destruct (data_job_id x =? a); simpl; [now rewrite Hf | now rewrite IH].
Qed.

(** A render of a plain job keeps a table whose rows have their cells
    such a table. *)
Lemma complete_rendered (e : Browser) (job : Job.t) (trs : list Tr) :
  plain e job = true -> tidy trs = true -> complete trs = true -> complete (rendered e job trs) = true.
Proof.
  intros Hp Htd Hc. rewrite (proj1 (@rendered_plain e job trs Hp Htd)).
  rewrite complete_update_row by apply has_cells_written.
  unfold upserted, complete in *.
  destruct (querySelector_row (ToString (Job.id job)) trs); simpl;
    now rewrite job_rows_remove_empty.
Qed.

Lemma complete_row_ready (a : string) (trs : list Tr) :
  complete trs = true -> row_ready a trs = true.
Proof.
  unfold complete, row_ready. intros Hc.
  destruct (querySelector_row a trs) as [x|] eqn:Hq; [|reflexivity].
  rewrite forallb_forall in Hc. apply Hc.
  clear Hc. induction trs as [|[|y] r IH]; simpl in *; try discriminate; auto.
  destruct (data_job_id y =? a); [injection Hq as ->; now left | right; auto].
Qed.

(** ** The pieces, run *)

Lemma startPolling_run (w : World) :
  startPolling w
  = (Ok tt,
     if negb (is_null (pollerId w)) || (JSMap.size (jobs w) =? 0)%nat
     then w else polling_started w).
Proof.
  run. destruct (negb (is_null (pollerId w)) || (JSMap.size (jobs w) =? 0)%nat);
    reflexivity.
Qed.

Lemma pollJob_run (job : Job.t) (o : FetchOutcome) (w : World) :
  pollJob job o w
  = (Ok tt,
     match poll_update job o with
     | Some u =>
         let w1 := with_jobsBody (rendered (browser w) u)
                     (with_jobs (JSMap.set (Job.id job) u) w) in
         match render_outcome (browser w) u (jobsBody w) with
         | Ok _ => w1
         | Throw e => with_console (fun l => (l ++ [(poll_label, e)])%list) w1
         end
     | None => with_console (fun l => (l ++ [(poll_label, poll_error o)])%list) w
     end).
Proof.
  unfold pollJob, try_catch, bind at 1.
  destruct o as [e|r]; [reflexivity|].
  unfold poll_update, poll_error. cbn [await_fetch ret].
  unfold bind at 1. unfold when. destruct (ok r) eqn:Hok; cbn [negb];
    [|reflexivity].
  unfold ret at 1. unfold bind at 1. unfold await_json.
  destruct (body r) as [e| |p]; try reflexivity.
  unfold ret at 1. unfold bind at 1, prop at 1, ret at 1.
  unfold bind at 1, prop at 1, ret at 1.
  unfold bind at 1, modify at 1. rewrite renderJob_run. fold (merged p job).
  cbn [browser jobsBody with_jobs].
  destruct (render_outcome (browser w) (merged p job) (jobsBody w)) as [[]|];
    reflexivity.
Qed.

Lemma pollJob_jobs (job : Job.t) (o : FetchOutcome) (w : World) :
  jobs (exec (pollJob job o) w)
  = match poll_update job o with
    | Some u => JSMap.set (Job.id job) u (jobs w)
    | None => jobs w
    end.
Proof.
  unfold exec. rewrite pollJob_run. simpl.
  destruct (poll_update job o) as [u|]; [|reflexivity].
  simpl. destruct (render_outcome (browser w) u (jobsBody w)); reflexivity.
Qed.

Lemma pollJob_jobsBody (job : Job.t) (o : FetchOutcome) (w : World) :
  jobsBody (exec (pollJob job o) w)
  = match poll_update job o with
    | Some u => rendered (browser w) u (jobsBody w)
    | None => jobsBody w
    end.
Proof.
  unfold exec. rewrite pollJob_run. simpl.
  destruct (poll_update job o) as [u|]; [|reflexivity].
  simpl. destruct (render_outcome (browser w) u (jobsBody w)); reflexivity.
Qed.

(** A callback leaves the timer, the form, the upload status text, the
    indicator and the browser alone. *)
Lemma pollJob_frame (job : Job.t) (o : FetchOutcome) (w : World) :
  let w' := exec (pollJob job o) w in
  pollerId w' = pollerId w /\ timers w' = timers w
  /\ uploadForm w' = uploadForm w /\ uploadStatusEl w' = uploadStatusEl w
  /\ pollingIndicator w' = pollingIndicator w.
Proof.
  unfold exec. rewrite pollJob_run. simpl.
  destruct (poll_update job o) as [u|]; [|repeat split].
  simpl. destruct (render_outcome (browser w) u (jobsBody w)); repeat split.
Qed.

Lemma pollJob_browser (job : Job.t) (o : FetchOutcome) (w : World) :
  browser (exec (pollJob job o) w) = browser w.
Proof.
  unfold exec. rewrite pollJob_run. simpl.
  destruct (poll_update job o) as [u|]; [|reflexivity].
  simpl. destruct (render_outcome (browser w) u (jobsBody w)); reflexivity.
Qed.

Lemma pollJob_outcome (job : Job.t) (o : FetchOutcome) (w : World) :
  outcome (pollJob job o) w = Ok tt.
Proof. unfold outcome. now rewrite pollJob_run. Qed.

Lemma poll_update_failed (job : Job.t) (o : FetchOutcome) :
  failed o = true -> poll_update job o = None.
Proof.
  destruct o as [e|r]; simpl; [reflexivity|].
  now destruct (ok r).
Qed.

Lemma poll_update_id (job u : Job.t) (o : FetchOutcome) :
  poll_update job o = Some u -> Job.id u = Job.id job.
Proof.
  destruct o as [e|r]; simpl; [discriminate|].
  destruct (ok r); [|discriminate].
  destruct (body r); try discriminate. now intros [= <-].
Qed.

Lemma poll_update_ok (job u : Job.t) (o : FetchOutcome) :
  job_ok job -> poll_update job o = Some u -> job_ok u.
Proof.
  intros [Hid Hst] H. pose proof (poll_update_id _ _ H) as Hu.
  split; [congruence|].
  destruct o as [e|r]; simpl in H; [discriminate|].
  destruct (ok r); [|discriminate].
  destruct (body r) as [| |p]; try discriminate.
  injection H as <-. simpl. now apply js_or_not_null.
Qed.

Lemma uploaded_status_string (p : Payload.t) (fd : FormData) :
  exists s, Job.status (uploaded p fd) = VStr s.
Proof.
  unfold uploaded, js_or; simpl.
  destruct (Payload.status p) as [| |s]; simpl; eauto.
  destruct (negb (s =? EmptyString)); eauto.
Qed.

Lemma upload_try_run (fd : FormData) (o : FetchOutcome) (w : World) :
  upload_try fd o w
  = match upload_error fd o with
    | Some e => (Throw e, w)
    | None =>
        match o with
        | Responded (mkResponse _ (BodyObject p)) =>
            let job := uploaded p fd in
            match render_outcome (browser w) job (jobsBody w) with
            | Ok _ =>
                (Ok tt,
                 exec form_reset
                   (with_uploadStatusEl "Upload successful! Job created."
                      (exec startPolling (upload_stored job w))))
            | Throw e => (Throw e, upload_stored job w)
            end
        | _ => (Ok tt, w)
        end
    end.
Proof.
  unfold upload_try, upload_error, bind at 1.
  destruct o as [e|[st b]]; [reflexivity|].
  cbn [await_fetch ret]. unfold bind at 1. unfold when.
  destruct (ok (mkResponse st b)) eqn:Hok; cbn [negb]; [|reflexivity].
  unfold ret at 1. unfold bind at 1. unfold await_json. cbn [body].
  destruct b as [e| |p]; try reflexivity.
  unfold ret at 1.
  do 4 (unfold bind at 1, prop at 1, ret at 1).
  fold (uploaded p fd).
  unfold bind at 1.
  destruct (truthy (Job.id (uploaded p fd))) eqn:Hid; cbn [negb]; [|reflexivity].
  unfold ret at 1, bind at 1, modify at 1, bind at 1.
  rewrite renderJob_run. cbn [browser jobsBody with_jobs]. cbv zeta.
  fold (upload_stored (uploaded p fd) w).
  destruct (render_outcome (browser w) (uploaded p fd) (jobsBody w)) as [[]|];
    [|reflexivity].
  unfold bind at 1. rewrite startPolling_run.
  unfold exec. rewrite startPolling_run. reflexivity.
Qed.

Lemma handleUpload_resume_run (fd : FormData) (o : FetchOutcome) (w : World) :
  handleUpload_resume fd o w
  = (Ok tt,
     match upload_error fd o with
     | Some e => upload_failed e w
     | None =>
         match o with
         | Responded (mkResponse _ (BodyObject p)) => upload_settled (uploaded p fd) w
         | _ => exec upload_finally w
         end
     end).
Proof.
  unfold handleUpload_resume, try_finally, try_catch.
  rewrite upload_try_run.
  destruct (upload_error fd o) as [e|]; [reflexivity|].
  destruct o as [e|[st [e| |p]]]; try reflexivity.
  unfold upload_settled. cbv zeta.
  destruct (render_outcome (browser w) (uploaded p fd) (jobsBody w)) as [[]|];
    reflexivity.
Qed.

(** ** Well-formed maps *)

Lemma store_ok_empty : store_ok JSMap.empty.
Proof. split; constructor. Qed.

Lemma store_ok_set (m : JSMap.t Job.t) (j : Job.t) :
  store_ok m -> job_ok j -> store_ok (JSMap.set (Job.id j) j m).
Proof.
  intros [Hnd Hk] Hj. split.
  - now apply nodup_keys_set.
  - apply Forall_forall. intros kv Hin.
    apply in_set in Hin as [->|Hin]; [now split|].
    exact (proj1 (Forall_forall _ _) Hk kv Hin).
Qed.

Lemma store_ok_get (m : JSMap.t Job.t) (k : value) (j : Job.t) :
  store_ok m -> JSMap.get k m = Some j -> Job.id j = k /\ job_ok j.
Proof.
  intros [_ Hk] Hg. apply in_of_get in Hg.
  exact (proj1 (Forall_forall _ _) Hk _ Hg).
Qed.

Lemma store_ok_keys_ids (m : JSMap.t Job.t) :
  store_ok m -> map Job.id (JSMap.values m) = JSMap.keys m.
Proof.
  intros [_ Hk]. unfold JSMap.values, JSMap.keys. rewrite map_map.
  apply map_ext_in. intros kv Hin.
  exact (proj1 (proj1 (Forall_forall _ _) Hk _ Hin)).
Qed.

Lemma store_ok_value (m : JSMap.t Job.t) (j : Job.t) :
  store_ok m -> In j (JSMap.values m) ->
  JSMap.get (Job.id j) m = Some j /\ job_ok j.
Proof.
  intros Hm Hin. apply in_map_iff in Hin as ([k j'] & <- & Hin). simpl.
  destruct Hm as [Hnd Hk].
  destruct (proj1 (Forall_forall _ _) Hk _ Hin) as [Hid Hj]. simpl in *.
  split; [|exact Hj]. rewrite Hid. now apply get_of_in.
Qed.

Lemma truthy_keys_attrs (l : list value) :
  Forall (fun k => truthy k = true) l -> NoDup l -> NoDup (map ToString l).
Proof.
  intros Ht Hnd. apply NoDup_map_NoDup_ForallPairs; [|exact Hnd].
  intros x y Hx Hy. rewrite Forall_forall in Ht.
  apply ToString_inj_truthy; auto.
Qed.

Lemma store_ok_truthy_keys (m : JSMap.t Job.t) :
  store_ok m -> Forall (fun k => truthy k = true) (JSMap.keys m).
Proof.
  intros [_ Hk]. apply Forall_forall. intros k Hin.
  apply in_map_iff in Hin as (kv & <- & Hin).
  destruct (proj1 (Forall_forall _ _) Hk _ Hin) as [Hid [Ht _]]. congruence.
Qed.

(** ** The timer *)

Lemma timer_ok_startPolling (w : World) :
  timer_ok w -> timer_ok (exec startPolling w).
Proof.
  unfold exec. rewrite startPolling_run. unfold timer_ok. simpl.
  destruct (pollerId w) as [h|] eqn:Hp; simpl; [now rewrite Hp|].
  destruct (JSMap.size (jobs w) =? 0)%nat; [now rewrite Hp|].
  intros Ht. simpl. now rewrite Ht.
Qed.

Lemma timer_ok_at_most_one (w : World) : timer_ok w -> length (timers w) <= 1.
Proof.
  unfold timer_ok. destruct (pollerId w); intros ->; simpl; lia.
Qed.


(** ** Seeding *)

Lemma trimmed_not_null (e : Browser) (t : option Content) : trimmed e t <> VNull.
Proof. destruct t; discriminate. Qed.

Lemma seedRow_run (r : Row) (w : World) :
  seedRow r w
  = (Ok tt,
     if truthy (VStr (data_job_id r))
     then with_jobs (JSMap.set (VStr (data_job_id r)) (seeded (browser w) r)) w
     else w).
Proof.
  unfold seedRow, seeded, when, bind, read.
  destruct (truthy (VStr (data_job_id r))); reflexivity.
Qed.

Lemma forM_seedRow (rows : list Row) (w : World) :
  outcome (forM rows seedRow) w = Ok tt
  /\ let w' := exec (forM rows seedRow) w in
     (store_ok (jobs w) -> store_ok (jobs w'))
     /\ pollerId w' = pollerId w /\ timers w' = timers w.
Proof.
  revert w. induction rows as [|r rows IH]; intros w; simpl.
  - split; [reflexivity|]. split; [exact (fun H => H)|]. split; reflexivity.
  - unfold outcome, exec, bind. rewrite seedRow_run.
    match goal with |- context [forM rows seedRow ?x] => specialize (IH x) end.
    unfold outcome, exec in IH. destruct IH as (Ho & Hs & Hp & Ht).
    split; [exact Ho|]. cbv zeta in *. split; [|split].
    + intros Hw. apply Hs.
      destruct (truthy (VStr (data_job_id r))) eqn:E; [|exact Hw].
      apply (@store_ok_set (jobs w) (seeded (browser w) r) Hw).
      split; [exact E | apply trimmed_not_null].
    + rewrite Hp. now destruct (truthy (VStr (data_job_id r))).
    + rewrite Ht. now destruct (truthy (VStr (data_job_id r))).
Qed.

Lemma seedExistingJobs_run (w : World) :
  seedExistingJobs w
  = (Ok tt,
     let w' := exec (forM (existing_rows (browser w) (jobsBody w)) seedRow) w in
     if (0 <? JSMap.size (jobs w'))%nat then exec startPolling w' else w').
Proof.
  unfold seedExistingJobs, bind at 1, read at 1, bind at 1.
  destruct (forM_seedRow (existing_rows (browser w) (jobsBody w)) w) as [Ho _].
  unfold outcome in Ho. unfold exec.
  destruct (forM (existing_rows (browser w) (jobsBody w)) seedRow w) as [r w'] eqn:E.
  simpl in Ho. subst r.
  unfold bind, read, when. simpl.
  destruct (0 <? JSMap.size (jobs w'))%nat; [|reflexivity].
  rewrite startPolling_run. reflexivity.
Qed.

(** ** The invariant of the event loop *)

Lemma invariant_boot e form statusText body indicator :
  invariant (boot e form statusText body indicator).
Proof.
  unfold boot, exec. rewrite seedExistingJobs_run. cbv zeta. simpl.
  destruct (forM_seedRow (existing_rows e body)
              (initial e form statusText body indicator))
    as (_ & Hs & Hp & Ht).
  cbv zeta in *. specialize (Hs store_ok_empty).
  set (w' := exec (forM (existing_rows e body) seedRow) _) in *.
  assert (Hw' : timer_ok w') by (unfold timer_ok; now rewrite Hp, Ht).
  destruct (0 <? JSMap.size (jobs w'))%nat; split; simpl; auto.
  - now apply timer_ok_startPolling.
  - unfold exec. rewrite startPolling_run. simpl.
    now destruct (negb (is_null (pollerId w')) || (JSMap.size (jobs w') =? 0)%nat).
Qed.


Lemma ticks_ok_mono (ks ks' : list value) (ts : list (list Job.t)) :
  (forall k, In k ks -> In k ks') ->
  Forall (Forall (fun j => In (Job.id j) ks /\ job_ok j)) ts ->
  Forall (Forall (fun j => In (Job.id j) ks' /\ job_ok j)) ts.
Proof.
  intros Hsub. apply Forall_impl. intros l. apply Forall_impl.
  intros j [Hin Hj]. auto.
Qed.

Lemma startPolling_frame (w : World) :
  let w' := exec startPolling w in
  jobs w' = jobs w /\ jobsBody w' = jobsBody w /\ uploadForm w' = uploadForm w
  /\ uploadStatusEl w' = uploadStatusEl w /\ console w' = console w
  /\ pollingIndicator w' = pollingIndicator w.
Proof.
  unfold exec. rewrite startPolling_run. simpl.
  destruct (negb (is_null (pollerId w)) || (JSMap.size (jobs w) =? 0)%nat);
    repeat split.
Qed.

Lemma handleUpload_begin_frame (w : World) :
  let w' := snd (handleUpload_begin w) in
  jobs w' = jobs w /\ pollerId w' = pollerId w /\ timers w' = timers w
  /\ jobsBody w' = jobsBody w /\ console w' = console w.
Proof.
  unfold handleUpload_begin, bind, read. simpl.
  destruct (uploadForm w); repeat split.
Qed.

Lemma upload_failed_frame (e : exn) (w : World) :
  let w' := upload_failed e w in
  jobs w' = jobs w /\ pollerId w' = pollerId w /\ timers w' = timers w
  /\ jobsBody w' = jobsBody w.
Proof. repeat split. Qed.


Lemma upload_done_jobs (job : Job.t) (w : World) :
  jobs (upload_done job w) = JSMap.set (Job.id job) job (jobs w).
Proof.
  unfold upload_done. simpl.
  match goal with |- context [exec startPolling ?x] =>
    now destruct (startPolling_frame x) as (-> & _) end.
Qed.

Lemma upload_done_timer (job : Job.t) (w : World) :
  timer_ok w -> timer_ok (upload_done job w).
Proof.
  intros Hw. unfold upload_done.
  match goal with |- context [exec startPolling ?x] =>
    assert (H : timer_ok (exec startPolling x))
      by (apply timer_ok_startPolling; exact Hw) end.
  exact H.
Qed.

(** Whether or not [renderJob] throws, an accepted upload stores its job
    and keeps the timer as [startPolling] leaves it. *)
Lemma upload_settled_jobs (job : Job.t) (w : World) :
  jobs (upload_settled job w) = JSMap.set (Job.id job) job (jobs w).
Proof.
  unfold upload_settled.
  destruct (render_outcome (browser w) job (jobsBody w));
    [apply upload_done_jobs | reflexivity].
Qed.

Lemma upload_settled_timer (job : Job.t) (w : World) :
  timer_ok w -> timer_ok (upload_settled job w).
Proof.
  intros Hw. unfold upload_settled.
  destruct (render_outcome (browser w) job (jobsBody w));
    [now apply upload_done_timer | exact Hw].
Qed.


Lemma uploaded_ok (p : Payload.t) (fd : FormData) :
  truthy (Job.id (uploaded p fd)) = true -> job_ok (uploaded p fd).
Proof.
  intros Hid. split; [exact Hid|].
  destruct (uploaded_status_string p fd) as [s ->]. discriminate.
Qed.

Lemma upload_error_none (fd : FormData) (o : FetchOutcome) :
  upload_error fd o = None ->
  exists st p, o = Responded (mkResponse st (BodyObject p))
    /\ ok (mkResponse st (BodyObject p)) = true
    /\ truthy (Job.id (uploaded p fd)) = true.
Proof.
  unfold upload_error. destruct o as [e|[st b]]; [discriminate|].
  destruct (ok (mkResponse st b)) eqn:Hok; [|discriminate].
  cbn [body]. destruct b as [e| |p]; try discriminate.
  destruct (truthy (Job.id (uploaded p fd))) eqn:Hid; [|discriminate].
  intros _. exists st, p. auto.
Qed.


Lemma invariant_step (s s' : System) : invariant s -> step s s' -> invariant s'.
Proof.
  intros [Ht Hs Hk] Hstep.
  destruct Hstep as [s Hform | s us1 fd us2 o Hu | s t Hin
                    | s ts1 l1 job l2 ts2 o Hts | s ts1 ts2 Hts].
  - (* submit *)
    unfold submit.
    pose proof (handleUpload_begin_frame (world s)) as (Hj & Hp & Hti & _).
    destruct (handleUpload_begin (world s)) as [[[fd|]|e] w]; simpl in *;
      (split; simpl; [unfold timer_ok; now rewrite Hp, Hti | now rewrite Hj
                     | now rewrite Hj]).
  - (* an upload settles *)
    unfold exec. rewrite handleUpload_resume_run. cbn [snd].
    destruct (upload_error fd o) as [e|] eqn:He.
    + split; simpl; auto.
    + apply upload_error_none in He as (st & p & -> & Hok & Hid).
      split; cbn [world ticks uploads].
      * now apply upload_settled_timer.
      * rewrite upload_settled_jobs. apply store_ok_set; [exact Hs|].
        now apply uploaded_ok.
      * rewrite upload_settled_jobs. revert Hk. apply ticks_ok_mono.
        intros k Hin. apply in_keys_set. now right.
  - (* the timer fires *)
    unfold tick, pollAllJobs_begin, bind, read. simpl.
    destruct (JSMap.size (jobs (world s)) =? 0)%nat eqn:Hn; simpl.
    + now split.
    + destruct (JSMap.values (jobs (world s))) as [|j l] eqn:Hv; simpl.
      * now split.
      * split; simpl; auto.
        apply Forall_app. split; [exact Hk|]. constructor; [|constructor].
        rewrite <- Hv. apply Forall_forall. intros x Hx.
        destruct (@store_ok_value _ _ Hs Hx) as [Hg Hx']. split; [|exact Hx'].
        exact (get_in_keys _ _ Hg).
  - (* a status request settles *)
    rewrite Hts in Hk.
    pose proof (Forall_elt _ _ _ Hk) as Hl.
    pose proof (Forall_elt _ _ _ Hl) as [Hin Hjob].
    pose proof (pollJob_frame job o (world s)) as (Hp & Hti & _).
    assert (Hkeys : JSMap.keys (jobs (exec (pollJob job o) (world s)))
                    = JSMap.keys (jobs (world s))).
    { rewrite pollJob_jobs. destruct (poll_update job o); [|reflexivity].
      now apply keys_set_in. }
    split; simpl.
    + unfold timer_ok. now rewrite Hp, Hti.
    + rewrite pollJob_jobs. destruct (poll_update job o) as [u|] eqn:Hu; [|exact Hs].
      rewrite <- (poll_update_id _ _ Hu). apply store_ok_set; [exact Hs|].
      exact (poll_update_ok _ Hjob Hu).
    + rewrite Hkeys.
      apply Forall_app in Hk as [Hk1 Hk2]. inversion Hk2 as [|? ? _ Hk3]; subst.
      apply Forall_app. split; [exact Hk1|]. constructor; [|exact Hk3].
      apply Forall_app in Hl as [Hl1 Hl2]. inversion Hl2; subst.
      apply Forall_app. now split.
  - (* a tick ends *)
    rewrite Hts in Hk. split; simpl; auto.
    apply Forall_app in Hk as [Hk1 Hk2]. inversion Hk2; subst.
    apply Forall_app. now split.
Qed.

Lemma reachable_invariant (s : System) : reachable s -> invariant s.
Proof.
  induction 1 as [e form st body ind | s s' _ IH Hstep].
  - apply invariant_boot.
  - exact (invariant_step IH Hstep).
Qed.

(** ** A tick *)

Lemma settle_cons a l (w : World) :
  settle (a :: l) w = settle l (exec (pollJob (fst a) (snd a)) w).
Proof.
  unfold settle at 1. simpl. unfold bind, exec. now rewrite pollJob_run.
Qed.

Lemma settle_outcome l (w : World) : outcome (settle l) w = Ok tt.
Proof.
  revert w. induction l as [|a l IH]; intros w; [reflexivity|].
  unfold outcome. rewrite settle_cons. apply IH.
Qed.

Lemma settle_exec_cons a l (w : World) :
  exec (settle (a :: l)) w = exec (settle l) (exec (pollJob (fst a) (snd a)) w).
Proof. unfold exec at 1. now rewrite settle_cons. Qed.

Lemma settle_frame l (w : World) :
  let w' := exec (settle l) w in
  pollerId w' = pollerId w /\ timers w' = timers w
  /\ uploadForm w' = uploadForm w /\ uploadStatusEl w' = uploadStatusEl w
  /\ pollingIndicator w' = pollingIndicator w.
Proof.
  revert w. induction l as [|a l IH]; intros w; [repeat split|].
  cbv zeta. rewrite settle_exec_cons.
  destruct (IH (exec (pollJob (fst a) (snd a)) w)) as (-> & -> & -> & -> & ->).
  apply pollJob_frame.
Qed.

Lemma settle_keys l (w : World) :
  Forall (fun a => In (id_of a) (JSMap.keys (jobs w))) l ->
  JSMap.keys (jobs (exec (settle l) w)) = JSMap.keys (jobs w).
Proof.
  revert w. induction l as [|a l IH]; intros w Hl; [reflexivity|].
  inversion Hl as [|? ? Ha Hl']; subst.
  assert (Hk : JSMap.keys (jobs (exec (pollJob (fst a) (snd a)) w))
               = JSMap.keys (jobs w)).
  { rewrite pollJob_jobs. destruct (poll_update (fst a) (snd a)); [|reflexivity].
    now apply keys_set_in. }
  rewrite settle_exec_cons, IH; [exact Hk|]. now rewrite Hk.
Qed.

Lemma settle_get_unwritten l (k : value) (w : World) :
  (forall a, In a l -> id_of a = k -> poll_update (fst a) (snd a) = None) ->
  JSMap.get k (jobs (exec (settle l) w)) = JSMap.get k (jobs w).
Proof.
  revert w. induction l as [|a l IH]; intros w Hl; [reflexivity|].
  rewrite settle_exec_cons, IH by (intros; apply Hl; simpl; auto).
  rewrite pollJob_jobs.
  destruct (poll_update (fst a) (snd a)) as [u|] eqn:Hu; [|reflexivity].
  apply get_set_other. intros Hk.
  assert (Hn : poll_update (fst a) (snd a) = None)
    by (apply Hl; simpl; auto).
  congruence.
Qed.

Lemma settle_get_written l (job u : Job.t) (o : FetchOutcome) (w : World) :
  NoDup (map id_of l) -> In (job, o) l -> poll_update job o = Some u ->
  JSMap.get (Job.id job) (jobs (exec (settle l) w)) = Some u.
Proof.
  revert w. induction l as [|a l IH]; intros w Hnd Hin Hu; [contradiction|].
  inversion Hnd as [|? ? Hnin Hnd']; subst.
  rewrite settle_exec_cons. destruct Hin as [->|Hin].
  - rewrite settle_get_unwritten.
    + rewrite pollJob_jobs. simpl. rewrite Hu. apply get_set_same.
    + intros b Hb Hid. exfalso. apply Hnin.
      apply in_map_iff. exists b. split; [exact Hid | exact Hb].
  - now apply IH.
Qed.

Lemma settle_browser l (w : World) : browser (exec (settle l) w) = browser w.
Proof.
  revert w. induction l as [|a l IH]; intros w; [reflexivity|].
  rewrite settle_exec_cons, IH. apply pollJob_browser.
Qed.

Lemma tick_plain_cons (e : Browser) a l :
  tick_plain e (a :: l) = true ->
  (forall u, poll_update (fst a) (snd a) = Some u -> plain e u = true)
  /\ tick_plain e l = true.
Proof.
  unfold tick_plain. simpl. intros H. apply andb_true_iff in H as [Ha Hl].
  split; [|exact Hl]. intros u Hu. now rewrite Hu in Ha.
Qed.

Lemma tick_plain_in (e : Browser) a u l :
  tick_plain e l = true -> In a l -> poll_update (fst a) (snd a) = Some u ->
  plain e u = true.
Proof.
  unfold tick_plain. intros H Hin Hu. rewrite forallb_forall in H.
  specialize (H a Hin). now rewrite Hu in H.
Qed.

Lemma tick_plain_perm (e : Browser) l l' :
  Permutation l l' -> tick_plain e l = true -> tick_plain e l' = true.
Proof.
  unfold tick_plain. intros Hp H. rewrite forallb_forall in *.
  intros a Ha. apply H. exact (Permutation_in _ (Permutation_sym Hp) Ha).
Qed.

(** A callback whose record, if it writes one, is plain keeps a tidy
    table tidy. *)
Lemma pollJob_tidy (job : Job.t) (o : FetchOutcome) (w : World) :
  (forall u, poll_update job o = Some u -> plain (browser w) u = true) ->
  tidy (jobsBody w) = true -> tidy (jobsBody (exec (pollJob job o) w)) = true.
Proof.
  intros Hp Htd. rewrite pollJob_jobsBody.
  destruct (poll_update job o) as [u|]; [|exact Htd].
  apply tidy_rendered; auto.
Qed.

Lemma settle_tidy l (w : World) :
  tick_plain (browser w) l = true -> tidy (jobsBody w) = true ->
  tidy (jobsBody (exec (settle l) w)) = true.
Proof.
  revert w. induction l as [|a l IH]; intros w Hpl Htd; [exact Htd|].
  apply tick_plain_cons in Hpl as [Hpa Hpl].
  rewrite settle_exec_cons. apply IH; [now rewrite pollJob_browser|].
  now apply pollJob_tidy.
Qed.

Lemma settle_row_unwritten l (k : string) (w : World) :
  tick_plain (browser w) l = true -> tidy (jobsBody w) = true ->
  (forall a, In a l -> attr_of a = k -> poll_update (fst a) (snd a) = None) ->
  row_of k (exec (settle l) w) = row_of k w.
Proof.
  revert w. induction l as [|a l IH]; intros w Hpl Htd Hl; [reflexivity|].
  apply tick_plain_cons in Hpl as [Hpa Hpl].
  rewrite settle_exec_cons, IH;
    [ | now rewrite pollJob_browser | now apply pollJob_tidy
      | intros; apply Hl; simpl; auto ].
  unfold row_of. rewrite pollJob_jobsBody.
  destruct (poll_update (fst a) (snd a)) as [u|] eqn:Hu; [|reflexivity].
  apply rendered_other_row; [now apply Hpa | exact Htd |]. intros Hk.
  assert (Hn : poll_update (fst a) (snd a) = None).
  { apply Hl; simpl; auto. unfold attr_of.
    now rewrite Hk, (poll_update_id _ _ Hu). }
  congruence.
Qed.

Lemma settle_row_in l a (w : World) :
  tick_plain (browser w) l = true -> tidy (jobsBody w) = true ->
  NoDup (map attr_of l) -> In a l ->
  row_of (attr_of a) (exec (settle l) w)
  = match poll_update (fst a) (snd a) with
    | Some u =>
        Some (snd (written (browser w) u
                     match row_of (attr_of a) w with
                     | Some x => x
                     | None => new_row u
                     end))
    | None => row_of (attr_of a) w
    end.
Proof.
  revert w. induction l as [|b l IH]; intros w Hpl Htd Hnd Hin; [contradiction|].
  inversion Hnd as [|? ? Hnin Hnd']; subst.
  apply tick_plain_cons in Hpl as [Hpb Hpl].
  assert (Hpl' : tick_plain (browser (exec (pollJob (fst b) (snd b)) w)) l = true)
    by now rewrite pollJob_browser.
  pose proof (@pollJob_tidy (fst b) (snd b) w Hpb Htd) as Htd'.
  rewrite settle_exec_cons. destruct Hin as [->|Hin].
  - rewrite settle_row_unwritten; [ | exact Hpl' | exact Htd' | ].
    + unfold row_of. rewrite pollJob_jobsBody.
      destruct (poll_update (fst a) (snd a)) as [u|] eqn:Hu; [|reflexivity].
      unfold attr_of. rewrite <- (poll_update_id _ _ Hu).
      rewrite (@rendered_row_exact (browser w) u (jobsBody w) (Hpb u eq_refl) Htd).
      reflexivity.
    + intros c Hc Hk. exfalso. apply Hnin.
      apply in_map_iff. exists c. split; [exact Hk | exact Hc].
  - rewrite (IH _ Hpl' Htd' Hnd' Hin). rewrite pollJob_browser.
    assert (Hsame : row_of (attr_of a) (exec (pollJob (fst b) (snd b)) w)
                    = row_of (attr_of a) w).
    { unfold row_of. rewrite pollJob_jobsBody.
      destruct (poll_update (fst b) (snd b)) as [u|] eqn:Hu; [|reflexivity].
      apply rendered_other_row; [now apply Hpb | exact Htd |].
      rewrite (poll_update_id _ _ Hu).
      intros Heq. apply Hnin. apply in_map_iff. exists a. split; [|exact Hin].
      exact Heq. }
    now rewrite Hsame.
Qed.

Lemma pollAllJobs_run l (w : World) :
  pollAllJobs l w
  = (Ok tt,
     if (JSMap.size (jobs w) =? 0)%nat then w
     else exec pollAllJobs_end
            (exec (settle l) (exec (set_indicator "Refreshing…") w))).
Proof.
  unfold pollAllJobs, pollAllJobs_begin, bind at 1, bind at 1, read at 1.
  destruct (JSMap.size (jobs w) =? 0)%nat eqn:Hn; [reflexivity|].
  unfold bind at 1. unfold set_indicator at 1, modify at 1.
  unfold read. cbn [jobs with_pollingIndicator].
  destruct (JSMap.values (jobs w)) as [|j js] eqn:Hv.
  - destruct (jobs w); [discriminate Hn | discriminate Hv].
  - unfold bind. pose proof (settle_outcome l) as Ho. unfold outcome in Ho.
    unfold exec, set_indicator, modify. cbn [snd].
    match goal with |- context [settle l ?x] =>
      specialize (Ho x); destruct (settle l x) as [r w'] end.
    simpl in Ho. now subst r.
Qed.

(** What [answers] gives on a well-formed map. *)
Lemma answers_facts (w : World) l :
  store_ok (jobs w) -> answers w l ->
  NoDup (map id_of l) /\ NoDup (map attr_of l)
  /\ Forall (fun a => JSMap.get (id_of a) (jobs w) = Some (fst a) /\ job_ok (fst a)) l.
Proof.
  intros Hs Hp. unfold answers in Hp.
  assert (Hids : Permutation (map id_of l) (JSMap.keys (jobs w))).
  { rewrite <- (store_ok_keys_ids Hs). unfold id_of. rewrite <- (map_map fst Job.id).
    now apply Permutation_map. }
  assert (Hnd : NoDup (map id_of l)).
  { apply (Permutation_NoDup (Permutation_sym Hids)). apply Hs. }
  split; [exact Hnd|]. split.
  - unfold attr_of. rewrite <- (map_map id_of ToString).
    apply truthy_keys_attrs; [|exact Hnd].
    apply Forall_forall. intros k Hk.
    apply (Permutation_in _ Hids) in Hk.
    exact (proj1 (Forall_forall _ _) (store_ok_truthy_keys Hs) _ Hk).
  - apply Forall_forall. intros a Ha. apply (@store_ok_value _ _ Hs).
    apply (Permutation_in _ Hp). now apply in_map.
Qed.

Lemma answers_nonempty (w : World) l a :
  answers w l -> In a l -> (JSMap.size (jobs w) =? 0)%nat = false.
Proof.
  intros Hp Ha. apply Nat.eqb_neq. intros Hz.
  apply (in_map fst) in Ha. apply (Permutation_in _ Hp) in Ha.
  unfold JSMap.size in Hz. apply length_zero_iff_nil in Hz.
  now rewrite Hz in Ha.
Qed.

Lemma pollAllJobs_jobs l (w : World) :
  jobs (exec (pollAllJobs l) w)
  = if (JSMap.size (jobs w) =? 0)%nat then jobs w
    else jobs (exec (settle l) (exec (set_indicator "Refreshing…") w)).
Proof.
  unfold exec at 1. rewrite pollAllJobs_run. cbn [snd].
  now destruct (JSMap.size (jobs w) =? 0)%nat.
Qed.

Lemma pollAllJobs_jobsBody l (w : World) :
  jobsBody (exec (pollAllJobs l) w)
  = if (JSMap.size (jobs w) =? 0)%nat then jobsBody w
    else jobsBody (exec (settle l) (exec (set_indicator "Refreshing…") w)).
Proof.
  unfold exec at 1. rewrite pollAllJobs_run. cbn [snd].
  now destruct (JSMap.size (jobs w) =? 0)%nat.
Qed.

Lemma pollAllJobs_timers l (w : World) :
  timers (exec (pollAllJobs l) w) = timers w
  /\ pollerId (exec (pollAllJobs l) w) = pollerId w.
Proof.
  unfold exec at 1 2. rewrite pollAllJobs_run. cbn [snd].
  destruct (JSMap.size (jobs w) =? 0)%nat; [now split|].
  match goal with |- context [exec (settle l) ?x] =>
    destruct (settle_frame l x) as (Hp & Ht & _) end.
  cbv zeta in *. split; [exact Ht | exact Hp].
Qed.

Lemma settle_store_ok l (w : World) :
  store_ok (jobs w) ->
  Forall (fun a => In (id_of a) (JSMap.keys (jobs w)) /\ job_ok (fst a)) l ->
  store_ok (jobs (exec (settle l) w)).
Proof.
  revert w. induction l as [|a l IH]; intros w Hs Hl; [exact Hs|].
  inversion Hl as [|? ? [Ha Hok] Hl']; subst.
  rewrite settle_exec_cons. apply IH.
  - rewrite pollJob_jobs.
    destruct (poll_update (fst a) (snd a)) as [u|] eqn:Hu; [|exact Hs].
    rewrite <- (poll_update_id _ _ Hu). apply store_ok_set; [exact Hs|].
    exact (poll_update_ok _ Hok Hu).
  - revert Hl'. apply Forall_impl. intros b [Hb Hbok]. split; [|exact Hbok].
    rewrite pollJob_jobs.
    destruct (poll_update (fst a) (snd a)); [|exact Hb].
    apply in_keys_set. now right.
Qed.

(** ** The claims about polling *)

Lemma page_loaded_reachable : reachable page_loaded.
Proof. apply reach_boot. Qed.

Lemma job_created_reachable : reachable job_created.
Proof.
  assert (H1 : reachable (submit page_loaded)).
  { apply (reach_step page_loaded_reachable). apply step_submit. discriminate. }
  apply (reach_step H1).
  exact (@step_upload_settles (submit page_loaded) [] (mkFormData (Some "report.pdf")) []
           (Responded (created "42")) eq_refl).
Qed.

Lemma two_ticks_reachable : reachable two_ticks.
Proof.
  assert (H3 : reachable (tick job_created)).
  { apply (reach_step job_created_reachable).
    apply (@step_tick job_created (mkTimer 1 CallPollAllJobs 5000)). now left. }
  apply (reach_step H3).
  apply (@step_tick (tick job_created) (mkTimer 1 CallPollAllJobs 5000)). now left.
Qed.

Lemma overlap_before_reachable : reachable overlap_before.
Proof.
  apply (reach_step two_ticks_reachable).
  exact (@step_poll_settles two_ticks [[job42]] [] job42 [] [] (Responded says_done)
           eq_refl).
Qed.

Lemma served_tick_reachable : reachable (tick served).
Proof.
  apply (@reach_step served); [apply reach_boot|].
  apply (@step_tick served (mkTimer 1 CallPollAllJobs 5000)). now left.
Qed.

(** C1, counterexample.  In the reachable state [overlap_before] the map
    holds job 42 as [done] and the first tick's request for job 42 is still
    in flight.  It is answered 200 with an object that has no [status]: the
    record written is the response merged over the [pending] record the
    first tick started with, so the map holds [pending] again, and the
    status the map held is not retained.  And on the page [served], whose
    row for job 7 came from the server without a status cell, the request
    of the first tick is answered 200 with [{status: "done"}]: the map holds
    the merged record, but the write of the badge throws, the error is
    logged, and the row still has no status and its download cell is the one
    the server rendered, so the row is not re-rendered. *)
Lemma stale_poll_counterexample :
  reachable overlap_before
  /\ ticks overlap_before = [[job42]; []]
  /\ JSMap.get (VStr "42") (jobs (world overlap_before))
     = Some (Job.mk (VStr "42") (VStr "report.pdf") (VStr "done"))
  /\ step overlap_before overlap_after
  /\ JSMap.get (VStr "42") (jobs (world overlap_after))
     = Some (Job.mk (VStr "42") (VStr "report.pdf") (VStr "pending"))
  /\ reachable (tick served)
  /\ ticks (tick served) = [[job7]]
  /\ step (tick served) served_polled
  /\ JSMap.get (VStr "7") (jobs (world served_polled))
     = Some (Job.mk (VStr "7") (VStr "a.pdf") (VStr "done"))
  /\ row_of "7" (world served_polled) = Some row7
  /\ console (world served_polled)
     = [(Some "Failed to poll job status",
         TypeError "Cannot set properties of null (setting 'innerHTML')")]
  /\ ~ poll_claim_as_stated.
Proof.
  split; [apply overlap_before_reachable|].
  split; [reflexivity|]. split; [reflexivity|]. split.
  { exact (@step_poll_settles overlap_before [] [] job42 [] [[]] (Responded says_nothing)
             eq_refl). }
  split; [reflexivity|].
  split; [apply served_tick_reachable|].
  split; [reflexivity|]. split.
  { exact (@step_poll_settles (tick served) [] [] job7 [] [] (Responded says_done)
             eq_refl). }
  split; [reflexivity|]. split; [reflexivity|]. split; [reflexivity|].
  intros H.
  destruct (H overlap_before [] [] job42 [] [[]] says_nothing
              (Payload.mk VUndefined VUndefined VUndefined VUndefined)
              (Job.mk (VStr "42") (VStr "report.pdf") (VStr "done"))
              overlap_before_reachable eq_refl eq_refl eq_refl eq_refl)
    as (updated & Hget & Hstatus & _).
  specialize (Hstatus eq_refl).
  vm_compute in Hget. injection Hget as <-. discriminate Hstatus.
Qed.

(** C1, amended.  For every record [job] a status request was started
    for, answered with a success status and a JSON object [p] while the
    map, well-formed, still holds [job] under its identifier: the record
    under that identifier afterwards has the same identifier, the
    response's filename or else [job]'s, and the response's status or else
    [job]'s.  A field that is absent from the response keeps the value the
    map held, a field that is a non-empty string replaces it; the keys of
    the map and the records under the other keys are as they were.  When
    that record is plain (identifier free of CSS string syntax, identifier
    and status free of markup syntax, status naming no class the script
    selects by), the table is tidy (no cell holds markup the script's
    selectors could match) and it has no row under the identifier or one
    with its three cells, the job's row afterwards shows the merged record:
    its name, the badge of its status and its download cell. *)
Theorem poll_success_merges_response
  (w : World) (job : Job.t) (r : Response) (p : Payload.t) :
  store_ok (jobs w) -> JSMap.get (Job.id job) (jobs w) = Some job ->
  ok r = true -> body r = BodyObject p ->
  let w' := exec (pollJob job (Responded r)) w in
  let updated :=
    Job.mk (Job.id job) (Payload.filename p ||| Job.filename job)
      (Payload.status p ||| Job.status job) in
  JSMap.get (Job.id job) (jobs w') = Some updated
  /\ (Payload.status p = VUndefined -> Job.status updated = Job.status job)
  /\ (Payload.filename p = VUndefined -> Job.filename updated = Job.filename job)
  /\ (truthy (Payload.status p) = true -> Job.status updated = Payload.status p)
  /\ (truthy (Payload.filename p) = true -> Job.filename updated = Payload.filename p)
  /\ JSMap.keys (jobs w') = JSMap.keys (jobs w)
  /\ (forall k, k <> Job.id job -> JSMap.get k (jobs w') = JSMap.get k (jobs w))
  /\ (plain (browser w) updated = true -> tidy (jobsBody w) = true ->
      row_ready (ToString (Job.id job)) (jobsBody w) = true ->
      exists row badge,
        renderStatusBadge (browser w) (Job.status updated) = Ok badge
        /\ row_of (ToString (Job.id job)) w' = Some row
        /\ job_name row = Some (Text (ToString (Job.filename updated ||| VStr "—")))
        /\ job_status row = Some (Html badge)
        /\ job_download row = Some (Html (renderDownloadLink (browser w) updated))).
Proof.
  intros Hs Hget Hok Hbody w' updated.
  assert (Hu : poll_update job (Responded r) = Some updated).
  { simpl. now rewrite Hok, Hbody. }
  assert (Hj : jobs w' = JSMap.set (Job.id job) updated (jobs w)).
  { subst w'. now rewrite pollJob_jobs, Hu. }
  split. { rewrite Hj. apply get_set_same. }
  split. { intros Hp. simpl. now rewrite Hp. }
  split. { intros Hp. simpl. now rewrite Hp. }
  split. { intros Hp. simpl. now apply js_or_truthy. }
  split. { intros Hp. simpl. now apply js_or_truthy. }
  split. { rewrite Hj. apply keys_set_in. exact (get_in_keys _ _ Hget). }
  split. { intros k Hk. rewrite Hj. now apply get_set_other. }
  intros Hplain Htidy Hready.
  destruct (@store_ok_get _ _ _ Hs Hget) as [_ [_ Hst]].
  destruct (@renderStatusBadge_ok (browser w) (Job.status updated)) as [badge Hb].
  { simpl. now apply js_or_not_null. }
  destruct (@rendered_row (browser w) updated badge (jobsBody w) Hplain Htidy Hready Hb)
    as (_ & row & Hrow & _ & Hname & Hstatus & Hdl).
  exists row, badge. split; [exact Hb|]. split; [|auto].
  subst w'. unfold row_of. now rewrite pollJob_jobsBody, Hu.
Qed.

(** A tick that nothing interleaves with: for every record [job] of the
    map whose status request is answered with a success status and a JSON
    object [p], the record under [job]'s identifier after the tick is the
    response merged over the record the map held: the same identifier, the
    response's filename or else the old one, the response's status or else
    the old one.  A field that is absent from the response keeps its old
    value, a field that is a non-empty string replaces it.  When every
    record the tick writes is plain, the table is tidy and it has no row
    under [job]'s identifier or one with its three cells, the job's row
    after the tick shows the merged record: its name, the badge of its
    status and its download cell. *)
Lemma tick_merges_response
  (w : World) (arrivals : list (Job.t * FetchOutcome)) (job : Job.t)
  (r : Response) (p : Payload.t) :
  store_ok (jobs w) -> answers w arrivals ->
  In (job, Responded r) arrivals -> ok r = true -> body r = BodyObject p ->
  let w' := exec (pollAllJobs arrivals) w in
  let updated :=
    Job.mk (Job.id job) (Payload.filename p ||| Job.filename job)
      (Payload.status p ||| Job.status job) in
  JSMap.get (Job.id job) (jobs w) = Some job
  /\ JSMap.get (Job.id job) (jobs w') = Some updated
  /\ (Payload.status p = VUndefined -> Job.status updated = Job.status job)
  /\ (Payload.filename p = VUndefined -> Job.filename updated = Job.filename job)
  /\ (truthy (Payload.status p) = true -> Job.status updated = Payload.status p)
  /\ (truthy (Payload.filename p) = true -> Job.filename updated = Payload.filename p)
  /\ (tick_plain (browser w) arrivals = true -> tidy (jobsBody w) = true ->
      row_ready (ToString (Job.id job)) (jobsBody w) = true ->
      exists row badge,
        renderStatusBadge (browser w) (Job.status updated) = Ok badge
        /\ row_of (ToString (Job.id job)) w' = Some row
        /\ job_name row = Some (Text (ToString (Job.filename updated ||| VStr "—")))
        /\ job_status row = Some (Html badge)
        /\ job_download row = Some (Html (renderDownloadLink (browser w) updated))).
Proof.
  intros Hs Hans Hin Hok Hbody w' updated.
  destruct (answers_facts Hs Hans) as (Hnd & Hnda & Hall).
  pose proof (proj1 (Forall_forall _ _) Hall _ Hin) as [Hget Hjob].
  unfold id_of in Hget. simpl in Hget.
  assert (Hu : poll_update job (Responded r) = Some updated).
  { simpl. now rewrite Hok, Hbody. }
  pose proof (answers_nonempty _ Hans Hin) as Hn.
  split; [exact Hget|]. split.
  { subst w'. rewrite pollAllJobs_jobs, Hn.
    eapply settle_get_written; [exact Hnd | exact Hin | exact Hu]. }
  split. { intros Hp. simpl. now rewrite Hp. }
  split. { intros Hp. simpl. now rewrite Hp. }
  split. { intros Hp. simpl. now apply js_or_truthy. }
  split. { intros Hp. simpl. now apply js_or_truthy. }
  intros Hplain Htidy Hready.
  destruct (@renderStatusBadge_ok (browser w) (Job.status updated)) as [badge Hb].
  { simpl. apply js_or_not_null. apply Hjob. }
  set (w0 := exec (set_indicator "Refreshing…") w).
  pose proof (@settle_row_in arrivals (job, Responded r) w0 Hplain Htidy Hnda Hin) as Hrow.
  cbn [fst snd] in Hrow. rewrite Hu in Hrow.
  change (attr_of (job, Responded r)) with (ToString (Job.id job)) in Hrow.
  change (browser w0) with (browser w) in Hrow.
  change (row_of (ToString (Job.id job)) w0)
    with (querySelector_row (ToString (Job.id updated)) (jobsBody w)) in Hrow.
  fold (row_before updated (jobsBody w)) in Hrow.
  rewrite (@written_ok (browser w) updated badge _
             (@row_before_has_cells updated (jobsBody w) Hready) Hb) in Hrow.
  cbn [snd] in Hrow.
  eexists. exists badge. split; [exact Hb|]. split.
  - subst w'. unfold row_of in *. rewrite pollAllJobs_jobsBody, Hn. exact Hrow.
  - repeat split.
Qed.

Lemma pollAllJobs_begin_outcome (w : World) :
  outcome pollAllJobs_begin w
  = Ok (if (JSMap.size (jobs w) =? 0)%nat then [] else JSMap.values (jobs w)).
Proof.
  unfold outcome, pollAllJobs_begin, bind, read. simpl.
  now destruct (JSMap.size (jobs w) =? 0)%nat.
Qed.

(** C3. For every status request that fails (it is rejected, or answered
    with a status outside 200..299), whatever record [job] it was started
    for and whatever the page's state [w] when it settles: the callback
    ends without an exception and leaves the whole map, the job table,
    [pollerId] and the timers as they were, so the record the map holds
    under [job]'s identifier is the one it held, the timer that is set
    fires again, and the next tick starts a request for that record; and no
    tick, whatever its requests settle to, ends with an exception. *)
Theorem poll_failure_keeps_record
  (w : World) (job existing : Job.t) (o : FetchOutcome) :
  failed o = true -> JSMap.get (Job.id job) (jobs w) = Some existing ->
  let w' := exec (pollJob job o) w in
  outcome (pollJob job o) w = Ok tt
  /\ jobs w' = jobs w
  /\ JSMap.get (Job.id job) (jobs w') = Some existing
  /\ jobsBody w' = jobsBody w
  /\ pollerId w' = pollerId w /\ timers w' = timers w
  /\ (exists snapshot,
        outcome pollAllJobs_begin w' = Ok snapshot /\ In existing snapshot)
  /\ (forall arrivals w0, outcome (pollAllJobs arrivals) w0 = Ok tt).
Proof.
  intros Hfail Hget w'.
  pose proof (poll_update_failed job o Hfail) as Hu.
  assert (Hj : jobs w' = jobs w) by (subst w'; now rewrite pollJob_jobs, Hu).
  destruct (pollJob_frame job o w) as (Hp & Ht & _).
  split; [apply pollJob_outcome|]. split; [exact Hj|].
  split; [now rewrite Hj|]. split.
  { subst w'. now rewrite pollJob_jobsBody, Hu. }
  split; [exact Hp|]. split; [exact Ht|]. split.
  - exists (JSMap.values (jobs w)).
    rewrite pollAllJobs_begin_outcome, Hj.
    apply in_of_get in Hget.
    destruct (JSMap.size (jobs w) =? 0)%nat eqn:Hn.
    + apply Nat.eqb_eq in Hn. unfold JSMap.size in Hn.
      apply length_zero_iff_nil in Hn. now rewrite Hn in Hget.
    + split; [reflexivity|]. exact (in_map snd _ _ Hget).
  - intros arrivals w0. unfold outcome. now rewrite pollAllJobs_run.
Qed.

(** A tick that nothing interleaves with: for every record [job] of the
    map whose status request fails (the request is rejected, or answered
    with a status outside 200..299), the map still holds [job] under its
    identifier after the tick, the keys of the map and the timer are the
    ones they were, the next tick starts a request for [job] again, and the
    tick itself ends without an exception.  When every record the tick
    writes is plain and the table is tidy, the job's row is the one it
    was. *)
Lemma tick_failure_keeps_record
  (w : World) (arrivals : list (Job.t * FetchOutcome)) (job : Job.t)
  (o : FetchOutcome) :
  store_ok (jobs w) -> answers w arrivals ->
  In (job, o) arrivals -> failed o = true ->
  let w' := exec (pollAllJobs arrivals) w in
  JSMap.get (Job.id job) (jobs w) = Some job
  /\ JSMap.get (Job.id job) (jobs w') = Some job
  /\ (tick_plain (browser w) arrivals = true -> tidy (jobsBody w) = true ->
      row_of (ToString (Job.id job)) w' = row_of (ToString (Job.id job)) w)
  /\ JSMap.keys (jobs w') = JSMap.keys (jobs w)
  /\ timers w' = timers w
  /\ (exists snapshot, outcome pollAllJobs_begin w' = Ok snapshot /\ In job snapshot)
  /\ outcome (pollAllJobs arrivals) w = Ok tt.
Proof.
  intros Hs Hans Hin Hfail w'.
  destruct (answers_facts Hs Hans) as (Hnd & Hnda & Hall).
  pose proof (proj1 (Forall_forall _ _) Hall _ Hin) as [Hget Hjob].
  unfold id_of in Hget. simpl in Hget.
  pose proof (answers_nonempty _ Hans Hin) as Hn.
  set (w0 := exec (set_indicator "Refreshing…") w).
  assert (Hunw : forall a, In a arrivals -> id_of a = Job.id job ->
                           poll_update (fst a) (snd a) = None).
  { intros a Ha Hid.
    assert (a = (job, o)) as ->; [|now apply poll_update_failed].
    clear -Hnd Ha Hin Hid. induction arrivals as [|b l IH]; [contradiction|].
    inversion Hnd as [|? ? Hnin Hnd']; subst.
    destruct Ha as [->|Ha], Hin as [Hb|Hin]; auto.
    - exfalso. apply Hnin. apply in_map_iff. exists (job, o). auto.
    - subst b. exfalso. apply Hnin. apply in_map_iff. exists a. auto. }
  assert (Hget' : JSMap.get (Job.id job) (jobs w') = Some job).
  { subst w'. rewrite pollAllJobs_jobs, Hn.
    rewrite settle_get_unwritten by exact Hunw. exact Hget. }
  assert (Hkeys : JSMap.keys (jobs w') = JSMap.keys (jobs w)).
  { subst w'. rewrite pollAllJobs_jobs, Hn.
    apply (@settle_keys arrivals w0).
    revert Hall. apply Forall_impl. intros a [Ha _].
    exact (get_in_keys _ _ Ha). }
  split; [exact Hget|]. split; [exact Hget'|]. split.
  { intros Hplain Htidy. subst w'. unfold row_of. rewrite pollAllJobs_jobsBody, Hn.
    apply (@settle_row_unwritten arrivals (ToString (Job.id job)) w0 Hplain Htidy).
    intros a Ha Hattr. apply Hunw; [exact Ha|].
    pose proof (proj1 (Forall_forall _ _) Hall _ Ha) as [_ [Hta _]].
    destruct Hjob as [Htj _]. unfold attr_of in Hattr.
    now apply ToString_inj_truthy. }
  split; [exact Hkeys|]. split; [apply pollAllJobs_timers|]. split.
  - exists (JSMap.values (jobs w')).
    unfold outcome, pollAllJobs_begin, bind, read. simpl.
    assert (Hn' : (JSMap.size (jobs w') =? 0)%nat = false).
    { unfold JSMap.size. rewrite <- (length_map fst).
      fold (JSMap.keys (jobs w')). rewrite Hkeys. unfold JSMap.keys.
      rewrite length_map. exact Hn. }
    rewrite Hn'. simpl. split; [reflexivity|].
    apply in_of_get in Hget'. apply (in_map snd) in Hget'. exact Hget'.
  - unfold outcome. now rewrite pollAllJobs_run.
Qed.

Lemma settle_keyed l (w : World) :
  Forall (fun kv => Job.id (snd kv) = fst kv) (jobs w) ->
  Forall (fun kv => Job.id (snd kv) = fst kv) (jobs (exec (settle l) w)).
Proof.
  revert w. induction l as [|a l IH]; intros w Hk; [exact Hk|].
  rewrite settle_exec_cons. apply IH. rewrite pollJob_jobs.
  destruct (poll_update (fst a) (snd a)) as [u|] eqn:Hu; [|exact Hk].
  apply Forall_forall. intros kv Hin.
  apply in_set in Hin as [->|Hin].
  - exact (poll_update_id _ _ Hu).
  - exact (proj1 (Forall_forall _ _) Hk _ Hin).
Qed.

Lemma keyed_ids (m : JSMap.t Job.t) :
  Forall (fun kv => Job.id (snd kv) = fst kv) m ->
  map Job.id (JSMap.values m) = JSMap.keys m.
Proof.
  intros Hk. unfold JSMap.values, JSMap.keys. rewrite map_map.
  apply map_ext_in. intros kv Hin.
  exact (proj1 (Forall_forall _ _) Hk _ Hin).
Qed.

(** C9. A tick preserves the identifiers of the map.  When every record of
    the map is under its own identifier, then whatever the status requests
    are answered with, and in whatever order, as long as each answer is to
    a request started for an identifier of the map: the keys after the
    tick are the keys before it, in the same order and number, and the
    records under them carry the identifiers they carried, each its key. *)
Theorem pollAllJobs_preserves_ids
  (w : World) (arrivals : list (Job.t * FetchOutcome)) :
  Forall (fun kv => Job.id (snd kv) = fst kv) (jobs w) ->
  Forall (fun a => In (Job.id (fst a)) (JSMap.keys (jobs w))) arrivals ->
  let w' := exec (pollAllJobs arrivals) w in
  JSMap.keys (jobs w') = JSMap.keys (jobs w)
  /\ map Job.id (JSMap.values (jobs w')) = map Job.id (JSMap.values (jobs w))
  /\ JSMap.size (jobs w') = JSMap.size (jobs w)
  /\ Forall (fun kv => Job.id (snd kv) = fst kv) (jobs w').
Proof.
  intros Hk Hall w'.
  set (w0 := exec (set_indicator "Refreshing…") w).
  assert (Hk' : Forall (fun kv => Job.id (snd kv) = fst kv) (jobs w')).
  { subst w'. rewrite pollAllJobs_jobs.
    destruct (JSMap.size (jobs w) =? 0)%nat; [exact Hk|].
    now apply (@settle_keyed arrivals w0). }
  assert (Hkeys : JSMap.keys (jobs w') = JSMap.keys (jobs w)).
  { subst w'. rewrite pollAllJobs_jobs.
    destruct (JSMap.size (jobs w) =? 0)%nat; [reflexivity|].
    now apply (@settle_keys arrivals w0). }
  split; [exact Hkeys|]. split; [|split; [|exact Hk']].
  - now rewrite (keyed_ids Hk'), (keyed_ids Hk).
  - unfold JSMap.size. rewrite <- !(length_map fst).
    fold (JSMap.keys (jobs w')). fold (JSMap.keys (jobs w)). now rewrite Hkeys.
Qed.

(** In the running page, a status request that settles never changes the
    keys of the map: the request was started for an identifier of the map,
    and no identifier ever leaves it. *)
Lemma reachable_poll_keeps_keys (s : System) ts1 l1 job l2 ts2 (o : FetchOutcome) :
  reachable s -> ticks s = (ts1 ++ (l1 ++ job :: l2) :: ts2)%list ->
  JSMap.keys (jobs (exec (pollJob job o) (world s))) = JSMap.keys (jobs (world s)).
Proof.
  intros Hr Hts. apply reachable_invariant in Hr as [_ _ Hk].
  rewrite Hts in Hk.
  pose proof (Forall_elt _ _ _ (Forall_elt _ _ _ Hk)) as [Hin _].
  rewrite pollJob_jobs. destruct (poll_update job o); [|reflexivity].
  now apply keys_set_in.
Qed.


(** ** The claims about rendering *)

Lemma is_done_iff (e : Browser) (status : value) :
  is_done e status = true
  <-> exists s, status = VStr s /\ toLowerCase e s = "done".
Proof.
  split.
  - destruct status as [| |s]; simpl; try discriminate.
    intros H. apply andb_true_iff in H as [_ H].
    apply String.eqb_eq in H. eauto.
  - intros (s & -> & H). simpl. rewrite H. simpl.
    destruct s; [|reflexivity].
    unfold toLowerCase in H. simpl in H. discriminate H.
Qed.

Lemma download_link_not_disabled (id : value) : download_link id <> link_disabled.
Proof. unfold download_link, link_disabled. simpl. intros H. inversion H. Qed.

Lemma lower_ascii_done (s : string) :
  Str.lower_ascii s = "done" <-> In s done_casings.
Proof.
  split.
  - destruct s as [|c1 [|c2 [|c3 [|c4 [|c5 r]]]]]; simpl; try discriminate.
    intros H. injection H as H1 H2 H3 H4.
    apply lower_char_d in H1. apply lower_char_o in H2.
    apply lower_char_n in H3. apply lower_char_e in H4.
    destruct H1 as [-> | ->], H2 as [-> | ->], H3 as [-> | ->], H4 as [-> | ->];
      simpl; tauto.
  - intros H. repeat (destruct H as [<-|H]; [reflexivity|]). contradiction.
Qed.

Lemma done_casings_ascii (s : string) : In s done_casings -> Str.is_ascii s = true.
Proof.
  intros H. repeat (destruct H as [<-|H]; [reflexivity|]). contradiction.
Qed.

(** C2. [renderDownloadLink] returns the link
    [<a href="/api/download/ID" download>Download</a>], where [ID] is the
    URI-encoded identifier of the job, exactly when the job's status is a
    string whose lower-case form is [done]; for every other status,
    [undefined], [null] and the empty string included, it returns the
    placeholder [<span class="link-disabled">Not ready</span>].  The
    lower-case form of [DONE], [Done] and [done] is [done], and an ASCII
    string has that lower-case form exactly when it is one of the sixteen
    spellings of [done] in upper and lower case.  The result depends on the
    job's status and identifier only. *)
Theorem renderDownloadLink_active_iff_done (e : Browser) (job : Job.t) :
  (renderDownloadLink e job
   = "<a href=" ++ String "034" ("/api/download/"
       ++ Str.encodeURIComponent (ToString (Job.id job))
       ++ String "034" " download>Download</a>")
   <-> exists s, Job.status job = VStr s /\ toLowerCase e s = "done")
  /\ (renderDownloadLink e job
      = "<span class=" ++ String "034" ("link-disabled" ++ String "034" ">Not ready</span>")
      <-> ~ exists s, Job.status job = VStr s /\ toLowerCase e s = "done")
  /\ (forall s, In s ["DONE"; "Done"; "done"] -> toLowerCase e s = "done")
  /\ (forall s, Str.is_ascii s = true -> (toLowerCase e s = "done" <-> In s done_casings))
  /\ (forall v, In v [VUndefined; VNull; VStr EmptyString] ->
        ~ exists s, v = VStr s /\ toLowerCase e s = "done")
  /\ (forall job', Job.status job' = Job.status job -> Job.id job' = Job.id job ->
        renderDownloadLink e job' = renderDownloadLink e job).
Proof.
  pose proof (@download_link_not_disabled (Job.id job)) as Hne.
  unfold renderDownloadLink.
  split; [|split; [|split; [|split; [|split]]]].
  - rewrite <- is_done_iff. destruct (is_done e (Job.status job)).
    + split; [reflexivity|]. intros _. reflexivity.
    + split; [|discriminate]. intros H. exfalso. apply Hne. symmetry. exact H.
  - rewrite <- is_done_iff. destruct (is_done e (Job.status job)).
    + split; [|intros H; now contradiction H]. intros H. exfalso. now apply Hne.
    + split; [discriminate|]. intros _. reflexivity.
  - intros s [<-|[<-|[<-|[]]]]; reflexivity.
  - intros s Ha. rewrite (toLowerCase_ascii e _ Ha). apply lower_ascii_done.
  - intros v [<-|[<-|[<-|[]]]] (s & Hs & Hl); try discriminate Hs.
    injection Hs as <-. discriminate Hl.
  - intros job' -> ->. reflexivity.
Qed.



(** ** The claim about the timer *)

Lemma fresh_handle_new (ts : list Timer) : ~ In (fresh_handle ts) (map handle ts).
Proof.
  unfold fresh_handle. intros Hin.
  assert (H : Forall (fun k => k <= list_max (map handle ts)) (map handle ts))
    by now apply list_max_le.
  rewrite Forall_forall in H. apply H in Hin. lia.
Qed.

(** C4. [startPolling] changes nothing when the map is empty, and nothing
    when [pollerId] is set; with a non-empty map and no [pollerId] it adds
    one timer that calls [pollAllJobs] every 5000 ms, under a handle no
    other timer has, and keeps that handle in [pollerId].  So a second call
    changes nothing more, and in every state the page can reach the script
    has at most one timer, which is the 5000 ms timer [pollerId] names. *)
Theorem startPolling_single_timer :
  (forall w, JSMap.size (jobs w) = 0 -> startPolling w = (Ok tt, w))
  /\ (forall w, pollerId w <> None -> startPolling w = (Ok tt, w))
  /\ (forall w, JSMap.size (jobs w) <> 0 -> pollerId w = None ->
        exists h,
          startPolling w
          = (Ok tt,
             with_pollerId (Some h)
               (with_timers (fun ts => (ts ++ [mkTimer h CallPollAllJobs 5000])%list) w))
          /\ ~ In h (map handle (timers w)))
  /\ (forall w, exec startPolling (exec startPolling w) = exec startPolling w)
  /\ (forall s, reachable s ->
        length (timers (world s)) <= 1
        /\ forall t, In t (timers (world s)) ->
             t = mkTimer (handle t) CallPollAllJobs 5000
             /\ pollerId (world s) = Some (handle t)).
Proof.
  split; [|split; [|split; [|split]]].
  - intros w Hn. rewrite startPolling_run, Hn. simpl.
    now rewrite orb_true_r.
  - intros w Hp. rewrite startPolling_run.
    destruct (pollerId w); [reflexivity | congruence].
  - intros w Hn Hp. exists (fresh_handle (timers w)).
    split; [|apply fresh_handle_new].
    rewrite startPolling_run, Hp. simpl.
    apply Nat.eqb_neq in Hn. now rewrite Hn.
  - intros w. unfold exec. rewrite !startPolling_run. simpl.
    destruct (pollerId w) eqn:Hp; simpl; [now rewrite Hp|].
    destruct (JSMap.size (jobs w) =? 0)%nat eqn:Hn; simpl.
    + now rewrite Hp, Hn.
    + reflexivity.
  - intros s Hr. apply reachable_invariant in Hr as [Ht _ _].
    split; [now apply timer_ok_at_most_one|].
    unfold timer_ok in Ht. intros t Hin.
    destruct (pollerId (world s)) as [h|]; rewrite Ht in Hin;
      [|contradiction].
    destruct Hin as [<-|[]]. split; reflexivity.
Qed.

(** ** The upload handler *)

Lemma handleUpload_run (o : FetchOutcome) (w : World) (form : Form) :
  uploadForm w = Some form ->
  handleUpload o w = handleUpload_resume (mkFormData (file form)) o (uploading w).
Proof.
  intros Hf. unfold handleUpload, handleUpload_begin, bind at 1, bind at 1, read at 1.
  rewrite Hf. reflexivity.
Qed.

Lemma uploading_form (w : World) (form : Form) :
  uploadForm w = Some form ->
  uploadForm (uploading w)
  = Some (mkForm (option_map (fun _ => true) (submit_disabled form)) (file form)).
Proof. intros Hf. unfold uploading. simpl. now rewrite Hf. Qed.


Lemma upload_done_frame (job : Job.t) (w : World) :
  let w' := upload_done job w in
  jobsBody w' = rendered (browser w) job (jobsBody w)
  /\ uploadStatusEl w' = "Upload successful! Job created."
  /\ console w' = console w
  /\ uploadForm w'
     = option_map
         (fun f => mkForm (option_map (fun _ => false) (submit_disabled f))
                     (option_map (fun _ => EmptyString) (file f)))
         (uploadForm w).
Proof.
  unfold upload_done. cbv zeta.
  match goal with |- context [exec startPolling ?x] =>
    destruct (startPolling_frame x) as (_ & Hb & Hf & _ & Hc & _);
    set (w1 := exec startPolling x) in * end.
  cbv zeta in *. simpl in *. rewrite Hb, Hc, Hf.
  repeat split. now destruct (uploadForm w).
Qed.

(** What [renderJob] throws is an error of the browser, never an [Error]
    of the script. *)
Lemma render_throws_dom_error (e : Browser) (job : Job.t) (trs : list Tr) (x : exn) :
  render_outcome e job trs = Throw x -> forall m, x <> Error m.
Proof.
  unfold render_outcome, render. intros H m ->.
  destruct (plain e job && tidy trs); cbn [fst] in H.
  - unfold written in H.
    destruct (job_name (row_before job trs)); [|discriminate H].
    destruct (renderStatusBadge e (Job.status job)) as [badge|err] eqn:Hb.
    + destruct (job_status (row_before job trs)); [|discriminate H].
      destruct (job_download (row_before job trs)); discriminate H.
    + cbn [fst] in H. injection H as ->.
      destruct (Job.status job); discriminate Hb.
  - destruct (fst (quirk e job trs)); discriminate H.
Qed.

Lemma resume_enables_submit (fd : FormData) (o : FetchOutcome) (w : World)
  (form : Form) :
  uploadForm w = Some form ->
  exists form',
    uploadForm (exec (handleUpload_resume fd o) w) = Some form'
    /\ submit_disabled form' = option_map (fun _ => false) (submit_disabled form).
Proof.
  intros Hf. unfold exec. rewrite handleUpload_resume_run. cbn [snd].
  destruct (upload_error fd o) as [e|].
  - simpl. rewrite Hf. simpl. eexists. split; reflexivity.
  - destruct o as [e|[st [e| |p]]]; try (simpl; rewrite Hf; simpl; eexists; split; reflexivity).
    unfold upload_settled.
    destruct (render_outcome (browser w) (uploaded p fd) (jobsBody w)).
    + destruct (upload_done_frame (uploaded p fd) w) as (_ & _ & _ & ->).
      rewrite Hf. simpl. eexists. split; reflexivity.
    + simpl. rewrite Hf. simpl. eexists. split; reflexivity.
Qed.


(** C5, counterexample.  The form is submitted with no file chosen, so the
    submitted file's name is empty, and the service answers 200 with
    [{job_id: "42"}]: the record stored under [42] has the filename [PDF],
    not the submitted file's name, so the claim as stated does not hold. *)
Lemma upload_filename_counterexample :
  JSMap.get (VStr "42") (jobs (exec (handleUpload (Responded (created "42"))) no_file_page))
  = Some (Job.mk (VStr "42") (VStr "PDF") (VStr "pending"))
  /\ claimed_upload (Payload.mk (VStr "42") VUndefined VUndefined VUndefined) EmptyString
     = Job.mk (VStr "42") (VStr EmptyString) (VStr "pending")
  /\ ~ upload_claim_as_stated.
Proof.
  split; [reflexivity|]. split; [reflexivity|].
  intros H.
  specialize (H no_file_page (mkForm (Some false) (Some EmptyString)) EmptyString
                (created "42") (Payload.mk (VStr "42") VUndefined VUndefined VUndefined)
                store_ok_empty eq_refl eq_refl eq_refl eq_refl eq_refl).
  vm_compute in H. discriminate H.
Qed.

(** C5, amended.  For every upload answered with a success status and a
    JSON object whose [job_id] is a non-empty string, the map, well-formed
    before, holds after the handler exactly one entry under that
    identifier: the record with that identifier, with the response's
    filename if it is a non-empty string, else the submitted file's name if
    the form has a file field and the name is not empty, else [PDF], and
    with the response's status if it is a non-empty string, else
    [pending]. *)
Theorem upload_success_creates_job
  (w : World) (form : Form) (r : Response) (p : Payload.t) :
  store_ok (jobs w) -> uploadForm w = Some form ->
  ok r = true -> body r = BodyObject p -> truthy (Payload.job_id p) = true ->
  let w' := exec (handleUpload (Responded r)) w in
  count_occ value_eq_dec (JSMap.keys (jobs w')) (Payload.job_id p) = 1
  /\ JSMap.get (Payload.job_id p) (jobs w')
     = Some (Job.mk (Payload.job_id p)
               (if truthy (Payload.filename p) then Payload.filename p
                else match file form with
                     | Some name => if name =? EmptyString then VStr "PDF" else VStr name
                     | None => VStr "PDF"
                     end)
               (if truthy (Payload.status p) then Payload.status p
                else VStr "pending"))
  /\ store_ok (jobs w')
  /\ outcome (handleUpload (Responded r)) w = Ok tt.
Proof.
  intros Hs Hf Hok Hbody Hid w'.
  set (fd := mkFormData (file form)).
  assert (Hjid : Job.id (uploaded p fd) = Payload.job_id p).
  { simpl. now apply js_or_truthy. }
  assert (He : upload_error fd (Responded r) = None).
  { unfold upload_error. rewrite Hok, Hbody, Hjid, Hid. reflexivity. }
  assert (Hw' : jobs w' = JSMap.set (Payload.job_id p) (uploaded p fd) (jobs w)).
  { subst w'. unfold exec. rewrite (handleUpload_run _ _ Hf).
    rewrite handleUpload_resume_run. fold fd. rewrite He. cbn [snd].
    destruct r as [st b]. simpl in Hbody. subst b.
    rewrite upload_settled_jobs. now rewrite Hjid. }
  assert (Hs' : store_ok (jobs w')).
  { rewrite Hw', <- Hjid. apply store_ok_set; [exact Hs|].
    apply uploaded_ok. now rewrite Hjid. }
  split; [|split; [|split]].
  - apply NoDup_count_occ'; [apply Hs'|].
    rewrite Hw'. apply in_keys_set. now left.
  - rewrite Hw', get_set_same. f_equal.
    unfold uploaded. rewrite (js_or_truthy _ _ Hid). f_equal.
    unfold js_or, file_name, fd. cbn [fd_file].
    destruct (truthy (Payload.filename p)) eqn:E; [now rewrite E|].
    destruct (file form) as [name|]; simpl; [|reflexivity].
    now destruct (name =? EmptyString).
  - exact Hs'.
  - unfold outcome. rewrite (handleUpload_run _ _ Hf).
    now rewrite handleUpload_resume_run.
Qed.

Lemma uploaded_id_falsy (p : Payload.t) (fd : FormData) :
  truthy (Job.id (uploaded p fd)) = false
  <-> truthy (Payload.job_id p) = false /\ truthy (Payload.id p) = false.
Proof.
  unfold uploaded, js_or. simpl.
  destruct (truthy (Payload.job_id p)) eqn:E.
  - rewrite E. split; [discriminate | intros [H _]; discriminate H].
  - tauto.
Qed.

(** C6. For every upload answered with a success status and a JSON object
    in which neither [job_id] nor [id] is a non-empty string (absent
    included), the [try] of the handler throws [Missing job id in response];
    the handler ends with the map, the job table, [pollerId] and the timers
    as they were, the error logged, and [Error: Missing job id in response]
    as the upload status text. *)
Theorem upload_without_job_id_fails
  (w : World) (form : Form) (r : Response) (p : Payload.t) :
  uploadForm w = Some form -> ok r = true -> body r = BodyObject p ->
  truthy (Payload.job_id p) = false -> truthy (Payload.id p) = false ->
  let w' := exec (handleUpload (Responded r)) w in
  outcome (upload_try (mkFormData (file form)) (Responded r)) (uploading w)
  = Throw (Error "Missing job id in response")
  /\ jobs w' = jobs w
  /\ jobsBody w' = jobsBody w
  /\ pollerId w' = pollerId w /\ timers w' = timers w
  /\ uploadStatusEl w' = "Error: Missing job id in response"
  /\ console w' = (console w ++ [(None, Error "Missing job id in response")])%list.
Proof.
  intros Hf Hok Hbody Hj Hi w'.
  set (fd := mkFormData (file form)).
  assert (He : upload_error fd (Responded r)
               = Some (Error "Missing job id in response")).
  { unfold upload_error. rewrite Hok, Hbody.
    now rewrite (proj2 (uploaded_id_falsy p fd) (conj Hj Hi)). }
  split.
  - unfold outcome. rewrite upload_try_run. fold fd. now rewrite He.
  - subst w'. unfold exec. rewrite (handleUpload_run _ _ Hf).
    rewrite handleUpload_resume_run. fold fd. rewrite He.
    repeat split.
Qed.

(** C7. For every upload, whatever the request settles to (a rejection, a
    response of any status with any body), the handler ends without an
    exception and with the submit button, when the form has one, enabled,
    after having disabled it for the time of the request.  When the
    response has a status outside 200..299, the upload status text is
    [Error: Upload failed (status)], the error is logged, and the map and
    the job table are as they were. *)
Theorem upload_reenables_submit (w : World) (form : Form) (o : FetchOutcome) :
  uploadForm w = Some form ->
  let w' := exec (handleUpload o) w in
  outcome (handleUpload o) w = Ok tt
  /\ (exists during,
        uploadForm (uploading w) = Some during
        /\ submit_disabled during = option_map (fun _ => true) (submit_disabled form))
  /\ (exists form',
        uploadForm w' = Some form'
        /\ submit_disabled form' = option_map (fun _ => false) (submit_disabled form))
  /\ (forall r, o = Responded r -> ok r = false ->
        uploadStatusEl w' = "Error: Upload failed (" ++ Str.of_nat (http_status r) ++ ")"
        /\ console w'
           = (console w
              ++ [(None, Error ("Upload failed (" ++ Str.of_nat (http_status r) ++ ")"))])%list
        /\ jobs w' = jobs w
        /\ jobsBody w' = jobsBody w).
Proof.
  intros Hf w'. split; [|split; [|split]].
  - unfold outcome. rewrite (handleUpload_run _ _ Hf).
    now rewrite handleUpload_resume_run.
  - eexists. split; [apply (uploading_form _ Hf) | reflexivity].
  - subst w'. unfold exec. rewrite (handleUpload_run _ _ Hf).
    destruct (@resume_enables_submit (mkFormData (file form)) o (uploading w) _
                (uploading_form _ Hf)) as (form' & H1 & H2).
    exists form'. split; [exact H1|]. rewrite H2.
    now destruct (submit_disabled form).
  - intros r -> Hok. subst w'. unfold exec. rewrite (handleUpload_run _ _ Hf).
    rewrite handleUpload_resume_run. unfold upload_error. rewrite Hok.
    repeat split.
Qed.


(** C10. For every upload answered with a success status and a JSON
    object: the [try] of the handler throws [Missing job id in response]
    exactly when neither [job_id] nor [id] is a non-empty string.  When
    [job_id] is not one but [id] is, that error is not thrown and the map
    holds after the handler a record under [id] whose identifier is [id];
    and when the job is plain, the table is tidy and it has no row under
    [id] or one with its three cells, no exception is thrown at all and the
    upload status text reports success. *)
Theorem upload_accepts_id_fallback
  (w : World) (fd : FormData) (r : Response) (p : Payload.t) :
  ok r = true -> body r = BodyObject p ->
  (outcome (upload_try fd (Responded r)) w = Throw (Error "Missing job id in response")
   <-> truthy (Payload.job_id p) = false /\ truthy (Payload.id p) = false)
  /\ (truthy (Payload.job_id p) = false -> truthy (Payload.id p) = true ->
      let w' := exec (handleUpload_resume fd (Responded r)) w in
      outcome (upload_try fd (Responded r)) w <> Throw (Error "Missing job id in response")
      /\ (exists job,
            JSMap.get (Payload.id p) (jobs w') = Some job
            /\ Job.id job = Payload.id p)
      /\ (plain (browser w) (uploaded p fd) = true -> tidy (jobsBody w) = true ->
          row_ready (ToString (Payload.id p)) (jobsBody w) = true ->
          outcome (upload_try fd (Responded r)) w = Ok tt
          /\ uploadStatusEl w' = "Upload successful! Job created.")).
Proof.
  intros Hok Hbody. destruct r as [st b]. simpl in Hbody. subst b.
  assert (Hiff : outcome (upload_try fd (Responded (mkResponse st (BodyObject p)))) w
                 = Throw (Error "Missing job id in response")
                 <-> truthy (Payload.job_id p) = false /\ truthy (Payload.id p) = false).
  { rewrite <- (uploaded_id_falsy p fd).
    unfold outcome. rewrite upload_try_run. unfold upload_error.
    rewrite Hok. cbn [body].
    destruct (truthy (Job.id (uploaded p fd))); simpl; [|tauto].
    split; [|discriminate]. cbv zeta.
    destruct (render_outcome (browser w) (uploaded p fd) (jobsBody w)) as [[]|x] eqn:Hr;
      cbn [fst]; [discriminate|].
    intros [= ->]. exfalso.
    exact (@render_throws_dom_error _ _ _ _ Hr "Missing job id in response" eq_refl). }
  split; [exact Hiff|].
  intros Hj Hi w'.
  assert (Hjid : Job.id (uploaded p fd) = Payload.id p).
  { simpl. now apply js_or_falsy. }
  assert (He : upload_error fd (Responded (mkResponse st (BodyObject p))) = None).
  { unfold upload_error. rewrite Hok. cbn [body]. now rewrite Hjid, Hi. }
  split; [|split].
  - intros H. apply Hiff in H as [_ H]. congruence.
  - exists (uploaded p fd). split; [|exact Hjid].
    subst w'. unfold exec. rewrite handleUpload_resume_run, He. cbn [snd].
    rewrite upload_settled_jobs, Hjid. apply get_set_same.
  - intros Hplain Htidy Hready. rewrite <- Hjid in Hready.
    destruct (uploaded_status_string p fd) as [s Hs].
    destruct (@renderStatusBadge_ok (browser w) (Job.status (uploaded p fd)))
      as [badge Hb]; [now rewrite Hs|].
    destruct (@rendered_row (browser w) (uploaded p fd) badge (jobsBody w)
                Hplain Htidy Hready Hb) as [Hout _].
    split.
    + unfold outcome. rewrite upload_try_run, He. cbv zeta. now rewrite Hout.
    + subst w'. unfold exec. rewrite handleUpload_resume_run, He. cbn [snd].
      unfold upload_settled. rewrite Hout.
      now destruct (upload_done_frame (uploaded p fd) w) as (_ & -> & _).
Qed.

(** ** The claims at concrete inputs *)

Lemma job_created_store_ok : store_ok (jobs (world job_created)).
Proof. exact (inv_store (reachable_invariant job_created_reachable)). Qed.

(** C1 at job 42, [pending], answered [{status: "done"}]: the record and
    the row. *)
Lemma poll_success_merges_response_witness :
  JSMap.get (VStr "42")
    (jobs (exec (pollJob job42 (Responded says_done)) (world job_created)))
  = Some (Job.mk (VStr "42") (VStr "report.pdf") (VStr "done"))
  /\ exists row badge,
       renderStatusBadge strict (VStr "done") = Ok badge
       /\ row_of "42" (exec (pollJob job42 (Responded says_done)) (world job_created))
          = Some row
       /\ job_name row = Some (Text "report.pdf")
       /\ job_status row = Some (Html badge)
       /\ job_download row
          = Some (Html (renderDownloadLink strict
                          (Job.mk (VStr "42") (VStr "report.pdf") (VStr "done")))).
Proof.
  destruct (@poll_success_merges_response (world job_created) job42 says_done
              (Payload.mk VUndefined VUndefined VUndefined (VStr "done"))
              job_created_store_ok eq_refl eq_refl eq_refl)
    as (H1 & _ & _ & _ & _ & _ & _ & H8).
  split; [exact H1 | exact (H8 eq_refl eq_refl eq_refl)].
Defined.

(** C3 at job 42, answered 500. *)
Lemma poll_failure_keeps_record_witness :
  jobs (exec (pollJob job42 (Responded (mkResponse 500 BodyNull))) (world job_created))
  = jobs (world job_created).
Proof.
  exact (proj1 (proj2 (@poll_failure_keeps_record (world job_created) job42 job42
                         (Responded (mkResponse 500 BodyNull)) eq_refl eq_refl))).
Defined.

(** C9 at a tick over job 42, answered [{status: "done"}]. *)
Lemma pollAllJobs_preserves_ids_witness :
  JSMap.keys (jobs (exec (pollAllJobs [(job42, Responded says_done)]) (world job_created)))
  = JSMap.keys (jobs (world job_created)).
Proof.
  refine (proj1 (@pollAllJobs_preserves_ids (world job_created)
                   [(job42, Responded says_done)] _ _)).
  - constructor; [reflexivity | constructor].
  - constructor; [now left | constructor].
Defined.

(** C5 at [report.pdf], answered 200 [{job_id: "42"}]. *)
Lemma upload_success_creates_job_witness :
  JSMap.get (VStr "42") (jobs (exec (handleUpload (Responded (created "42"))) report_page))
  = Some (Job.mk (VStr "42") (VStr "report.pdf") (VStr "pending")).
Proof.
  exact (proj1 (proj2 (@upload_success_creates_job report_page
                         (mkForm (Some false) (Some "report.pdf")) (created "42")
                         (Payload.mk (VStr "42") VUndefined VUndefined VUndefined)
                         store_ok_empty eq_refl eq_refl eq_refl eq_refl))).
Defined.

(** C6 at [report.pdf], answered 200 [{status: "pending"}]. *)
Lemma upload_without_job_id_fails_witness :
  jobs (exec (handleUpload (Responded no_id)) report_page) = jobs report_page.
Proof.
  exact (proj1 (proj2 (@upload_without_job_id_fails report_page
                         (mkForm (Some false) (Some "report.pdf")) no_id
                         (Payload.mk VUndefined VUndefined VUndefined (VStr "pending"))
                         eq_refl eq_refl eq_refl eq_refl eq_refl))).
Defined.

(** C7 at [report.pdf], answered 500. *)
Lemma upload_reenables_submit_witness :
  outcome (handleUpload (Responded (mkResponse 500 BodyNull))) report_page = Ok tt.
Proof.
  exact (proj1 (@upload_reenables_submit report_page
                  (mkForm (Some false) (Some "report.pdf"))
                  (Responded (mkResponse 500 BodyNull)) eq_refl)).
Defined.


(** C10 at [report.pdf], answered 200 [{id: "7"}]: the record, and the
    success text. *)
Lemma upload_accepts_id_fallback_witness :
  (exists job,
     JSMap.get (VStr "7")
       (jobs (exec (handleUpload_resume (mkFormData (Some "report.pdf"))
                      (Responded id_only)) report_page))
     = Some job
     /\ Job.id job = VStr "7")
  /\ uploadStatusEl
       (exec (handleUpload_resume (mkFormData (Some "report.pdf")) (Responded id_only))
          report_page)
     = "Upload successful! Job created.".
Proof.
  destruct (proj2 (@upload_accepts_id_fallback report_page
                     (mkFormData (Some "report.pdf")) id_only
                     (Payload.mk VUndefined (VStr "7") VUndefined VUndefined)
                     eq_refl eq_refl) eq_refl eq_refl)
    as (_ & H2 & H3).
  split; [exact H2 | exact (proj2 (H3 eq_refl eq_refl eq_refl))].
Defined.

(** ** The specification's scenarios, run *)

(** [report.pdf] is uploaded and the service answers
    [{job_id: "42", status: "pending"}]: a row 42, [report.pdf], badge
    [pending], no download; the placeholder row is gone, the timer is set and
    the form is reset. *)
Example scenario_upload :
  exec (handleUpload
          (Responded (mkResponse 200
             (BodyObject (Payload.mk (VStr "42") VUndefined VUndefined (VStr "pending"))))))
    report_page
  = mkWorld strict [(VStr "42", job42)] (Some 1) [mkTimer 1 CallPollAllJobs 5000] []
      (Some (mkForm (Some false) (Some EmptyString)))
      "Upload successful! Job created."
      [JobRow (row42 ("<span class=" ++ Str.dquote ++ "badge pending" ++ Str.dquote
                        ++ ">pending</span>")
                 ("<span class=" ++ Str.dquote ++ "link-disabled" ++ Str.dquote
                    ++ ">Not ready</span>"))]
      (Some EmptyString).
Proof. vm_compute. reflexivity. Qed.

(** The next poll answers [{status: "done"}]: badge [done] and a link to
    [/api/download/42]. *)
Example scenario_done :
  jobsBody (exec (pollAllJobs [(job42, Responded says_done)]) (world job_created))
  = [JobRow (row42 ("<span class=" ++ Str.dquote ++ "badge done" ++ Str.dquote
                      ++ ">done</span>")
               ("<a href=" ++ Str.dquote ++ "/api/download/42" ++ Str.dquote
                  ++ " download>Download</a>"))].
Proof. vm_compute. reflexivity. Qed.

(** The poll is answered 500: the error is logged, nothing else changes
    but the indicator text. *)
Example scenario_500 :
  pollAllJobs [(job42, Responded (mkResponse 500 BodyNull))] (world job_created)
  = (Ok tt,
     with_pollingIndicator (fun _ => Some "Auto-refreshing…")
       (with_console
          (fun _ => [(poll_label, Error "Status request failed (500)")])
          (world job_created))).
Proof. vm_compute. reflexivity. Qed.

(** A status that is present but empty, or null, is treated as absent. *)
Example poll_empty_status_keeps_old :
  forall v, In v [VStr EmptyString; VNull; VUndefined] ->
    JSMap.get (VStr "42")
      (jobs (exec (pollJob job42
                     (Responded (mkResponse 200
                        (BodyObject (Payload.mk VUndefined VUndefined VUndefined v)))))
               (world job_created)))
    = Some job42.
Proof. intros v [<-|[<-|[<-|[]]]]; vm_compute; reflexivity. Qed.

(** The page after the upload has exactly the one timer. *)
Example one_timer_after_upload :
  reachable job_created
  /\ timers (world job_created) = [mkTimer 1 CallPollAllJobs 5000]
  /\ pollerId (world job_created) = Some 1
  /\ startPolling (world job_created) = (Ok tt, world job_created)
  /\ startPolling report_page = (Ok tt, report_page).
Proof.
  split; [apply job_created_reachable|]. vm_compute. repeat split.
Qed.

(** Two server-rendered rows, one without an identifier: one job is
    tracked, with the trimmed texts, and the timer is set. *)
Example seed_rows :
  let w := exec seedExistingJobs
             (initial strict None EmptyString
                [JobRow (mkRow "7" None (Some (Text " a.pdf ")) (Some (Text "
      Done ")) None);
                 JobRow (mkRow EmptyString None (Some (Text "b.pdf")) None None)]
                None) in
  jobs w = [(VStr "7", Job.mk (VStr "7") (VStr "a.pdf") (VStr "Done"))]
  /\ pollerId w = Some 1.
Proof. vm_compute. split; reflexivity. Qed.

(** A record whose status is [null] cannot be rendered: the name cell is
    written, then [renderStatusBadge] throws. *)
Example render_null_status :
  renderJob (Job.mk (VStr "9") VUndefined VNull) report_page
  = (Throw (null_read "toLowerCase"),
     with_jobsBody
       (fun _ => [JobRow (mkRow "9" (Some (Html "9")) (Some (Text dash))
                            (Some (Html EmptyString)) (Some (Html EmptyString)))])
       report_page).
Proof. vm_compute. reflexivity. Qed.

(** An upload answered with an identifier that has a double quote in it,
    in a browser that rejects the selector: the job is stored, the error is
    logged and shown, the form keeps its file, and no timer is set although
    the map is not empty. *)
Example upload_quoted_id :
  let w := exec (handleUpload (Responded (created quoted))) report_page in
  JSMap.keys (jobs w) = [VStr quoted]
  /\ pollerId w = None /\ timers w = []
  /\ jobsBody w = [EmptyRow]
  /\ length (console w) = 1
  /\ uploadForm w = Some (mkForm (Some false) (Some "report.pdf")).
Proof. vm_compute. repeat split. Qed.

Example badge_pending :
  renderStatusBadge strict (VStr "Pending")
  = Ok ("<span class=" ++ Str.dquote ++ "badge pending" ++ Str.dquote ++ ">Pending</span>")
  /\ renderStatusBadge strict VUndefined
     = Ok ("<span class=" ++ Str.dquote ++ "badge pending" ++ Str.dquote
             ++ ">pending</span>").
Proof. vm_compute. split; reflexivity. Qed.

Example link_encoded :
  renderDownloadLink strict (Job.mk (VStr "a b/42") VUndefined (VStr "DONE"))
  = "<a href=" ++ Str.dquote ++ "/api/download/a%20b%2F42" ++ Str.dquote
      ++ " download>Download</a>".
Proof. vm_compute. reflexivity. Qed.

(** The badge of a status takes the words of its lower-case form as
    classes.  A status that names a class the script selects cells by is
    not plain: its badge would be found in place of the cell. *)
Example status_classes :
  class_tokens EmptyString "badge in  progress" = ["badge"; "in"; "progress"]
  /\ plain strict (Job.mk (VStr "1") VUndefined (VStr "In progress")) = true
  /\ plain strict (Job.mk (VStr "1") VUndefined (VStr "Job-Download")) = false
  /\ plain strict (Job.mk (VStr quoted) VUndefined (VStr "done")) = false.
Proof. vm_compute. repeat split. Qed.

(** The table the script has written is tidy, and so is a table of text
    cells.  A table with a cell that holds a span of class [empty-row] is
    not, and neither is one with a cell that holds markup of a shape the
    model does not read. *)
Example tidy_tables :
  tidy (jobsBody (world job_created)) = true
  /\ tidy [JobRow row7] = true
  /\ tidy [JobRow (row42 ("<span class=" ++ Str.dquote ++ "badge Empty-Row"
                            ++ Str.dquote ++ ">x</span>") EmptyString)] = false
  /\ tidy [JobRow (row42 "<b>done</b>" EmptyString)] = false.
Proof. vm_compute. repeat split. Qed.

Example of_nat_500 : Str.of_nat 500 = "500" /\ Str.of_nat 0 = "0".
Proof. vm_compute. split; reflexivity. Qed.

(** * Further properties of the script *)

(** ** renderJob as an upsert *)

(** X1. For a plain job on a tidy table, [renderJob] is an upsert keyed
    by the job's identifier, whether or not it ends with an exception: when
    the table has a row with the job's [data-job-id] the list of row
    identifiers is unchanged, otherwise the job's identifier is added at the
    front; one placeholder row, if there is any, is removed; every row with
    another identifier is unchanged; identifiers that were unique stay
    unique; the table is tidy afterwards; and nothing but the table is
    touched. *)
Theorem renderJob_upserts_row (job : Job.t) (w : World) :
  plain (browser w) job = true -> tidy (jobsBody w) = true ->
  let a := ToString (Job.id job) in
  let w' := exec (renderJob job) w in
  (In a (attrs (jobsBody w)) -> attrs (jobsBody w') = attrs (jobsBody w))
  /\ (~ In a (attrs (jobsBody w)) -> attrs (jobsBody w') = a :: attrs (jobsBody w))
  /\ In a (attrs (jobsBody w'))
  /\ placeholders (jobsBody w') = pred (placeholders (jobsBody w))
  /\ (forall b, b <> a -> row_of b w' = row_of b w)
  /\ (NoDup (attrs (jobsBody w)) -> NoDup (attrs (jobsBody w')))
  /\ tidy (jobsBody w') = true
  /\ w' = with_jobsBody (fun _ => jobsBody w') w.
Proof.
  intros Hplain Htidy a w'.
  assert (Hw' : w' = with_jobsBody (rendered (browser w) job) w).
  { unfold w', exec. now rewrite renderJob_run. }
  assert (Hb : jobsBody w' = rendered (browser w) job (jobsBody w)) by now rewrite Hw'.
  rewrite Hb, (@attrs_rendered (browser w) job (jobsBody w) Hplain Htidy). fold a.
  assert (Hother : forall b, b <> a -> row_of b w' = row_of b w).
  { intros b Hne. unfold row_of. rewrite Hb. now apply rendered_other_row. }
  assert (Hframe : w' = with_jobsBody (fun _ => rendered (browser w) job (jobsBody w)) w).
  { rewrite Hw'. now destruct w. }
  pose proof (@tidy_rendered (browser w) job (jobsBody w) Hplain Htidy) as Htidy'.
  destruct (querySelector_row a (jobsBody w)) as [x|] eqn:Hq.
  - assert (Hin : In a (attrs (jobsBody w))).
    { destruct (in_dec string_dec a (attrs (jobsBody w))) as [H|H]; [exact H|].
      apply query_none_iff in H. congruence. }
    split; [reflexivity|]. split; [tauto|]. split; [exact Hin|].
    split; [now apply placeholders_rendered|]. split; [exact Hother|].
    split; [tauto|]. split; [exact Htidy' | exact Hframe].
  - pose proof (proj1 (query_none_iff _ _) Hq) as Hnin.
    split; [tauto|]. split; [reflexivity|]. split; [now left|].
    split; [now apply placeholders_rendered|]. split; [exact Hother|].
    split; [|split; [exact Htidy' | exact Hframe]]. intros Hnd. now constructor.
Qed.

(** X2. For a plain job on a tidy table, [renderJob] is idempotent up to
    placeholder rows: rendering the same job a second time ends as the
    first time and changes nothing but the removal of one more placeholder
    row, if there is one left; so on a table with at most one placeholder
    row the second call leaves the page exactly as the first left it. *)
Theorem renderJob_idempotent (job : Job.t) (w : World) :
  plain (browser w) job = true -> tidy (jobsBody w) = true ->
  exec (renderJob job) (exec (renderJob job) w)
  = with_jobsBody remove_empty_row (exec (renderJob job) w)
  /\ outcome (renderJob job) (exec (renderJob job) w) = outcome (renderJob job) w
  /\ (placeholders (jobsBody w) <= 1 ->
      renderJob job (exec (renderJob job) w)
      = (outcome (renderJob job) w, exec (renderJob job) w)).
Proof.
  intros Hplain Htidy.
  destruct (@rendered_twice (browser w) job (jobsBody w) Hplain Htidy) as [Ht Ho].
  assert (Hw1 : exec (renderJob job) w = with_jobsBody (rendered (browser w) job) w).
  { unfold exec. now rewrite renderJob_run. }
  assert (H1 : exec (renderJob job) (exec (renderJob job) w)
               = with_jobsBody remove_empty_row (exec (renderJob job) w)).
  { rewrite Hw1. unfold exec. rewrite renderJob_run. cbn [snd].
    unfold with_jobsBody. cbn. now rewrite Ht. }
  assert (H2 : outcome (renderJob job) (exec (renderJob job) w)
               = outcome (renderJob job) w).
  { rewrite Hw1. unfold outcome. rewrite !renderJob_run. cbn [fst].
    exact Ho. }
  split; [exact H1|]. split; [exact H2|]. intros Hp.
  assert (H0 : placeholders (jobsBody (exec (renderJob job) w)) = 0).
  { rewrite Hw1. cbn [jobsBody with_jobsBody].
    rewrite (@placeholders_rendered (browser w) job (jobsBody w) Hplain Htidy). lia. }
  assert (H3 : exec (renderJob job) (exec (renderJob job) w) = exec (renderJob job) w).
  { rewrite H1. apply with_jobsBody_same. now apply remove_empty_none. }
  unfold outcome, exec in *.
  destruct (renderJob job (snd (renderJob job w))) as [r1 w1]. simpl in *.
  now rewrite H2, H3.
Qed.

(** ** The download link *)

Lemma decode_char (c : ascii) (t : string) :
  percent_decode
    ((if Str.uri_unreserved c then String c EmptyString else Str.percent_encode c) ++ t)
  = String c (percent_decode t).
Proof. destruct c as [[] [] [] [] [] [] [] []]; reflexivity. Qed.

Lemma percent_decode_encode (s : string) :
  percent_decode (Str.encodeURIComponent s) = s.
Proof.
  induction s as [|c r IH]; simpl; [reflexivity|].
  now rewrite decode_char, IH.
Qed.

Lemma before_quote_app (e t : string) :
  Str.all_chars url_safe e = true ->
  before_quote (e ++ String "034" t) = e.
Proof.
  induction e as [|c r IH]; simpl; [reflexivity|].
  intros H. apply andb_true_iff in H as [Hc Hr].
  now rewrite (url_safe_not_quote _ Hc), IH.
Qed.

(** X3. The identifier cannot break out of the download link: the part of
    the link that comes from the identifier consists of unreserved URI
    characters and percent signs only, so it holds no double quote, angle
    bracket, ampersand, space or slash; and the link determines the identifier's
    text: decoding that part gives the text back, so jobs whose identifiers
    differ as text have different links. *)
Theorem download_link_safe_and_distinct (id : value) :
  Str.all_chars url_safe (Str.encodeURIComponent (ToString id)) = true
  /\ Forall (fun c => url_safe c = false)
       ["034"; "<"; ">"; "&"; " "; "/"; "\"; "?"; "#"; "="]%char
  /\ percent_decode (Str.encodeURIComponent (ToString id)) = ToString id
  /\ (forall id', download_link id = download_link id' -> ToString id = ToString id').
Proof.
  split; [apply encodeURIComponent_safe|]. split.
  { repeat constructor. }
  split; [apply percent_decode_encode|].
  intros id' H. unfold download_link in H. simpl in H.
  injection H as H. apply (f_equal before_quote) in H.
  rewrite !before_quote_app in H by apply encodeURIComponent_safe.
  apply (f_equal percent_decode) in H.
  now rewrite !percent_decode_encode in H.
Qed.

(** ** Seeding from the server-rendered rows *)

Lemma forM_seedRow_cons (r : Row) (rows : list Row) (w : World) :
  exec (forM (r :: rows) seedRow) w = exec (forM rows seedRow) (exec (seedRow r) w).
Proof. unfold exec. simpl. unfold bind. now rewrite seedRow_run. Qed.

Lemma seedRow_browser (r : Row) (w : World) : browser (exec (seedRow r) w) = browser w.
Proof.
  unfold exec. rewrite seedRow_run. cbn [snd].
  now destruct (truthy (VStr (data_job_id r))).
Qed.

Lemma seedRow_get (r : Row) (k : value) (w : World) :
  JSMap.get k (jobs (exec (seedRow r) w))
  = if seeds k r then Some (seeded (browser w) r) else JSMap.get k (jobs w).
Proof.
  unfold exec, seeds. rewrite seedRow_run. cbn [snd].
  destruct (truthy (VStr (data_job_id r))); [|reflexivity].
  cbn [andb jobs with_jobs].
  destruct (value_eqb (VStr (data_job_id r)) k) eqn:E.
  - apply value_eqb_eq in E. subst k. apply get_set_same.
  - apply value_eqb_neq in E. apply get_set_other. congruence.
Qed.

Lemma find_snoc {A} (p : A -> bool) (l : list A) (x : A) :
  find p (l ++ [x])%list
  = match find p l with
    | Some y => Some y
    | None => if p x then Some x else None
    end.
Proof.
  induction l as [|y l IH]; simpl; [reflexivity|].
  destruct (p y); [reflexivity | exact IH].
Qed.

Lemma forM_seedRow_frame_ex (rows : list Row) (w : World) :
  exists m, exec (forM rows seedRow) w = with_jobs (fun _ => m) w.
Proof.
  revert w. induction rows as [|r rows IH]; intros w.
  - exists (jobs w). now destruct w.
  - rewrite forM_seedRow_cons. destruct (IH (exec (seedRow r) w)) as [m Hm].
    rewrite Hm. exists m. unfold exec. rewrite seedRow_run. cbn [snd].
    destruct (truthy (VStr (data_job_id r))); now destruct w.
Qed.

Lemma forM_seedRow_frame (rows : list Row) (w : World) :
  exec (forM rows seedRow) w
  = with_jobs (fun _ => jobs (exec (forM rows seedRow) w)) w.
Proof.
  destruct (forM_seedRow_frame_ex rows w) as [m Hm]. rewrite Hm. now destruct w.
Qed.

Lemma forM_seedRow_get (rows : list Row) (k : value) (w : World) :
  JSMap.get k (jobs (exec (forM rows seedRow) w))
  = match find (seeds k) (rev rows) with
    | Some r => Some (seeded (browser w) r)
    | None => JSMap.get k (jobs w)
    end.
Proof.
  revert w. induction rows as [|r rows IH]; intros w; [reflexivity|].
  rewrite forM_seedRow_cons, IH, seedRow_browser. simpl rev. rewrite find_snoc.
  destruct (find (seeds k) (rev rows)); [reflexivity|].
  rewrite seedRow_get. now destruct (seeds k r).
Qed.

Lemma forM_seedRow_empty (rows : list Row) (w : World) :
  jobs (exec (forM rows seedRow) w) = []
  <-> jobs w = [] /\ Forall (fun r => data_job_id r = EmptyString) rows.
Proof.
  revert w. induction rows as [|r rows IH]; intros w.
  - simpl. split; [intros H; split; [exact H | constructor] | tauto].
  - rewrite forM_seedRow_cons, IH. unfold exec at 1. rewrite seedRow_run. cbn [snd].
    destruct (data_job_id r) as [|c t] eqn:E; simpl.
    + split; intros [H1 H2]; (split; [exact H1|]).
      * now constructor.
      * now inversion H2.
    + split.
      * intros [H _]. exfalso. exact (set_not_empty _ _ _ H).
      * intros [_ H]. inversion H as [|? ? Hr _]. congruence.
Qed.

(** X4. [seedExistingJobs] tracks exactly the rows its selector finds
    that have a non-empty [data-job-id]; in a tidy table these are the job
    rows of the table, in document order.  After it the map holds, under
    each such identifier, the record of the last row carrying it, with the
    trimmed texts of its name and status cells ([undefined] for a cell the
    row does not have), and under every other key what it held before; the
    text of a cell the server rendered as ASCII text is trimmed of the six
    ASCII white-space characters; the table, the form, the status text, the
    indicator and the console are untouched.  On a freshly loaded page the
    timer is set exactly when some row has a non-empty identifier, and then
    it is the only timer. *)
Theorem seedExistingJobs_tracks_rows (w : World) :
  let rows := existing_rows (browser w) (jobsBody w) in
  let w' := exec seedExistingJobs w in
  outcome seedExistingJobs w = Ok tt
  /\ (tidy (jobsBody w) = true -> rows = job_rows (jobsBody w))
  /\ (forall k,
        JSMap.get k (jobs w')
        = match find (seeds k) (rev rows) with
          | Some r =>
              Some (Job.mk (VStr (data_job_id r)) (trimmed (browser w) (job_name r))
                      (trimmed (browser w) (job_status r)))
          | None => JSMap.get k (jobs w)
          end)
  /\ (forall s, Str.is_ascii s = true ->
        trimmed (browser w) (Some (Text s)) = VStr (Str.trim_ascii s))
  /\ trimmed (browser w) None = VUndefined
  /\ jobsBody w' = jobsBody w /\ uploadForm w' = uploadForm w
  /\ uploadStatusEl w' = uploadStatusEl w /\ console w' = console w
  /\ pollingIndicator w' = pollingIndicator w
  /\ (jobs w = [] -> pollerId w = None -> timers w = [] ->
      (pollerId w' <> None <-> exists r, In r rows /\ data_job_id r <> EmptyString)
      /\ timers w'
         = match pollerId w' with
           | Some h => [mkTimer h CallPollAllJobs POLL_INTERVAL_MS]
           | None => []
           end).
Proof.
  intros rows w'.
  assert (Ho : outcome seedExistingJobs w = Ok tt)
    by (unfold outcome; now rewrite seedExistingJobs_run).
  assert (Hw' : w' = let w1 := exec (forM rows seedRow) w in
                     if (0 <? JSMap.size (jobs w1))%nat
                     then exec startPolling w1 else w1)
    by (unfold w', exec at 1; now rewrite seedExistingJobs_run).
  cbv zeta in Hw'. clearbody w'.
  set (w1 := exec (forM rows seedRow) w) in *.
  assert (Hw1 : w1 = with_jobs (fun _ => jobs w1) w) by apply forM_seedRow_frame.
  assert (Hget : forall k, JSMap.get k (jobs w1)
                 = match find (seeds k) (rev rows) with
                   | Some r => Some (seeded (browser w) r)
                   | None => JSMap.get k (jobs w)
                   end) by (intros k; apply forM_seedRow_get).
  assert (Hempty : jobs w1 = []
                   <-> jobs w = [] /\ Forall (fun r => data_job_id r = EmptyString) rows)
    by apply forM_seedRow_empty.
  assert (Hf1 : jobsBody w1 = jobsBody w /\ uploadForm w1 = uploadForm w
                /\ uploadStatusEl w1 = uploadStatusEl w /\ console w1 = console w
                /\ pollingIndicator w1 = pollingIndicator w
                /\ pollerId w1 = pollerId w /\ timers w1 = timers w)
    by (rewrite Hw1; repeat split).
  destruct Hf1 as (Hb1 & Hu1 & Hs1 & Hc1 & Hi1 & Hp1 & Ht1).
  assert (Hrows : tidy (jobsBody w) = true -> rows = job_rows (jobsBody w))
    by (unfold rows, existing_rows; now intros ->).
  clearbody w1 rows. split; [exact Ho|]. split; [exact Hrows|].
  assert (Htrim : forall s, Str.is_ascii s = true ->
            trimmed (browser w) (Some (Text s)) = VStr (Str.trim_ascii s)).
  { intros s Hs. simpl. now rewrite (trim_ascii_text _ _ Hs). }
  destruct (0 <? JSMap.size (jobs w1))%nat eqn:Hn; subst w'.
  - destruct (startPolling_frame w1) as (Hj & Hb & Hf & Hu & Hc & Hi).
    cbv zeta in *. rewrite Hj, Hb, Hf, Hu, Hc, Hi.
    split; [exact Hget|]. split; [exact Htrim|]. split; [reflexivity|].
    repeat (split; [assumption|]).
    intros Hj0 Hp0 Ht0. unfold exec. rewrite startPolling_run. cbn [snd].
    apply Nat.ltb_lt in Hn.
    assert (Hne : (JSMap.size (jobs w1) =? 0)%nat = false) by (apply Nat.eqb_neq; lia).
    rewrite Hp1, Hp0, Hne. cbn. rewrite Ht1, Ht0.
    split; [|reflexivity]. split; [intros _ | discriminate].
    destruct (Forall_Exists_dec (fun r => data_job_id r = EmptyString)
                (fun r => string_dec (data_job_id r) EmptyString) rows) as [Hall|Hex].
    + exfalso. assert (H0 : jobs w1 = []) by (apply Hempty; auto).
      rewrite H0 in Hn. simpl in Hn. lia.
    + apply Exists_exists in Hex. exact Hex.
  - split; [exact Hget|]. split; [exact Htrim|]. split; [reflexivity|].
    repeat (split; [assumption|]).
    intros Hj0 Hp0 Ht0. rewrite Hp1, Ht1, Hp0, Ht0. split; [|reflexivity].
    split; [congruence|]. intros (r & Hin & Hr). exfalso.
    apply Nat.ltb_ge in Hn. assert (H0 : jobs w1 = []).
    { destruct (jobs w1); [reflexivity | simpl in Hn; lia]. }
    apply Hempty in H0 as [_ Hall]. rewrite Forall_forall in Hall. auto.
Qed.

(** ** Outcomes of an upload *)

Lemma upload_job_error (fd : FormData) (o : FetchOutcome) :
  match upload_job fd o, upload_error fd o with
  | Some job, None =>
      exists st p, o = Responded (mkResponse st (BodyObject p)) /\ job = uploaded p fd
  | None, Some _ => True
  | _, _ => False
  end.
Proof.
  unfold upload_job, upload_error. destruct o as [e|[st b]]; [exact I|].
  destruct (ok (mkResponse st b)); [|exact I]. cbn [body].
  destruct b as [e| |p]; try exact I.
  destruct (truthy (Job.id (uploaded p fd))); [|exact I].
  exists st, p. split; reflexivity.
Qed.

Lemma upload_rejected_run (fd : FormData) (o : FetchOutcome) (w : World) :
  upload_job fd o = None ->
  exists e, upload_error fd o = Some e
            /\ exec (handleUpload_resume fd o) w = upload_failed e w.
Proof.
  intros Hj. pose proof (upload_job_error fd o) as H. rewrite Hj in H.
  destruct (upload_error fd o) as [e|] eqn:He; [|contradiction].
  exists e. split; [reflexivity|].
  unfold exec. now rewrite handleUpload_resume_run, He.
Qed.

Lemma upload_job_run (fd : FormData) (o : FetchOutcome) (job : Job.t) (w : World) :
  upload_job fd o = Some job ->
  exec (handleUpload_resume fd o) w = upload_settled job w.
Proof.
  intros Hj. pose proof (upload_job_error fd o) as H. rewrite Hj in H.
  destruct (upload_error fd o) as [e|] eqn:He; [contradiction|].
  destruct H as (st & p & -> & ->).
  unfold exec. now rewrite handleUpload_resume_run, He.
Qed.

Lemma startPolling_sticky (w : World) :
  (forall h, pollerId w = Some h -> pollerId (exec startPolling w) = Some h)
  /\ (jobs w <> [] -> pollerId (exec startPolling w) <> None)
  /\ (exists l, timers (exec startPolling w) = (timers w ++ l)%list).
Proof.
  unfold exec. rewrite startPolling_run. cbn [snd].
  destruct (pollerId w) as [h|] eqn:Hp; cbn.
  - split; [intros h' [= <-]; exact Hp|]. split; [now rewrite Hp|].
    exists []. now rewrite app_nil_r.
  - split; [discriminate|].
    destruct (JSMap.size (jobs w) =? 0)%nat eqn:Hn.
    + split; [|exists []; now rewrite app_nil_r].
      intros Hne. exfalso. apply Hne. apply Nat.eqb_eq in Hn.
      now apply length_zero_iff_nil.
    + split; [discriminate|]. eexists. reflexivity.
Qed.

Lemma upload_done_polling (job : Job.t) (w : World) :
  (forall h, pollerId w = Some h -> pollerId (upload_done job w) = Some h)
  /\ pollerId (upload_done job w) <> None
  /\ (exists l, timers (upload_done job w) = (timers w ++ l)%list).
Proof.
  unfold upload_done.
  match goal with |- context [exec startPolling ?x] =>
    destruct (startPolling_sticky x) as (H1 & H2 & H3) end.
  split; [exact H1|]. split; [|exact H3].
  apply H2. simpl. apply set_not_empty.
Qed.

(** X5. An upload ends in one of three ways, whatever the page's state
    when the request settles; in all of them the handler ends without an
    exception and with the button enabled.  When the response does not pass
    the three checks (the request is rejected, the status is outside
    200..299, the body is not JSON, is [null], or has no identifier), the
    status text is [Error: ] followed by the error's message, that error is
    the one entry added to the console, the chosen file stays in the form,
    and the map, the job table, [pollerId] and the timers are as they were.
    When it passes them, the job is stored and [renderJob] has run; if
    [renderJob] ended normally, the status text reports success, the form is
    reset, nothing is logged and [pollerId] is set; if it threw, the status
    text is [Error: ] followed by that error's message, the error is logged,
    the chosen file stays in the form, and [pollerId] and the timers are as
    they were, so a job can be tracked with no timer running.  For a plain
    job and a tidy table with no row under its identifier, or one with its
    three cells, [renderJob] ends normally. *)
Theorem upload_three_outcomes
  (w : World) (form : Form) (fd : FormData) (o : FetchOutcome) :
  uploadForm w = Some form ->
  let w' := exec (handleUpload_resume fd o) w in
  outcome (handleUpload_resume fd o) w = Ok tt
  /\ (exists form',
        uploadForm w' = Some form'
        /\ submit_disabled form' = option_map (fun _ => false) (submit_disabled form))
  /\ (upload_job fd o = None ->
      (exists e,
          uploadStatusEl w' = "Error: " ++ message e
          /\ console w' = (console w ++ [(None, e)])%list)
      /\ uploadForm w' = Some (form_after false form)
      /\ jobs w' = jobs w
      /\ jobsBody w' = jobsBody w
      /\ pollerId w' = pollerId w
      /\ timers w' = timers w)
  /\ (forall job, upload_job fd o = Some job ->
      jobs w' = JSMap.set (Job.id job) job (jobs w)
      /\ jobsBody w' = rendered (browser w) job (jobsBody w)
      /\ (outcome (renderJob job) w = Ok tt ->
          uploadStatusEl w' = upload_ok_text
          /\ uploadForm w' = Some (form_after true form)
          /\ console w' = console w
          /\ pollerId w' <> None)
      /\ (forall e, outcome (renderJob job) w = Throw e ->
          uploadStatusEl w' = "Error: " ++ message e
          /\ console w' = (console w ++ [(None, e)])%list
          /\ uploadForm w' = Some (form_after false form)
          /\ pollerId w' = pollerId w
          /\ timers w' = timers w)
      /\ (plain (browser w) job = true -> tidy (jobsBody w) = true ->
          row_ready (ToString (Job.id job)) (jobsBody w) = true ->
          outcome (renderJob job) w = Ok tt)).
Proof.
  intros Hf w'.
  split; [unfold outcome; now rewrite handleUpload_resume_run|].
  split; [now apply resume_enables_submit|].
  split.
  - intros Hj. destruct (@upload_rejected_run fd o w Hj) as (e & _ & Hw). subst w'.
    rewrite Hw. split; [exists e; split; reflexivity|].
    split; [|repeat split]. simpl. now rewrite Hf.
  - intros job Hj. subst w'. rewrite (@upload_job_run fd o job w Hj).
    assert (Hout : outcome (renderJob job) w
                   = render_outcome (browser w) job (jobsBody w)).
    { unfold outcome. now rewrite renderJob_run. }
    rewrite Hout. split; [apply upload_settled_jobs|].
    unfold upload_settled.
    destruct (render_outcome (browser w) job (jobsBody w)) as [[]|x] eqn:Hr.
    + destruct (upload_done_frame job w) as (Hb & Hs & Hc & Hform).
      destruct (upload_done_polling job w) as (_ & Hp & _).
      cbv zeta in *. rewrite Hb, Hs, Hc, Hform, Hf.
      split; [reflexivity|]. split; [repeat split; assumption|].
      split; [discriminate|]. intros _ _ _. reflexivity.
    + split; [reflexivity|]. split; [discriminate|]. split.
      * intros e [= <-]. simpl. rewrite Hf. repeat split.
      * intros Hplain Htidy Hready. exfalso.
        assert (Hjob : job_ok job).
        { pose proof (upload_job_error fd o) as H. rewrite Hj in H.
          destruct (upload_error fd o) as [e|] eqn:He; [contradiction|].
          destruct H as (st & p & -> & ->).
          apply upload_error_none in He as (st' & p' & [= <- <-] & _ & Hid).
          now apply uploaded_ok. }
        destruct (@renderStatusBadge_ok (browser w) (Job.status job) (proj2 Hjob))
          as [badge Hb].
        destruct (@rendered_row (browser w) job badge (jobsBody w) Hplain Htidy Hready Hb)
          as [Hok _].
        congruence.
Qed.

Lemma uploaded_filename_string (p : Payload.t) (fd : FormData) :
  exists s, Job.filename (uploaded p fd) = VStr s /\ s <> EmptyString.
Proof.
  assert (H : truthy (Job.filename (uploaded p fd)) = true).
  { unfold uploaded, js_or. simpl.
    destruct (truthy (Payload.filename p)) eqn:E1; [now rewrite E1|].
    destruct (truthy (file_name fd)) eqn:E2; [exact E2 | reflexivity]. }
  exact (truthy_VStr _ H).
Qed.

Lemma uploaded_status_truthy (p : Payload.t) (fd : FormData) :
  exists s, Job.status (uploaded p fd) = VStr s /\ s <> EmptyString.
Proof.
  assert (H : truthy (Job.status (uploaded p fd)) = true).
  { unfold uploaded, js_or. simpl.
    destruct (truthy (Payload.status p)) eqn:E1; [exact E1 | reflexivity]. }
  exact (truthy_VStr _ H).
Qed.

Lemma upload_accepted_run (fd : FormData) (r : Response) (p : Payload.t) (w : World) :
  ok r = true -> body r = BodyObject p ->
  truthy (Payload.job_id p ||| Payload.id p) = true ->
  exec (handleUpload_resume fd (Responded r)) w = upload_settled (uploaded p fd) w.
Proof.
  intros Hok Hbody Hid. apply upload_job_run.
  unfold upload_job. rewrite Hok, Hbody.
  change (Job.id (uploaded p fd)) with (Payload.job_id p ||| Payload.id p).
  now rewrite Hid.
Qed.

(** X6. An accepted upload of a plain job shows its job, when the table
    is tidy and has no row under the job's identifier or one with its three
    cells.
    After the handler the table has a row under the identifier whose name
    cell is the job's filename, which is a non-empty string and never the
    dash placeholder, whose status cell is the badge of the job's status, a
    non-empty string too, and whose download cell is the link or the
    placeholder for that status.  When the table had no row under that
    identifier, the new row is the first row of the table and one
    placeholder row is gone; every row under another identifier is as it
    was. *)
Theorem upload_success_shows_job
  (w : World) (fd : FormData) (r : Response) (p : Payload.t) :
  ok r = true -> body r = BodyObject p ->
  truthy (Payload.job_id p ||| Payload.id p) = true ->
  plain (browser w) (uploaded p fd) = true -> tidy (jobsBody w) = true ->
  row_ready (ToString (Job.id (uploaded p fd))) (jobsBody w) = true ->
  let job := uploaded p fd in
  let a := ToString (Job.id job) in
  let w' := exec (handleUpload_resume fd (Responded r)) w in
  exists name status badge,
    Job.filename job = VStr name /\ name <> EmptyString
    /\ Job.status job = VStr status /\ status <> EmptyString
    /\ renderStatusBadge (browser w) (VStr status) = Ok badge
    /\ (exists row,
          row_of a w' = Some row
          /\ job_name row = Some (Text name)
          /\ job_status row = Some (Html badge)
          /\ job_download row = Some (Html (renderDownloadLink (browser w) job)))
    /\ (row_of a w = None ->
        jobsBody w'
        = JobRow (mkRow a (Some (Html a)) (Some (Text name)) (Some (Html badge))
                    (Some (Html (renderDownloadLink (browser w) job))))
            :: remove_empty_row (jobsBody w))
    /\ (forall b, b <> a -> row_of b w' = row_of b w).
Proof.
  intros Hok Hbody Hid Hplain Htidy Hready job a w'.
  destruct (uploaded_filename_string p fd) as (name & Hname & Hne).
  destruct (uploaded_status_truthy p fd) as (status & Hstatus & Hse).
  fold job in Hname, Hstatus, Hplain, Hready.
  destruct (@renderStatusBadge_ok (browser w) (VStr status)) as [badge Hbadge];
    [discriminate|].
  exists name, status, badge.
  assert (Hbadge' : renderStatusBadge (browser w) (Job.status job) = Ok badge)
    by now rewrite Hstatus.
  destruct (@rendered_row (browser w) job badge (jobsBody w) Hplain Htidy Hready Hbadge')
    as (Hout & row & Hrow & _ & Hn & Hs & Hd).
  assert (Hb : jobsBody w' = rendered (browser w) job (jobsBody w)).
  { unfold w'. rewrite (@upload_accepted_run fd r p w Hok Hbody Hid).
    unfold upload_settled. fold job. rewrite Hout.
    destruct (upload_done_frame job w) as (H & _). exact H. }
  assert (Hshown : ToString (Job.filename job ||| VStr dash) = name).
  { rewrite Hname. unfold js_or. simpl. destruct name; [contradiction | reflexivity]. }
  clearbody job w'.
  split; [exact Hname|]. split; [exact Hne|].
  split; [exact Hstatus|]. split; [exact Hse|]. split; [exact Hbadge|].
  split; [|split].
  - exists row. unfold row_of. rewrite Hb. split; [exact Hrow|].
    split; [|split; assumption]. now rewrite Hn, Hshown.
  - unfold row_of. intros Hq.
    rewrite Hb, (proj1 (@rendered_plain (browser w) job (jobsBody w) Hplain Htidy)).
    unfold upserted. fold a. rewrite Hq.
    cbn [update_row new_row data_job_id]. fold a. rewrite String.eqb_refl.
    f_equal. f_equal.
    rewrite (@written_ok (browser w) job badge (new_row job) eq_refl Hbadge').
    cbn [snd]. rewrite Hshown. reflexivity.
  - intros b Hne'. unfold row_of. rewrite Hb. now apply rendered_other_row.
Qed.

(** X7. An accepted upload is an insert or an overwrite, never more.  When
    the map has no entry under the job's identifier, the identifier is
    added after the existing keys and the map grows by one; when it has
    one, the keys and the size stay as they are and the record is replaced.
    In both cases every other key keeps its record. *)
Theorem upload_success_store
  (w : World) (fd : FormData) (r : Response) (p : Payload.t) :
  ok r = true -> body r = BodyObject p ->
  truthy (Payload.job_id p ||| Payload.id p) = true ->
  let job := uploaded p fd in
  let w' := exec (handleUpload_resume fd (Responded r)) w in
  JSMap.get (Job.id job) (jobs w') = Some job
  /\ (~ In (Job.id job) (JSMap.keys (jobs w)) ->
      JSMap.keys (jobs w') = (JSMap.keys (jobs w) ++ [Job.id job])%list
      /\ JSMap.size (jobs w') = S (JSMap.size (jobs w)))
  /\ (In (Job.id job) (JSMap.keys (jobs w)) ->
      JSMap.keys (jobs w') = JSMap.keys (jobs w)
      /\ JSMap.size (jobs w') = JSMap.size (jobs w))
  /\ (forall k, k <> Job.id job -> JSMap.get k (jobs w') = JSMap.get k (jobs w)).
Proof.
  intros Hok Hbody Hid job w'.
  assert (Hj : jobs w' = JSMap.set (Job.id job) job (jobs w)).
  { unfold w'. rewrite (@upload_accepted_run fd r p w Hok Hbody Hid).
    apply upload_settled_jobs. }
  rewrite Hj. split; [apply get_set_same|]. split; [|split].
  - intros Hnin. pose proof (@keys_set_notin _ (jobs w) (Job.id job) job Hnin) as Hk.
    split; [exact Hk|]. unfold JSMap.size.
    rewrite <- !(length_map fst). fold (JSMap.keys (JSMap.set (Job.id job) job (jobs w))).
    fold (JSMap.keys (jobs w)). rewrite Hk, length_app. simpl. lia.
  - intros Hin. split; [now apply keys_set_in | now apply size_set_in].
  - intros k Hk. now apply get_set_other.
Qed.

(** ** The running page *)

(** X8. In every state the page can reach, the map is well formed: keys
    are unique, each is a non-empty string, each record carries its key as
    identifier, and no status is [null].  So [renderStatusBadge] never
    throws on the status of a tracked record, in any browser, and
    [renderJob] on a tracked record that is plain ends normally on every
    tidy table that has no row under the identifier or one with its three
    cells. *)
Theorem reachable_jobs_renderable (s : System) (k : value) (job : Job.t) :
  reachable s -> JSMap.get k (jobs (world s)) = Some job ->
  NoDup (JSMap.keys (jobs (world s)))
  /\ Job.id job = k
  /\ (exists t, k = VStr t /\ t <> EmptyString)
  /\ Job.status job <> VNull
  /\ (forall e, exists badge, renderStatusBadge e (Job.status job) = Ok badge)
  /\ (forall w, plain (browser w) job = true -> tidy (jobsBody w) = true ->
        row_ready (ToString k) (jobsBody w) = true ->
        outcome (renderJob job) w = Ok tt).
Proof.
  intros Hr Hget. apply reachable_invariant in Hr as [_ Hs _].
  destruct (@store_ok_get _ _ _ Hs Hget) as (Hid & Ht & Hst).
  split; [apply Hs|]. split; [exact Hid|]. split; [|split; [exact Hst|split]].
  - apply truthy_VStr. congruence.
  - intros e. now apply renderStatusBadge_ok.
  - intros w Hplain Htidy Hready. rewrite <- Hid in Hready.
    unfold outcome. rewrite renderJob_run. cbn [fst].
    destruct (@renderStatusBadge_ok (browser w) (Job.status job) Hst) as [badge Hb].
    exact (proj1 (@rendered_row (browser w) job badge (jobsBody w) Hplain Htidy Hready Hb)).
Qed.

Lemma upload_settled_polling (job : Job.t) (w : World) :
  (forall h, pollerId w = Some h -> pollerId (upload_settled job w) = Some h)
  /\ (exists l, timers (upload_settled job w) = (timers w ++ l)%list)
  /\ (exists l, console (upload_settled job w) = (console w ++ l)%list).
Proof.
  unfold upload_settled.
  destruct (render_outcome (browser w) job (jobsBody w)).
  - destruct (upload_done_polling job w) as (H1 & _ & H3).
    destruct (upload_done_frame job w) as (_ & _ & Hc & _). cbv zeta in Hc.
    split; [exact H1|]. split; [exact H3|]. exists []. now rewrite Hc, app_nil_r.
  - split; [auto|]. split; [exists []; simpl; now rewrite app_nil_r|].
    eexists. reflexivity.
Qed.

Lemma pollJob_console (job : Job.t) (o : FetchOutcome) (w : World) :
  console (exec (pollJob job o) w)
  = (console w
     ++ match poll_update job o with
        | Some u =>
            match render_outcome (browser w) u (jobsBody w) with
            | Ok _ => []
            | Throw e => [(poll_label, e)]
            end
        | None => [(poll_label, poll_error o)]
        end)%list.
Proof.
  unfold exec. rewrite pollJob_run. cbn [snd].
  destruct (poll_update job o) as [u|]; [|reflexivity].
  cbv zeta. destruct (render_outcome (browser w) u (jobsBody w)).
  - simpl. now rewrite app_nil_r.
  - reflexivity.
Qed.

(** X9. In every state the page can reach, a timer is set only when the
    map is not empty.  So whenever the timer fires there is at least one job
    to poll: the early return of [pollAllJobs] on an empty map is never
    taken by a tick, and every tick starts one request per tracked job. *)
Theorem reachable_timer_implies_tracked (s : System) :
  reachable s ->
  (pollerId (world s) <> None -> jobs (world s) <> [])
  /\ (forall t, In t (timers (world s)) ->
        JSMap.values (jobs (world s)) <> []
        /\ ticks (tick s) = (ticks s ++ [JSMap.values (jobs (world s))])%list).
Proof.
  intros Hr.
  assert (Himp : pollerId (world s) <> None -> jobs (world s) <> []).
  { induction Hr as [e form st body ind | s s' Hr IH Hstep].
    - unfold boot, exec. rewrite seedExistingJobs_run. cbn [snd world].
      destruct (forM_seedRow (existing_rows e body)
                  (initial e form st body ind)) as (_ & _ & Hp & _).
      cbv zeta in *. set (w1 := exec (forM _ seedRow) _) in *.
      simpl in Hp.
      destruct (0 <? JSMap.size (jobs w1))%nat eqn:Hn.
      + apply Nat.ltb_lt in Hn. intros _.
        destruct (startPolling_frame w1) as (Hj & _). cbv zeta in Hj. rewrite Hj.
        intros H0. rewrite H0 in Hn. simpl in Hn. lia.
      + intros H. now rewrite Hp in H.
    - destruct Hstep as [s Hform | s us1 fd us2 o Hu | s t Hin
                        | s ts1 l1 job l2 ts2 o Hts | s ts1 ts2 Hts].
      + unfold submit.
        pose proof (handleUpload_begin_frame (world s)) as (Hj & Hp & _).
        destruct (handleUpload_begin (world s)) as [[[fd|]|e] w]; simpl in *;
          now rewrite Hj, Hp.
      + cbn [world]. unfold exec. rewrite handleUpload_resume_run. cbn [snd].
        destruct (upload_error fd o) as [e|] eqn:He; [exact IH|].
        apply upload_error_none in He as (st & p & -> & _ & _).
        rewrite upload_settled_jobs. intros _. apply set_not_empty.
      + unfold tick, pollAllJobs_begin, bind, read. simpl.
        destruct (JSMap.size (jobs (world s)) =? 0)%nat; simpl; [exact IH|].
        destruct (JSMap.values (jobs (world s))); exact IH.
      + cbn [world]. destruct (pollJob_frame job o (world s)) as (Hp & _).
        rewrite Hp, pollJob_jobs.
        destruct (poll_update job o) as [u|]; [|exact IH].
        intros _. apply set_not_empty.
      + exact IH. }
  split; [exact Himp|]. intros t Hin.
  pose proof (reachable_invariant Hr) as [Ht _ _].
  assert (Hne : jobs (world s) <> []).
  { apply Himp. intros H. unfold timer_ok in Ht. rewrite H in Ht.
    rewrite Ht in Hin. contradiction. }
  assert (Hv : JSMap.values (jobs (world s)) <> []).
  { unfold JSMap.values. destruct (jobs (world s)); [contradiction | discriminate]. }
  split; [exact Hv|].
  assert (Hn : (JSMap.size (jobs (world s)) =? 0)%nat = false).
  { apply Nat.eqb_neq. intros H. apply Hne. now apply length_zero_iff_nil. }
  unfold tick, pollAllJobs_begin, bind, read, set_indicator, modify. cbn.
  rewrite Hn. cbn. unfold JSMap.values in *.
  destruct (map snd (jobs (world s))) eqn:E; [contradiction | reflexivity].
Qed.

(** X10. Nothing the page does is undone by a later step: a key of the
    map stays a key, [pollerId] once set keeps its value, the timers and
    the console only grow at their ends.  The script never removes a job,
    never clears or replaces its timer, never clears its log. *)
Theorem step_never_undoes (s s' : System) :
  step s s' ->
  (forall k, In k (JSMap.keys (jobs (world s))) -> In k (JSMap.keys (jobs (world s'))))
  /\ (forall h, pollerId (world s) = Some h -> pollerId (world s') = Some h)
  /\ (exists l, timers (world s') = (timers (world s) ++ l)%list)
  /\ (exists l, console (world s') = (console (world s) ++ l)%list).
Proof.
  intros Hstep.
  assert (Hnil : forall A (l : list A), exists l', l = (l ++ l')%list)
    by (intros A l; exists []; now rewrite app_nil_r).
  destruct Hstep as [s Hform | s us1 fd us2 o Hu | s t Hin
                    | s ts1 l1 job l2 ts2 o Hts | s ts1 ts2 Hts].
  - unfold submit.
    pose proof (handleUpload_begin_frame (world s)) as (Hj & Hp & Ht & _ & Hc).
    destruct (handleUpload_begin (world s)) as [[[fd|]|e] w]; simpl in *;
      rewrite Hj, Hp, Ht, Hc; auto.
  - cbn [world]. unfold exec. rewrite handleUpload_resume_run. cbn [snd].
    destruct (upload_error fd o) as [e|] eqn:He.
    + split; [auto|]. split; [auto|]. split; [apply Hnil|]. eexists. reflexivity.
    + apply upload_error_none in He as (st & p & -> & _ & _).
      destruct (upload_settled_polling (uploaded p fd) (world s)) as (H1 & H3 & H4).
      rewrite upload_settled_jobs.
      split; [|split; [exact H1 | split; [exact H3 | exact H4]]].
      intros k Hk. apply in_keys_set. now right.
  - unfold tick, pollAllJobs_begin, bind, read. simpl.
    destruct (JSMap.size (jobs (world s)) =? 0)%nat; simpl; [auto|].
    destruct (JSMap.values (jobs (world s))); simpl; auto.
  - cbn [world]. destruct (pollJob_frame job o (world s)) as (Hp & Ht & _).
    rewrite Hp, Ht, pollJob_jobs, pollJob_console.
    split; [|split; [auto | split; [apply Hnil | eexists; reflexivity]]].
    intros k Hk. destruct (poll_update job o); [|exact Hk].
    apply in_keys_set. now right.
  - simpl. auto.
Qed.

(** ** Ticks, as a whole *)

Lemma assoc_ext (m m' : JSMap.t Job.t) :
  JSMap.keys m = JSMap.keys m' -> NoDup (JSMap.keys m) ->
  (forall k, JSMap.get k m = JSMap.get k m') -> m = m'.
Proof.
  revert m'. induction m as [|[k v] r IH]; intros [|[k' v'] r']; simpl;
    try discriminate; [reflexivity|].
  intros [= <- Hk] Hnd Hget. inversion Hnd as [|? ? Hnin Hnd']; subst.
  pose proof (Hget k) as Hkk. rewrite value_eqb_refl in Hkk. injection Hkk as <-.
  f_equal. apply IH; [exact Hk | exact Hnd'|].
  intros k0. specialize (Hget k0).
  destruct (value_eqb k k0) eqn:E; [|exact Hget].
  apply value_eqb_eq in E. subst k0.
  assert (H1 : JSMap.get k r = None).
  { destruct (JSMap.get k r) eqn:G; [|reflexivity].
    exfalso. apply Hnin. exact (get_in_keys _ _ G). }
  assert (H2 : JSMap.get k r' = None).
  { destruct (JSMap.get k r') eqn:G; [|reflexivity].
    exfalso. apply Hnin. fold (JSMap.keys r). rewrite Hk. exact (get_in_keys _ _ G). }
  now rewrite H1, H2.
Qed.

Lemma nodup_map_unique {A B} (f : A -> B) (l : list A) (a b : A) :
  NoDup (map f l) -> In a l -> In b l -> f a = f b -> a = b.
Proof.
  induction l as [|x l IH]; [contradiction|].
  simpl. intros Hnd Ha Hb Hf. inversion Hnd as [|? ? Hnin Hnd']; subst.
  destruct Ha as [->|Ha], Hb as [->|Hb]; auto.
  - exfalso. apply Hnin. rewrite Hf. now apply in_map.
  - exfalso. apply Hnin. rewrite <- Hf. now apply in_map.
Qed.

Lemma settle_get_in l a (w : World) :
  NoDup (map id_of l) -> In a l ->
  JSMap.get (id_of a) (jobs (exec (settle l) w))
  = match poll_update (fst a) (snd a) with
    | Some u => Some u
    | None => JSMap.get (id_of a) (jobs w)
    end.
Proof.
  intros Hnd Hin. destruct (poll_update (fst a) (snd a)) as [u|] eqn:Hu.
  - destruct a as [job o]. exact (@settle_get_written l job u o w Hnd Hin Hu).
  - apply settle_get_unwritten. intros b Hb Hid.
    now rewrite (@nodup_map_unique _ _ id_of l b a Hnd Hb Hin Hid).
Qed.

(** X11. The map a tick leaves does not depend on the order in which its
    requests settle: for a tick over a well-formed map, permuting the
    answers leaves the map after the tick the same, entry for entry and in
    the same order.  When every record the tick writes is plain and the
    table is tidy, the row under every identifier is the same too. *)
Theorem tick_order_independent
  (w : World) (arrivals arrivals' : list (Job.t * FetchOutcome)) :
  store_ok (jobs w) -> answers w arrivals -> Permutation arrivals arrivals' ->
  jobs (exec (pollAllJobs arrivals) w) = jobs (exec (pollAllJobs arrivals') w)
  /\ (tick_plain (browser w) arrivals = true -> tidy (jobsBody w) = true ->
      forall a, row_of a (exec (pollAllJobs arrivals) w)
                = row_of a (exec (pollAllJobs arrivals') w)).
Proof.
  intros Hs Hans Hperm.
  assert (Hans' : answers w arrivals').
  { unfold answers in *. rewrite <- Hans. apply Permutation_map.
    now apply Permutation_sym. }
  destruct (answers_facts Hs Hans) as (Hnd & Hnda & Hall).
  destruct (answers_facts Hs Hans') as (Hnd' & Hnda' & Hall').
  set (w0 := exec (set_indicator "Refreshing…") w).
  assert (Hkeys : forall l,
            Forall (fun a => JSMap.get (id_of a) (jobs w) = Some (fst a) /\ job_ok (fst a)) l ->
            JSMap.keys (jobs (exec (settle l) w0)) = JSMap.keys (jobs w)).
  { intros l Hl. apply (@settle_keys l w0). revert Hl. apply Forall_impl.
    intros a [Ha _]. exact (get_in_keys _ _ Ha). }
  split.
  - rewrite !pollAllJobs_jobs.
    destruct (JSMap.size (jobs w) =? 0)%nat; [reflexivity|]. fold w0.
    apply assoc_ext.
    + now rewrite (Hkeys _ Hall), (Hkeys _ Hall').
    + rewrite (Hkeys _ Hall). apply Hs.
    + intros k.
      destruct (in_dec value_eq_dec k (map id_of arrivals)) as [Hin|Hnin].
      * apply in_map_iff in Hin as (a & <- & Ha).
        rewrite (@settle_get_in arrivals a w0 Hnd Ha).
        rewrite (@settle_get_in arrivals' a w0 Hnd' (Permutation_in _ Hperm Ha)). reflexivity.
      * rewrite !settle_get_unwritten; [reflexivity| |].
        -- intros a Ha Hid. exfalso. apply Hnin. rewrite <- Hid. apply in_map.
           exact (Permutation_in _ (Permutation_sym Hperm) Ha).
        -- intros a Ha Hid. exfalso. apply Hnin. rewrite <- Hid. now apply in_map.
  - intros Hplain Htidy k.
    assert (Htidy0 : tidy (jobsBody w0) = true) by exact Htidy.
    assert (Hplain0 : tick_plain (browser w0) arrivals = true) by exact Hplain.
    assert (Hplain' : tick_plain (browser w0) arrivals' = true)
      by exact (@tick_plain_perm (browser w0) arrivals arrivals' Hperm Hplain).
    unfold row_of. rewrite !pollAllJobs_jobsBody.
    destruct (JSMap.size (jobs w) =? 0)%nat; [reflexivity|]. fold w0.
    fold (row_of k (exec (settle arrivals) w0)).
    fold (row_of k (exec (settle arrivals') w0)).
    destruct (in_dec string_dec k (map attr_of arrivals)) as [Hin|Hnin].
    + apply in_map_iff in Hin as (a & <- & Ha).
      rewrite (@settle_row_in arrivals a w0 Hplain0 Htidy0 Hnda Ha).
      rewrite (@settle_row_in arrivals' a w0 Hplain' Htidy0 Hnda'
                 (Permutation_in _ Hperm Ha)).
      reflexivity.
    + rewrite !settle_row_unwritten;
        [reflexivity | exact Hplain' | exact Htidy0 | | exact Hplain0 | exact Htidy0 | ].
      * intros a Ha Hid. exfalso. apply Hnin. rewrite <- Hid. apply in_map.
        exact (Permutation_in _ (Permutation_sym Hperm) Ha).
      * intros a Ha Hid. exfalso. apply Hnin. rewrite <- Hid. now apply in_map.
Qed.

Lemma logged_iff (job : Job.t) (o : FetchOutcome) :
  logged o = match poll_update job o with None => true | Some _ => false end.
Proof.
  unfold logged, poll_update. destruct o as [e|r]; [reflexivity|].
  destruct (ok r); simpl; [|reflexivity]. now destruct (body r).
Qed.

(** Each callback adds at most one entry to the console, and one when its
    request is among the [logged]. *)
Lemma settle_console_bounds l (w : World) :
  exists log,
    console (exec (settle l) w) = (console w ++ log)%list
    /\ length (tick_log l) <= length log <= length l.
Proof.
  unfold tick_log. revert w. induction l as [|a l IH]; intros w.
  - exists []. simpl. rewrite app_nil_r. split; [reflexivity | lia].
  - rewrite settle_exec_cons.
    destruct (IH (exec (pollJob (fst a) (snd a)) w)) as (log & Hc & Hlen).
    rewrite Hc, pollJob_console, <- app_assoc. eexists. split; [reflexivity|].
    rewrite length_map in *. cbn [filter]. rewrite (logged_iff (fst a) (snd a)).
    rewrite length_app.
    destruct (poll_update (fst a) (snd a)) as [u|]; [|simpl; lia].
    destruct (render_outcome (browser w) u (jobsBody w)); simpl; lia.
Qed.

(** When every record written is plain, the table is tidy and every row
    has its cells, the renders of a tick end normally, and the console gains
    the entries of the requests that failed and no other. *)
Lemma settle_console l (w : World) :
  Forall (fun a => job_ok (fst a)) l ->
  tick_plain (browser w) l = true -> tidy (jobsBody w) = true ->
  complete (jobsBody w) = true ->
  console (exec (settle l) w) = (console w ++ tick_log l)%list.
Proof.
  unfold tick_log. revert w. induction l as [|a l IH]; intros w Hl Hpl Htd Hc.
  - simpl. now rewrite app_nil_r.
  - inversion Hl as [|? ? Ha Hl']; subst.
    apply tick_plain_cons in Hpl as [Hpa Hpl].
    rewrite settle_exec_cons, IH;
      [ | exact Hl' | now rewrite pollJob_browser | now apply pollJob_tidy | ].
    + rewrite pollJob_console, <- app_assoc. f_equal.
      cbn [filter]. rewrite (logged_iff (fst a) (snd a)).
      destruct (poll_update (fst a) (snd a)) as [u|] eqn:Hu; [|reflexivity].
      destruct (poll_update_ok _ Ha Hu) as [_ Hst].
      destruct (@renderStatusBadge_ok (browser w) (Job.status u) Hst) as [badge Hb].
      rewrite (proj1 (@rendered_row (browser w) u badge (jobsBody w)
                        (Hpa u eq_refl) Htd
                        (@complete_row_ready (ToString (Job.id u)) (jobsBody w) Hc) Hb)).
      reflexivity.
    + rewrite pollJob_jobsBody.
      destruct (poll_update (fst a) (snd a)) as [u|] eqn:Hu; [|exact Hc].
      apply complete_rendered; [now apply Hpa | exact Htd | exact Hc].
Qed.

(** X12. What a tick leaves behind, besides the map and the table.  For a
    tick over a well-formed map: the indicator, when the page has one,
    reads [Auto-refreshing…] once a tick with at least one request has
    ended; the form, the upload status text, [pollerId] and the timers are
    left alone; and the console gains at most one entry per request, and one
    for each request that is rejected, answered with a status outside
    200..299, with a body that is not JSON, or with the body [null].  When
    every record the tick writes is plain, the table is tidy and every row
    of it has its three cells, those are the only entries: each carries its
    request's error, in the order the requests settle. *)
Theorem tick_logs_failures (w : World) (arrivals : list (Job.t * FetchOutcome)) :
  store_ok (jobs w) -> answers w arrivals ->
  let w' := exec (pollAllJobs arrivals) w in
  (exists log,
      console w' = (console w ++ log)%list
      /\ length (filter (fun a => logged (snd a)) arrivals) <= length log
         <= length arrivals)
  /\ (tick_plain (browser w) arrivals = true -> tidy (jobsBody w) = true ->
      complete (jobsBody w) = true ->
      console w' = (console w ++ tick_log arrivals)%list)
  /\ pollingIndicator w'
     = match arrivals with
       | [] => pollingIndicator w
       | _ :: _ => option_map (fun _ => "Auto-refreshing…") (pollingIndicator w)
       end
  /\ uploadForm w' = uploadForm w /\ uploadStatusEl w' = uploadStatusEl w
  /\ pollerId w' = pollerId w /\ timers w' = timers w.
Proof.
  intros Hs Hans w'.
  destruct (answers_facts Hs Hans) as (_ & _ & Hall).
  assert (Hok : Forall (fun a => job_ok (fst a)) arrivals).
  { revert Hall. apply Forall_impl. tauto. }
  assert (Hw' : w' = if (JSMap.size (jobs w) =? 0)%nat then w
                     else exec pollAllJobs_end
                            (exec (settle arrivals) (exec (set_indicator "Refreshing…") w))).
  { unfold w', exec at 1. now rewrite pollAllJobs_run. }
  clearbody w'.
  set (w0 := exec (set_indicator "Refreshing…") w) in *.
  destruct (settle_frame arrivals w0) as (Hp & Ht & Hf & Hu & Hi).
  destruct (settle_console_bounds arrivals w0) as (log & Hlog & Hlen).
  unfold tick_log in Hlen. rewrite length_map in Hlen.
  pose proof (@settle_console arrivals w0 Hok) as Hc. cbv zeta in *.
  destruct arrivals as [|a l].
  - assert (Hz : jobs w = []).
    { unfold answers in Hans. simpl in Hans. apply Permutation_nil in Hans.
      unfold JSMap.values in Hans. now apply map_eq_nil in Hans. }
    rewrite Hz in Hw'. simpl in Hw'. subst w'. unfold tick_log. simpl.
    rewrite app_nil_r. split; [|repeat split].
    exists []. rewrite app_nil_r. split; [reflexivity | simpl; lia].
  - rewrite (answers_nonempty _ Hans (or_introl eq_refl)) in Hw'. subst w'.
    split; [exists log; split; [exact Hlog | exact Hlen]|].
    split; [exact Hc|].
    split.
    { change (pollingIndicator (exec pollAllJobs_end (exec (settle (a :: l)) w0)))
        with (option_map (fun _ : string => "Auto-refreshing…")
                (pollingIndicator (exec (settle (a :: l)) w0))).
      rewrite Hi. unfold w0. simpl. now destruct (pollingIndicator w). }
    split; [exact Hf|]. split; [exact Hu|]. split; [exact Hp | exact Ht].
Qed.

(** ** The further properties at concrete inputs *)

Lemma two_jobs_store_ok : store_ok (jobs two_jobs).
Proof.
  split.
  - simpl. repeat constructor; simpl; intuition discriminate.
  - repeat constructor; simpl; discriminate.
Qed.

Lemma mixed_answers_ok : answers two_jobs mixed_answers.
Proof. apply Permutation_refl. Qed.

(** X1 at job 43 on the page that shows job 42: the new row comes first,
    the row of job 42 stays, and the table stays tidy. *)
Lemma renderJob_upserts_row_witness :
  attrs (jobsBody (exec (renderJob job43) (world job_created))) = ["43"; "42"]
  /\ row_of "42" (exec (renderJob job43) (world job_created))
     = row_of "42" (world job_created)
  /\ tidy (jobsBody (exec (renderJob job43) (world job_created))) = true.
Proof.
  destruct (@renderJob_upserts_row job43 (world job_created) eq_refl eq_refl)
    as (_ & H2 & _ & _ & H5 & _ & H7 & _).
  split; [|split; [|exact H7]].
  - apply H2. vm_compute. intros [H|[]]. discriminate H.
  - apply H5. discriminate.
Defined.

(** X2 at job 42 on the page that shows it. *)
Lemma renderJob_idempotent_witness :
  renderJob job42 (exec (renderJob job42) (world job_created))
  = (outcome (renderJob job42) (world job_created),
     exec (renderJob job42) (world job_created)).
Proof.
  apply (proj2 (proj2 (@renderJob_idempotent job42 (world job_created) eq_refl eq_refl))).
  vm_compute. lia.
Defined.

(** X5 at [report.pdf], answered 200 [{job_id: "42"}]. *)
Lemma upload_three_outcomes_witness :
  uploadStatusEl
    (exec (handleUpload_resume (mkFormData (Some "report.pdf"))
             (Responded (created "42"))) report_page)
  = "Upload successful! Job created."
  /\ pollerId
       (exec (handleUpload_resume (mkFormData (Some "report.pdf"))
                (Responded (created "42"))) report_page)
     <> None.
Proof.
  destruct (@upload_three_outcomes report_page
              (mkForm (Some false) (Some "report.pdf"))
              (mkFormData (Some "report.pdf")) (Responded (created "42")) eq_refl)
    as (_ & _ & _ & H).
  destruct (H job42 eq_refl) as (_ & _ & Hok & _).
  destruct (Hok eq_refl) as (H1 & _ & _ & H4).
  split; [exact H1 | exact H4].
Defined.

(** X6 at [report.pdf], answered 200 [{job_id: "42"}]. *)
Lemma upload_success_shows_job_witness :
  exists name status badge,
    Job.filename (uploaded (Payload.mk (VStr "42") VUndefined VUndefined VUndefined)
                    (mkFormData (Some "report.pdf"))) = VStr name
    /\ name <> EmptyString
    /\ Job.status (uploaded (Payload.mk (VStr "42") VUndefined VUndefined VUndefined)
                     (mkFormData (Some "report.pdf"))) = VStr status
    /\ status <> EmptyString
    /\ renderStatusBadge strict (VStr status) = Ok badge
    /\ exists row,
         row_of "42"
           (exec (handleUpload_resume (mkFormData (Some "report.pdf"))
                    (Responded (created "42"))) report_page)
         = Some row
         /\ job_name row = Some (Text name)
         /\ job_status row = Some (Html badge).
Proof.
  destruct (@upload_success_shows_job report_page (mkFormData (Some "report.pdf"))
              (created "42") (Payload.mk (VStr "42") VUndefined VUndefined VUndefined)
              eq_refl eq_refl eq_refl eq_refl eq_refl eq_refl)
    as (name & status & badge & H1 & H2 & H3 & H4 & H5 & (row & H6 & H7 & H8 & _) & _).
  exists name, status, badge. repeat (split; [assumption|]).
  exists row. repeat split; assumption.
Defined.

(** X7 at [report.pdf], answered 200 [{job_id: "42"}]. *)
Lemma upload_success_store_witness :
  JSMap.get (VStr "42")
    (jobs (exec (handleUpload_resume (mkFormData (Some "report.pdf"))
                   (Responded (created "42"))) report_page))
  = Some job42.
Proof.
  exact (proj1 (@upload_success_store report_page (mkFormData (Some "report.pdf"))
                  (created "42") (Payload.mk (VStr "42") VUndefined VUndefined VUndefined)
                  eq_refl eq_refl eq_refl)).
Defined.

(** X8 at the page after the upload of job 42. *)
Lemma reachable_jobs_renderable_witness :
  NoDup (JSMap.keys (jobs (world job_created)))
  /\ outcome (renderJob job42) (world job_created) = Ok tt.
Proof.
  destruct (@reachable_jobs_renderable job_created (VStr "42") job42
              job_created_reachable eq_refl) as (H1 & _ & _ & _ & _ & H6).
  split; [exact H1 | exact (H6 (world job_created) eq_refl eq_refl eq_refl)].
Defined.

(** X9 at the page after the upload of job 42, when its timer fires. *)
Lemma reachable_timer_implies_tracked_witness :
  ticks (tick job_created) = (ticks job_created ++ [[job42]])%list.
Proof.
  exact (proj2 (proj2 (@reachable_timer_implies_tracked job_created
                         job_created_reachable)
                  (mkTimer 1 CallPollAllJobs 5000) (or_introl eq_refl))).
Defined.

(** X10 at a status request for the tracked job 42 that settles while a
    second one is in flight. *)
Lemma step_never_undoes_witness :
  In (VStr "42") (JSMap.keys (jobs (world overlap_before)))
  /\ pollerId (world overlap_before) = Some 1
  /\ exists l, timers (world overlap_before)
               = ([mkTimer 1 CallPollAllJobs 5000] ++ l)%list.
Proof.
  destruct (@step_never_undoes two_ticks overlap_before
              (@step_poll_settles two_ticks [[job42]] [] job42 [] []
                 (Responded says_done) eq_refl))
    as (H1 & H2 & H3 & _).
  split; [apply H1; now left|]. split; [exact (H2 1 eq_refl) | exact H3].
Defined.

(** X11 at two jobs, the answers swapped. *)
Lemma tick_order_independent_witness :
  jobs (exec (pollAllJobs mixed_answers) two_jobs)
  = jobs (exec (pollAllJobs (rev mixed_answers)) two_jobs)
  /\ row_of "42" (exec (pollAllJobs mixed_answers) two_jobs)
     = row_of "42" (exec (pollAllJobs (rev mixed_answers)) two_jobs).
Proof.
  destruct (@tick_order_independent two_jobs mixed_answers (rev mixed_answers)
              two_jobs_store_ok mixed_answers_ok (perm_swap _ _ _)) as [H1 H2].
  split; [exact H1 | exact (H2 eq_refl eq_refl "42")].
Defined.

(** X12 at two jobs, one answered, one failing. *)
Lemma tick_logs_failures_witness :
  console (exec (pollAllJobs mixed_answers) two_jobs)
  = [(Some "Failed to poll job status", Error "Status request failed (500)")].
Proof.
  exact (proj1 (proj2 (@tick_logs_failures two_jobs mixed_answers
                         two_jobs_store_ok mixed_answers_ok)) eq_refl eq_refl eq_refl).
Defined.

(** X13 at two overlapping ticks over job 42. *)
Lemma reachable_poll_keeps_keys_witness :
  JSMap.keys (jobs (exec (pollJob job42 (Responded says_done)) (world two_ticks)))
  = JSMap.keys (jobs (world two_ticks)).
Proof.
  exact (@reachable_poll_keeps_keys two_ticks [[job42]] [] job42 [] []
           (Responded says_done) two_ticks_reachable eq_refl).
Defined.

(** X14 at two jobs: the answered one, its record and its row. *)
Lemma tick_merges_response_witness :
  JSMap.get (VStr "42") (jobs (exec (pollAllJobs mixed_answers) two_jobs))
  = Some (Job.mk (VStr "42") (VStr "report.pdf") (VStr "done"))
  /\ exists row badge,
       renderStatusBadge strict (VStr "done") = Ok badge
       /\ row_of "42" (exec (pollAllJobs mixed_answers) two_jobs) = Some row
       /\ job_name row = Some (Text "report.pdf")
       /\ job_status row = Some (Html badge)
       /\ job_download row
          = Some (Html (renderDownloadLink strict
                          (Job.mk (VStr "42") (VStr "report.pdf") (VStr "done")))).
Proof.
  destruct (@tick_merges_response two_jobs mixed_answers job42 says_done
              (Payload.mk VUndefined VUndefined VUndefined (VStr "done"))
              two_jobs_store_ok mixed_answers_ok (or_introl eq_refl) eq_refl eq_refl)
    as (_ & H2 & _ & _ & _ & _ & H7).
  split; [exact H2 | exact (H7 eq_refl eq_refl eq_refl)].
Defined.

(** X15 at two jobs: the failing one, its record and its row. *)
Lemma tick_failure_keeps_record_witness :
  JSMap.get (VStr "43") (jobs (exec (pollAllJobs mixed_answers) two_jobs)) = Some job43
  /\ row_of "43" (exec (pollAllJobs mixed_answers) two_jobs) = row_of "43" two_jobs.
Proof.
  destruct (@tick_failure_keeps_record two_jobs mixed_answers job43
              (Responded (mkResponse 500 BodyNull))
              two_jobs_store_ok mixed_answers_ok (or_intror (or_introl eq_refl)) eq_refl)
    as (_ & H2 & H3 & _).
  split; [exact H2 | exact (H3 eq_refl eq_refl)].
Defined.

(** The table, unlike the map, can depend on the order: when two tracked
    jobs have no row yet, each answered request puts its row first. *)
Example table_order_follows_arrivals :
  let both := [(job42, Responded says_done); (job43, Responded says_done)] in
  attrs (jobsBody (exec (pollAllJobs both) two_jobs)) = ["43"; "42"]
  /\ attrs (jobsBody (exec (pollAllJobs (rev both)) two_jobs)) = ["42"; "43"].
Proof. vm_compute. split; reflexivity. Qed.

(** A second render of the same job changes nothing. *)
Example render_twice :
  renderJob job42 (exec (renderJob job42) report_page)
  = (Ok tt, exec (renderJob job42) report_page).
Proof. vm_compute. reflexivity. Qed.

(** A poll answered for a job whose identifier has a double quote in it,
    in a browser that rejects the selector: the record is merged, no row is
    written, and the error is logged. *)
Example poll_quoted_id :
  let job := Job.mk (VStr quoted) (VStr "q.pdf") (VStr "pending") in
  let w := with_jobs (fun _ => [(VStr quoted, job)]) report_page in
  let w' := exec (pollJob job (Responded says_done)) w in
  JSMap.get (VStr quoted) (jobs w') = Some (Job.mk (VStr quoted) (VStr "q.pdf") (VStr "done"))
  /\ jobsBody w' = jobsBody w
  /\ length (console w') = 1.
Proof. vm_compute. repeat split. Qed.
